(** * Neural Order: trading-cycle engine, balance reconciliation and order signing

    A shallow embedding of the TypeScript sources
    - [lib/aster-real-trading.ts]  (signed order client, live balance sync),
    - [lib/balance-calculator.ts]  (paper balance),
    - the trading engine, price helper, cron and snapshot route,
    - [lib/gemini-service.ts], [lib/openai-service.ts] (decision adapters),
    followed by the properties established about them.

    Conventions of the embedding.
    - JavaScript strings are [string]s of code units below 256.
    - Integral JavaScript numbers (nonces, millisecond timestamps, leverage)
      are [Z], meant below 10^21 in absolute value, where [String] prints
      every digit; monetary numbers are exact rationals [Q] compared with
      [==], so NaN and the infinities are outside the model (they only
      arise from a division by a zero entry price or balance), and an
      equation between monetary numbers holds of the code up to the
      rounding of its double arithmetic.
    - Reads of the clock, of the random source and the replies of remote
      services are explicit inputs.
    - Hashing and signing are symbolic: a digest or a signature is the term
      that names its inputs, so distinct inputs give distinct results. *)

From Stdlib Require Import ZArith QArith Qround Lqa Lia Ascii String.
From stdpp Require Import base option gmap strings list sorting pretty.

Local Open Scope Z_scope.

(** ** JavaScript values and their string forms *)

Module Js.

(** The values a parameter object can hold.  A nested object keeps its
    properties in insertion order, the order [JSON.stringify] walks them. *)
#[warnings="-register-all"]
Inductive value :=
| Undefined
| Null
| Bool (b : bool)
| Num (n : Z)
| Str (s : string)
| Arr (elems : list value)
| Obj (fields : list (string * value)).

Definition dquote : ascii := "034"%char.
Definition squote : ascii := "039"%char.
Definition backslash : ascii := "092"%char.

(** [typeof v === 'object'] *)
Definition typeof_object (v : value) : bool :=
  match v with
  | Null | Arr _ | Obj _ => true
  | _ => false
  end.

(** JavaScript truthiness, as used by [||], [!] and [?:]. *)
Definition truthy (v : value) : bool :=
  match v with
  | Undefined | Null => false
  | Bool b => b
  | Num n => negb (n =? 0)
  | Str s => negb (String.eqb s EmptyString)
  | Arr _ | Obj _ => true
  end.

(** [a || b] *)
Definition or_else (a b : value) : value := if truthy a then a else b.

Definition hex_digit (n : N) : ascii :=
  match n with
  | 0%N => "0" | 1%N => "1" | 2%N => "2" | 3%N => "3" | 4%N => "4"
  | 5%N => "5" | 6%N => "6" | 7%N => "7" | 8%N => "8" | 9%N => "9"
  | 10%N => "a" | 11%N => "b" | 12%N => "c" | 13%N => "d" | 14%N => "e"
  | _ => "f"
  end%char.

(** One code unit inside a JSON string literal (QuoteJSONString). *)
Definition escape_char (c : ascii) : string :=
  let n := N_of_ascii c in
  if Ascii.eqb c dquote then String backslash (String dquote EmptyString)
  else if Ascii.eqb c backslash then String backslash (String backslash EmptyString)
  else if (n =? 8)%N then "\b"
  else if (n =? 9)%N then "\t"
  else if (n =? 10)%N then "\n"
  else if (n =? 12)%N then "\f"
  else if (n =? 13)%N then "\r"
  else if (n <? 32)%N then
    "\u00" +:+ String (hex_digit (n / 16)) (String (hex_digit (n mod 16)) EmptyString)
  else String c EmptyString.

Fixpoint json_escape (s : string) : string :=
  match s with
  | EmptyString => EmptyString
  | String c rest => escape_char c +:+ json_escape rest
  end.

(** [JSON.stringify] of a string: the escaped text between double quotes. *)
Definition quote (s : string) : string :=
  String dquote (json_escape s +:+ String dquote EmptyString).

(** [xs.join(",")] *)
Fixpoint join_comma (xs : list string) : string :=
  match xs with
  | [] => EmptyString
  | [x] => x
  | x :: rest => x +:+ "," +:+ join_comma rest
  end.

(** [JSON.stringify(v)] without replacer; [None] is the result [undefined]. *)
Fixpoint stringify (v : value) : option string :=
  match v with
  | Undefined => None
  | Null => Some "null"
  | Bool b => Some (if b then "true" else "false")
  | Num n => Some (pretty n)
  | Str s => Some (quote s)
  | Arr elems =>
      Some ("[" +:+ join_comma (List.map (fun e => default "null" (stringify e)) elems) +:+ "]")
  | Obj fields =>
      let member (kv : string * value) : list string :=
        match kv with
        | (k, x) =>
            match stringify x with
            | Some sx => [quote k +:+ ":" +:+ sx]
            | None => []
            end
        end in
      Some ("{" +:+ join_comma (List.flat_map member fields) +:+ "}")
  end.

(** [String(v)] (ToString).  A number is printed with all its digits, as
    the code does for the integers below 10^21 in absolute value. *)
Fixpoint to_String (v : value) : string :=
  match v with
  | Undefined => "undefined"
  | Null => "null"
  | Bool b => if b then "true" else "false"
  | Num n => pretty n
  | Str s => s
  | Arr elems =>
      join_comma (List.map (fun e => match e with
                                     | Undefined | Null => EmptyString
                                     | _ => to_String e
                                     end) elems)
  | Obj _ => "[object Object]"
  end.

(** The characters matched by the regular expression [\s], below 256. *)
Definition is_js_space (c : ascii) : bool :=
  let n := N_of_ascii c in
  ((9 <=? n) && (n <=? 13) || (n =? 32) || (n =? 160))%N.

(** [s.replace(/\s/g, '')] *)
Fixpoint remove_whitespace (s : string) : string :=
  match s with
  | EmptyString => EmptyString
  | String c rest =>
      if is_js_space c then remove_whitespace rest
      else String c (remove_whitespace rest)
  end.

(** The second [replace] of the source: every single quote (code 39)
    becomes a double quote (code 34). *)
Fixpoint replace_single_quotes (s : string) : string :=
  match s with
  | EmptyString => EmptyString
  | String c rest =>
      String (if Ascii.eqb c squote then dquote else c) (replace_single_quotes rest)
  end.

(** [JSON.stringify(obj, keys)] with an array replacer, for an object whose
    values are strings: the members are emitted in the order of [keys], and
    a key the object lacks is skipped. *)
Definition stringify_with_keys (obj : gmap string string) (keys : list string) : string :=
  "{" +:+ join_comma (omap (fun k => (fun s => quote k +:+ ":" +:+ quote s) <$> obj !! k) keys) +:+ "}".

(** [Object.keys(obj).sort()]: ascending order of code units. *)
Definition sorted_keys (obj : gmap string string) : list string :=
  merge_sort String.le (map_to_list obj).*1.

End Js.

(** ** The signed order client: [lib/aster-real-trading.ts] *)

Module Aster.
Import Js.

Record AgentWalletConfig := {
  user : string;        (* main account wallet address *)
  signer : string;      (* API wallet address *)
  privateKey : string;  (* private key of the signer wallet *)
}.

(** Hex data produced by the [ethers] library, kept symbolic.  Addresses
    are taken in their normalised spelling and the wallet configuration is
    taken to be well formed (an ill-formed key or address makes [ethers]
    throw before anything is signed). *)
Inductive hexdata :=
| abi_encode (jsonStr account signerAddr : string) (nonce : Z)
    (* abiCoder.encode([string, address, address, uint256], ...) *)
| keccak256 (data : hexdata)
| signMessage (key : string) (message : hexdata).
    (* new Wallet(key).signMessage(getBytes(message)) *)

Inductive Side := BUY | SELL.
Inductive OrderType := MARKET | LIMIT | STOP_MARKET | TAKE_PROFIT_MARKET.
Inductive PositionSide := LONG | SHORT | BOTH.
Inductive TimeInForce := GTC | IOC | FOK | GTX.
Inductive RespType := ACK | RESULT.

Record AsterOrderParams := {
  symbol : string;
  side : Side;
  type : OrderType;
  positionSide : option PositionSide;
  quantity : option string;
  price : option string;
  stopPrice : option string;
  timeInForce : option TimeInForce;
  reduceOnly : option string;
  leverage : option Z;
  newClientOrderId : option string;
  newOrderRespType : option RespType;
}.

Definition Side_str (s : Side) : string :=
  match s with BUY => "BUY" | SELL => "SELL" end.
Definition OrderType_str (t : OrderType) : string :=
  match t with
  | MARKET => "MARKET" | LIMIT => "LIMIT"
  | STOP_MARKET => "STOP_MARKET" | TAKE_PROFIT_MARKET => "TAKE_PROFIT_MARKET"
  end.
Definition PositionSide_str (p : PositionSide) : string :=
  match p with LONG => "LONG" | SHORT => "SHORT" | BOTH => "BOTH" end.
Definition TimeInForce_str (t : TimeInForce) : string :=
  match t with GTC => "GTC" | IOC => "IOC" | FOK => "FOK" | GTX => "GTX" end.
Definition RespType_str (r : RespType) : string :=
  match r with ACK => "ACK" | RESULT => "RESULT" end.

(** [obj[k] = v] when the optional property is present. *)
Definition set_opt {A} (k : string) (f : A → value) (o : option A)
    (obj : gmap string value) : gmap string value :=
  match o with
  | Some a => <[k := f a]> obj
  | None => obj
  end.

(** The JavaScript object an [AsterOrderParams] value denotes: one property
    per field that is present. *)
Definition order_object (o : AsterOrderParams) : gmap string value :=
  set_opt "newOrderRespType" (fun r => Str (RespType_str r)) (newOrderRespType o)
  (set_opt "newClientOrderId" Str (newClientOrderId o)
  (set_opt "leverage" Num (leverage o)
  (set_opt "reduceOnly" Str (reduceOnly o)
  (set_opt "timeInForce" (fun t => Str (TimeInForce_str t)) (timeInForce o)
  (set_opt "stopPrice" Str (stopPrice o)
  (set_opt "price" Str (price o)
  (set_opt "quantity" Str (quantity o)
  (set_opt "positionSide" (fun p => Str (PositionSide_str p)) (positionSide o)
  (<["type" := Str (OrderType_str (type o))]>
  (<["side" := Str (Side_str (side o))]>
  (<["symbol" := Str (symbol o)]> ∅))))))))))).

(** *** The world the client runs in *)

(** A value of the outgoing request: plain text or the signature. *)
Inductive field :=
| Text (s : string)
| Signature (sig : hexdata).

Inductive Method := GET | POST.

(** The form-encoded body (or query string) as the map from names to values
    the exchange reads; the order of the pairs is not kept. *)
Record http_request := {
  req_method : Method;
  req_path : string;
  req_fields : gmap string field;
}.

(** One entry of the balance endpoint's reply ([AsterBalance]). *)
Record AsterBalance := {
  asset : string;
  ab_balance : string;   (* the property [balance]: the wallet balance as text *)
}.

(** What [response.json()] yields. *)
Inductive json_body :=
| NotJson                                  (* the promise rejects *)
| Balances (entries : list AsterBalance)   (* an array of balance records *)
| OtherJson (v : value).                   (* any other value, not an array *)

Inductive fetch_result :=
| Rejected                                       (* transport failure *)
| Response (ok : bool) (status : Z) (body : json_body).

Inductive error :=
| FetchRejected
| AsterApiError (status : Z)
| FetchBalanceError (status : Z)
| JsonRejected
| UsdtNotFound
| TypeError
| SaveRejected.

(** The part of an agent document the balance sync touches. *)
Record agent := {
  name : string;
  balance : Q;
  pnl : Q;
  pnlAbsolute : Q;
}.

Inductive log_entry :=
| LogOrderError (e : error)
| LogBalanceError (e : error)
| LogSynced (who : string) (realBalance : Q)
| LogSyncFailed (who : string) (e : error).

Record world := {
  now_at : nat → Z;             (* the successive readings of Date.now() *)
  reads : nat;                  (* how many readings were taken *)
  exchange : http_request → fetch_result;
  sent : list http_request;     (* requests sent, oldest first *)
  console : list log_entry;     (* console output, oldest first *)
  save_rejects : bool;          (* whether agent.save() rejects *)
  saved : list agent;           (* documents written by agent.save() *)
}.

Inductive outcome (A : Type) :=
| Returned (a : A)
| Thrown (e : error).
Arguments Returned {A} a.
Arguments Thrown {A} e.

(** Computations that read and change the world and may throw. *)
Definition M (A : Type) : Type := world → outcome A * world.

#[global] Instance M_ret : MRet M := fun A a w => (Returned a, w).
#[global] Instance M_bind : MBind M := fun A B f m w =>
  match m w with
  | (Returned a, w') => f a w'
  | (Thrown e, w') => (Thrown e, w')
  end.

Definition throw {A} (e : error) : M A := fun w => (Thrown e, w).

(** [try { body } catch (error) { handler(error) }] *)
Definition try_catch {A} (body : M A) (handler : error → M A) : M A := fun w =>
  match body w with
  | (Returned a, w') => (Returned a, w')
  | (Thrown e, w') => handler e w'
  end.

(** [Date.now()] *)
Definition Date_now : M Z := fun w =>
  (Returned (now_at w (reads w)),
   {| now_at := now_at w; reads := S (reads w); exchange := exchange w;
      sent := sent w; console := console w; save_rejects := save_rejects w;
      saved := saved w |}).

(** [await fetch(url, ...)] *)
Definition fetch (r : http_request) : M fetch_result := fun w =>
  (Returned (exchange w r),
   {| now_at := now_at w; reads := reads w; exchange := exchange w;
      sent := sent w ++ [r]; console := console w; save_rejects := save_rejects w;
      saved := saved w |}).

(** [console.log] and [console.error] *)
Definition console_log (e : log_entry) : M unit := fun w =>
  (Returned tt,
   {| now_at := now_at w; reads := reads w; exchange := exchange w;
      sent := sent w; console := console w ++ [e]; save_rejects := save_rejects w;
      saved := saved w |}).

(** [await agent.save()] *)
Definition save (a : agent) : M unit := fun w =>
  if save_rejects w then (Thrown SaveRejected, w)
  else (Returned tt,
        {| now_at := now_at w; reads := reads w; exchange := exchange w;
           sent := sent w; console := console w; save_rejects := save_rejects w;
           saved := saved w ++ [a] |}).

(** *** Signing *)

(** [generateNonce]: the clock in microseconds. *)
Definition generateNonce : M Z :=
  now ← Date_now;
  mret (now * 1000).

(** The string form [trimAndSortParams] gives one value; [None] when the
    property is skipped. *)
Definition trim_value (v : value) : option string :=
  match v with
  | Null | Undefined => None
  | Arr elems =>
      stringify (Arr (List.map (fun e =>
        Str (if typeof_object e then default "null" (stringify e) else to_String e)) elems))
  | Obj _ => stringify v
  | _ => Some (to_String v)
  end.

Definition trimAndSortParams (params : gmap string value) : gmap string string :=
  omap trim_value params.

(** Step 3 of [generateAsterSignature]: the JSON text that is signed. *)
Definition signed_json (trimmed : gmap string string) : string :=
  replace_single_quotes (remove_whitespace (stringify_with_keys trimmed (sorted_keys trimmed))).

Definition recvWindow : Z := 50000.

Definition generateAsterSignature (params : gmap string value)
    (walletConfig : AgentWalletConfig) (nonce : Z) : M hexdata :=
  now ← Date_now;
  let paramsWithMeta := <["timestamp" := Num now]> (<["recvWindow" := Num recvWindow]> params) in
  let trimmed := trimAndSortParams paramsWithMeta in
  let jsonStr := signed_json trimmed in
  let encoded := abi_encode jsonStr (user walletConfig) (signer walletConfig) nonce in
  let keccakHash := keccak256 encoded in
  mret (signMessage (privateKey walletConfig) keccakHash).

(** *** Orders *)

(** A value of [requestBody] before it is turned into text. *)
Inductive body_value :=
| Plain (v : value)
| Signed (sig : hexdata).

Definition is_undefined (b : body_value) : bool :=
  match b with
  | Plain Undefined => true
  | _ => false
  end.

(** [String(v)] on a value of the request body. *)
Definition body_text (b : body_value) : field :=
  match b with
  | Plain v => Text (to_String v)
  | Signed sig => Signature sig
  end.

(** [paramsForSign]: the order with its leverage as text, or [undefined]
    when the order has none (or a zero one). *)
Definition paramsForSign (orderParams : AsterOrderParams) : gmap string value :=
  <["leverage" := match leverage orderParams with
                  | Some l => if l =? 0 then Undefined else Str (pretty l)
                  | None => Undefined
                  end]> (order_object orderParams).

(** [requestBody], after the properties holding [undefined] are deleted and
    every value is passed through [String]. *)
Definition requestBody (orderParams : AsterOrderParams) (walletConfig : AgentWalletConfig)
    (nonce : Z) (signature : hexdata) (now : Z) : gmap string field :=
  let body : gmap string body_value :=
    <["timestamp" := Plain (Num now)]>
    (<["recvWindow" := Plain (Num recvWindow)]>
    (<["signature" := Signed signature]>
    (<["signer" := Plain (Str (signer walletConfig))]>
    (<["user" := Plain (Str (user walletConfig))]>
    (<["nonce" := Plain (Str (pretty nonce))]>
    (Plain <$> paramsForSign orderParams)))))) in
  body_text <$> filter (fun kv => is_undefined kv.2 = false) body.

Definition placeAsterOrder (orderParams : AsterOrderParams)
    (walletConfig : AgentWalletConfig) : M json_body :=
  nonce ← generateNonce;
  signature ← generateAsterSignature (paramsForSign orderParams) walletConfig nonce;
  now ← Date_now;
  let body := requestBody orderParams walletConfig nonce signature now in
  try_catch
    (response ← fetch {| req_method := POST; req_path := "/fapi/v3/order"; req_fields := body |};
     match response with
     | Rejected => throw FetchRejected
     | Response ok status payload =>
         if negb ok then throw (AsterApiError status)
         else match payload with
              | NotJson => throw JsonRejected
              | orderData => mret orderData
              end
     end)
    (fun e => _ ← console_log (LogOrderError e); throw e).

(** Closing is the opposite-side market order with [reduceOnly]. *)
Definition closeAsterPosition (sym : string) (sd : Side) (qty : string)
    (walletConfig : AgentWalletConfig) : M json_body :=
  placeAsterOrder
    {| symbol := sym; side := sd; type := MARKET; positionSide := None;
       quantity := Some qty; price := None; stopPrice := None; timeInForce := None;
       reduceOnly := Some "true"; leverage := None; newClientOrderId := None;
       newOrderRespType := None |}
    walletConfig.

(** *** Live balance *)

Section LiveBalance.

(** [parseFloat], the numeric reading of a text, is the runtime's. *)
Variable parseFloat : string → Q.

Definition getAsterAccountBalance (walletConfig : AgentWalletConfig) : M Q :=
  nonce ← generateNonce;
  timestamp ← Date_now;
  let params : gmap string value :=
    <["timestamp" := Num timestamp]> (<["recvWindow" := Num recvWindow]> ∅) in
  signature ← generateAsterSignature params walletConfig nonce;
  let queryParams : gmap string field :=
    <["signature" := Signature signature]>
    (<["signer" := Text (signer walletConfig)]>
    (<["user" := Text (user walletConfig)]>
    (<["nonce" := Text (pretty nonce)]>
    (<["timestamp" := Text (pretty timestamp)]>
    (<["recvWindow" := Text (pretty recvWindow)]> ∅))))) in
  try_catch
    (response ← fetch {| req_method := GET; req_path := "/fapi/v3/balance"; req_fields := queryParams |};
     match response with
     | Rejected => throw FetchRejected
     | Response ok status payload =>
         if negb ok then throw (FetchBalanceError status)
         else match payload with
              | NotJson => throw JsonRejected
              | OtherJson _ => throw TypeError       (* [balances.find] is not a function *)
              | Balances balances =>
                  match List.find (fun b => String.eqb (asset b) "USDT") balances with
                  | None => throw UsdtNotFound
                  | Some usdtBalance => mret (parseFloat (ab_balance usdtBalance))
                  end
              end
     end)
    (fun e => _ ← console_log (LogBalanceError e); throw e).

(** [syncBalanceFromAster]; the result is the agent object as the call
    leaves it.  The single [try] of the source is split where the object is
    mutated, so that each handler sees the object as it is when the
    exception arrives. *)
Definition syncBalanceFromAster (a : agent) (walletConfig : AgentWalletConfig)
    (initialBalance : Q) : M agent :=
  try_catch
    (realBalance ← getAsterAccountBalance walletConfig;
     let a' := {| name := name a;
                  balance := realBalance;
                  pnlAbsolute := realBalance - initialBalance;
                  pnl := ((realBalance - initialBalance) / initialBalance) * 100 |}%Q in
     try_catch
       (_ ← save a';
        _ ← console_log (LogSynced (name a') realBalance);
        mret a')
       (fun e => _ ← console_log (LogSyncFailed (name a') e); mret a'))
    (fun e => _ ← console_log (LogSyncFailed (name a) e); mret a).

End LiveBalance.

End Aster.

(** ** Numbers of the paper-trading side *)

Module Num.

Local Open Scope Q_scope.

(** [!x] on a number: only zero is falsy (NaN is outside the model). *)
Definition falsy (x : Q) : bool := Qeq_bool x 0.

(** [x || 0] *)
Definition or_zero (x : Q) : Q := if falsy x then 0 else x.

(** [x || d] *)
Definition or_default (x d : Q) : Q := if falsy x then d else x.

(** [x <= y], [x >= y], [x > y] as JavaScript evaluates them. *)
Definition le (x y : Q) : bool := Qle_bool x y.
Definition ge (x y : Q) : bool := Qle_bool y x.
Definition gt (x y : Q) : bool := negb (Qle_bool x y).

(** [Math.max(x, y)] *)
Definition max (x y : Q) : Q := if Qle_bool x y then y else x.

End Num.

(** ** Documents: [models/Agent.ts], [models/Trade.ts] *)

Module Doc.

Inductive Signal := long | short.

(** An element of [agent.activePositions]. *)
Record ActivePosition := {
  coin : string;
  entry_price : Q;
  current_price : Q;
  profit_target : Q;
  stop_loss : Q;
  leverage : Q;
  size_usd : Q;
  signal : Signal;
  opened_at : Z;
  expected_duration : string;
}.

Inductive TradeType := entry | exit.

(** [ITrade], without its display-only fields. *)
Record Trade := {
  agentId : string;
  pair : string;
  side : Signal;
  price : Q;
  pnl : Q;
  pnlAbsolute : Q;
  timestamp : Z;
  tradeType : TradeType;
  trade_size_usd : Q;     (* the property [size_usd] *)
}.

(** [IAgent], without its display-only fields. *)
Record Agent := {
  _id : string;
  name : string;
  strategy : string;
  prompt : string;
  balance : Q;
  agent_pnl : Q;           (* the property [pnl], a percentage *)
  agent_pnlAbsolute : Q;   (* the property [pnlAbsolute], in USD *)
  winRate : Q;
  totalTrades : Z;
  activePositions : list ActivePosition;
}.

#[global] Instance Signal_eq_dec : EqDecision Signal.
Proof. solve_decision. Defined.
#[global] Instance TradeType_eq_dec : EqDecision TradeType.
Proof. solve_decision. Defined.

End Doc.

(** ** Paper balance: [lib/balance-calculator.ts] *)

Module BalanceCalculator.
Import Doc.

Local Open Scope Q_scope.

Definition INITIAL_BALANCE : Q := 1000.

(** [Trade.find({ agentId, tradeType: "exit" })] on the trade collection. *)
Definition find_exit_trades (trades : list Trade) (id : string) : list Trade :=
  List.filter (fun t => String.eqb (agentId t) id && bool_decide (tradeType t = exit)) trades.

(** [getRealizedPnL]: the [reduce] over the exit trades, from 0. *)
Definition getRealizedPnL (trades : list Trade) (id : string) : Q :=
  fold_left (fun sum trade => sum + Num.or_zero (pnlAbsolute trade))
            (find_exit_trades trades id) 0.

(** One turn of the loop of [calculateUnrealizedPnL]. *)
Definition unrealized_step (currentPrices : gmap string Q)
    (totalUnrealizedPnL : Q) (position : ActivePosition) : Q :=
  match currentPrices !! coin position with
  | None => totalUnrealizedPnL
  | Some currentPrice =>
      if Num.falsy currentPrice then totalUnrealizedPnL
      else
        let priceChange := ((currentPrice - entry_price position) / entry_price position) * 100 in
        let pnlPercent := match signal position with
                          | long => priceChange
                          | short => - priceChange
                          end in
        let pnlAbsolute := (pnlPercent / 100) * size_usd position in
        totalUnrealizedPnL + pnlAbsolute
  end.

Definition calculateUnrealizedPnL (activePositions : list ActivePosition)
    (currentPrices : gmap string Q) : Q :=
  fold_left (unrealized_step currentPrices) activePositions 0.

Definition calculateAgentBalance (trades : list Trade) (agent : Agent)
    (currentPrices : gmap string Q) : Q :=
  let realizedPnL := getRealizedPnL trades (_id agent) in
  let unrealizedPnL := calculateUnrealizedPnL (activePositions agent) currentPrices in
  INITIAL_BALANCE + realizedPnL + unrealizedPnL.

(** [updateAgentBalance]: the agent document as it is saved. *)
Definition updateAgentBalance (trades : list Trade) (agent : Agent)
    (currentPrices : gmap string Q) : Agent :=
  let newBalance := calculateAgentBalance trades agent currentPrices in
  let exitTrades := find_exit_trades trades (_id agent) in
  let winningTrades := List.filter (fun t => Num.gt (pnl t) 0) exitTrades in
  let has_exits := negb (Nat.eqb (length exitTrades) 0) in
  {| _id := _id agent;
     name := name agent;
     strategy := strategy agent;
     prompt := prompt agent;
     balance := newBalance;
     agent_pnlAbsolute := newBalance - INITIAL_BALANCE;
     agent_pnl := ((newBalance - INITIAL_BALANCE) / INITIAL_BALANCE) * 100;
     winRate := if has_exits
                then (inject_Z (Z.of_nat (length winningTrades))
                      / inject_Z (Z.of_nat (length exitTrades))) * 100
                else winRate agent;
     totalTrades := if has_exits then Z.of_nat (length exitTrades) else totalTrades agent;
     activePositions := activePositions agent |}.

End BalanceCalculator.

(** ** Price helper: [calculatePnL] *)

Module AsterPrices.
Import Doc.

Local Open Scope Q_scope.

(** The percentage gained between entry and exit, by side. *)
Definition calculatePnL (side : Signal) (entryPrice exitPrice : Q) : Q :=
  match side with
  | long => ((exitPrice - entryPrice) / entryPrice) * 100
  | short => ((entryPrice - exitPrice) / entryPrice) * 100
  end.

End AsterPrices.

(** ** [app/api/agents/route.ts]: PnL of the open positions *)

Module AgentsRoute.
Import Doc.

Local Open Scope Q_scope.

(** The percentage and the absolute PnL the loop of [calculateUnrealizedPnL]
    (and [enrichPosition]) computes for one position at a price. *)
Definition pnlPercent (position : ActivePosition) (currentPrice : Q) : Q :=
  let priceChange := ((currentPrice - entry_price position) / entry_price position) * 100 in
  match signal position with
  | long => priceChange
  | short => - priceChange
  end.

Definition pnlAbsolute (position : ActivePosition) (currentPrice : Q) : Q :=
  (pnlPercent position currentPrice / 100) * Num.or_zero (size_usd position).

Definition calculateUnrealizedPnL (activePositions : list ActivePosition)
    (marketPrices : gmap string Q) : Q :=
  fold_left (fun totalUnrealizedPnL position =>
               match marketPrices !! coin position with
               | None => totalUnrealizedPnL
               | Some currentPrice =>
                   if Num.falsy currentPrice then totalUnrealizedPnL
                   else totalUnrealizedPnL + pnlAbsolute position currentPrice
               end)
            activePositions 0.

End AgentsRoute.

(** ** The trading engine: [generateAgentDecision], [executeTrade] *)

Module TradingEngine.
Import Doc.

Local Open Scope Q_scope.

Definition LEVERAGE_OPTIONS : list Q := [5; 8; 10; 12; 15; 20].

Record MarketData := {
  md_timestamp : Z;
  prices : gmap string Q;
  volatility : option (gmap string Q);
}.

(** Which level the closing justification names. *)
Inductive Hit := stop_loss_hit | take_profit_hit.

(** [trade_signal_args], by signal.  The free-text justification is kept
    only as the level a close names; the [conclusion] text is left out. *)
Inductive trade_signal_args :=
| Close (c : string) (entryPrice : Q) (why : Hit)
| Hold (c : string)
| Wait (c : string)
| Open (c : string) (sig : Signal)
       (quantity entryPrice profitTarget stopLoss lev confidence risk_usd sizeUsd : Q)
       (duration : string).

(** The decision of the first loop for one position whose coin has the
    price [currentPrice]. *)
Definition exit_decision (position : ActivePosition) (currentPrice : Q) : trade_signal_args :=
  if Num.le currentPrice (stop_loss position) || Num.ge currentPrice (profit_target position)
  then Close (coin position) currentPrice
             (if Num.le currentPrice (stop_loss position) then stop_loss_hit else take_profit_hit)
  else Hold (coin position).

(** The first loop: exit conditions of the positions held. *)
Definition check_exits (activePositions : list ActivePosition) (prices : gmap string Q)
    : gmap string trade_signal_args :=
  fold_left (fun decisions position =>
               match prices !! coin position with
               | None => decisions
               | Some currentPrice =>
                   if Num.falsy currentPrice then decisions
                   else <[coin position := exit_decision position currentPrice]> decisions
               end)
            activePositions ∅.

(** The state of the second loop: the decisions so far and the number of
    [Math.random()] draws taken. *)
Definition entry_state : Type := gmap string trade_signal_args * nat.

(** One turn of the second loop, for [coin]; [random i] is the i-th draw.
    The arithmetic is exact here; the code rounds each operation to a
    double, so that a draw just below 1 can give the confidence 1. *)
Definition entry_step (agent : Agent) (marketData : MarketData) (random : nat → Q)
    (st : entry_state) (c : string) : entry_state :=
  let '(decisions, i) := st in
  if existsb (fun p => String.eqb (coin p) c) (activePositions agent) then st
  else match prices marketData !! c with
  | None => st
  | Some currentPrice =>
    if Num.falsy currentPrice then st else
    let confidence := random i * 0.4 + 0.6 in
    (* the second draw is taken only when the first test holds *)
    let '(shouldTrade, i) :=
      if Num.gt confidence 0.6 then (Num.gt (random (S i)) 0.7, S (S i))
      else (false, S i) in
    if negb shouldTrade then (<[c := Wait c]> decisions, i)
    else
      let sig := if Num.gt (random i) 0.5 then long else short in
      let lev := nth (Z.to_nat (Qfloor (random (S i) * 6))) LEVERAGE_OPTIONS 0 in
      let baseRisk := 5 + confidence * 10 in
      let riskUsd := (balance agent * baseRisk) / 100 in
      let sizeUsd := riskUsd * lev in
      let vol := Num.or_default
                   (default 0 (v ← volatility marketData; v !! c)) 1 in
      let stopLossPercent := Num.max 0.3 (vol * 0.5) in
      let takeProfitPercent := Num.max 0.5 (vol * 1.5) in
      let stopLoss := match sig with
                      | long => currentPrice * (1 - stopLossPercent / 100)
                      | short => currentPrice * (1 + stopLossPercent / 100)
                      end in
      let profitTarget := match sig with
                          | long => currentPrice * (1 + takeProfitPercent / 100)
                          | short => currentPrice * (1 - takeProfitPercent / 100)
                          end in
      let duration := if Num.ge lev 15 then "15min"
                      else if Num.ge lev 12 then "30min"
                      else if Num.ge lev 10 then "60min" else "2h_to_8h" in
      (<[c := Open c sig sizeUsd currentPrice profitTarget stopLoss lev confidence
                   riskUsd sizeUsd duration]> decisions, S (S i))
  end.

(** [totalExposure] and [exposurePercent] *)
Definition totalExposure (activePositions : list ActivePosition) : Q :=
  fold_left (fun sum pos => sum + Num.or_zero (size_usd pos)) activePositions 0.

Definition exposurePercent (agent : Agent) : Q :=
  (totalExposure (activePositions agent) / balance agent) * 100.

(** [generateAgentDecision].  [ai] is [Some d] when [OPENAI_API_KEY] is set,
    [d] being what [generateAITradingDecision] returns; otherwise the
    decisions are simulated.  [Object.keys(marketData.prices)] lists the
    coins in the order they were inserted; here they come in the
    enumeration order of the map, which decides only which draws go to
    which coin. *)
Definition generateAgentDecision (ai : option (gmap string trade_signal_args))
    (agent : Agent) (marketData : MarketData) (random : nat → Q)
    : gmap string trade_signal_args :=
  match ai with
  | Some decisions => decisions
  | None =>
      let decisions := check_exits (activePositions agent) (prices marketData) in
      if Num.ge (exposurePercent agent) 70 then decisions
      else
        let availableMarkets := (map_to_list (prices marketData)).*1 in
        (fold_left (entry_step agent marketData random) availableMarkets (decisions, 0%nat)).1
  end.

Record TradeResult := {
  success : bool;
  newPosition : option ActivePosition;
}.

(** [executeTrade] (paper trading); [now] is the reading of the clock. *)
Definition executeTrade (agent : Agent) (decision : trade_signal_args)
    (marketPrice : Q) (now : Z) : TradeResult :=
  match decision with
  | Wait _ | Hold _ => {| success := false; newPosition := None |}
  | Close _ _ _ => {| success := true; newPosition := None |}
  | Open c sig _ _ profitTarget stopLoss lev _ _ sizeUsd duration =>
      {| success := true;
         newPosition := Some {| coin := c; entry_price := marketPrice;
                                current_price := marketPrice;
                                profit_target := profitTarget; stop_loss := stopLoss;
                                leverage := lev; size_usd := sizeUsd; signal := sig;
                                opened_at := now; expected_duration := duration |} |}
  end.

End TradingEngine.

(** ** Decision adapters: [lib/gemini-service.ts], [lib/openai-service.ts] *)

Module Decision.

Local Open Scope Q_scope.

(** A value produced by [JSON.parse]; numbers are arbitrary rationals. *)
#[warnings="-register-all"]
Inductive json :=
| JNull
| JBool (b : bool)
| JNum (q : Q)
| JStr (s : string)
| JArr (elems : list json)
| JObj (fields : list (string * json)).

(** What the call to the collaborator and the parsing of its text give. *)
Inductive reply :=
| Rejects            (* the request rejects or throws: errors and timeouts *)
| EmptyText          (* the reply has no text *)
| Unparsable         (* [JSON.parse] throws on the text *)
| Parsed (decision : json).

Fixpoint assoc (k : string) (fields : list (string * json)) : option json :=
  match fields with
  | [] => None
  | (k', v) :: rest => if String.eqb k' k then Some v else assoc k rest
  end.

(** [v.k] for a [v] other than [null]; [None] stands for [undefined].  Only
    objects have the properties read here. *)
Definition get (v : json) (k : string) : option json :=
  match v with
  | JObj fields => assoc k fields
  | _ => None
  end.

Definition truthy (v : option json) : bool :=
  match v with
  | None | Some JNull => false
  | Some (JBool b) => b
  | Some (JNum q) => negb (Qeq_bool q 0)
  | Some (JStr s) => negb (String.eqb s EmptyString)
  | Some (JArr _) | Some (JObj _) => true
  end.

(** [v || d] *)
Definition or_else (v : option json) (d : json) : json :=
  if truthy v then default d v else d.

(** [v !== undefined ? v : d] *)
Definition defined_or (v : option json) (d : json) : json := default d v.

(** The decision object of the Gemini adapter. *)
Record GeminiDecision := {
  action : json;
  orderType : json;
  symbol : json;
  side : json;
  size : json;
  sizePct : json;
  price : json;
  leverage : json;
  takeProfit : json;
  stopLoss : json;
  clientOrderId : json;
  reduceOnly : json;
  postOnly : json;
  timeInForce : json;
  simulate : json;
  confidence : json;
  reason : json;
  timestamp : json;
}.

(** The object returned by the [catch] block. *)
Definition gemini_fallback (now : string) : GeminiDecision :=
  {| action := JStr "none"; orderType := JStr "market"; symbol := JNull; side := JNull;
     size := JNull; sizePct := JNull; price := JNull; leverage := JNull;
     takeProfit := JNull; stopLoss := JNull; clientOrderId := JNull;
     reduceOnly := JBool false; postOnly := JBool false; timeInForce := JNull;
     simulate := JBool true; confidence := JNum 0; reason := JStr "AI error occurred";
     timestamp := JStr now |}.

(** The object built in the [try] block from the parsed reply; [None] when
    reading a property throws, which it does on [null]. *)
Definition gemini_normalise (decision : json) (now : string) : option GeminiDecision :=
  match decision with
  | JNull => None
  | _ =>
      let prop k := get decision k in
      Some {| action := or_else (prop "action") (JStr "none");
              orderType := or_else (prop "orderType") (JStr "market");
              symbol := or_else (prop "symbol") JNull;
              side := or_else (prop "side") JNull;
              size := or_else (prop "size") JNull;
              sizePct := or_else (prop "sizePct") JNull;
              price := or_else (prop "price") JNull;
              leverage := or_else (prop "leverage") JNull;
              takeProfit := or_else (prop "takeProfit") JNull;
              stopLoss := or_else (prop "stopLoss") JNull;
              clientOrderId := or_else (prop "clientOrderId") JNull;
              reduceOnly := defined_or (prop "reduceOnly") (JBool false);
              postOnly := defined_or (prop "postOnly") (JBool false);
              timeInForce := or_else (prop "timeInForce") JNull;
              simulate := defined_or (prop "simulate") (JBool true);
              confidence := or_else (prop "confidence") (JNum 0.5);
              reason := or_else (prop "reason") (JStr "AI decision error");
              timestamp := or_else (prop "timestamp") (JStr now) |}
  end.

(** [generateGeminiTradingDecision], from the reply on; [now] is the ISO
    text of the clock.  The prompt text sent to the collaborator is not
    modelled. *)
Definition generateGeminiTradingDecision (r : reply) (now : string) : GeminiDecision :=
  match r with
  | Rejects | EmptyText | Unparsable => gemini_fallback now
  | Parsed decision =>
      match gemini_normalise decision now with
      | Some d => d
      | None => gemini_fallback now
      end
  end.




End Decision.

(** ** The cron: [startTradingCron] *)

Module TradingCron.

(** What can happen once the interval is installed. *)
Inductive event :=
| IntervalFires                 (* 30 seconds have passed *)
| CycleSettles (id : nat).      (* the request of cycle [id] resolves or rejects *)

Record state := {
  installed : bool;       (* whether [setInterval] was called *)
  started : nat;          (* cycles started so far; the next cycle gets this id *)
  running : list nat;     (* cycles whose callback has not finished *)
}.

(** [startTradingCron()]; [server_side] is [typeof window === 'undefined']. *)
Definition startTradingCron (server_side : bool) : state :=
  {| installed := server_side; started := 0; running := [] |}.

(** The interval callback starts its request whenever the timer fires: the
    source keeps no flag about the previous callback. *)
Definition step (s : state) (e : event) : state :=
  match e with
  | IntervalFires =>
      if installed s
      then {| installed := true; started := S (started s);
              running := running s ++ [started s] |}
      else s
  | CycleSettles id =>
      {| installed := installed s; started := started s;
         running := List.filter (fun j => negb (Nat.eqb j id)) (running s) |}
  end.

Definition run (s : state) (trace : list event) : state := fold_left step trace s.

Definition ticks (trace : list event) : nat :=
  length (List.filter (fun e => match e with IntervalFires => true | _ => false end) trace).

End TradingCron.

(** ** The snapshot route: [POST /api/balance-snapshots] *)

Module BalanceSnapshots.
Import Doc.

Local Open Scope Z_scope.

Record BalanceSnapshot := {
  timestamp : Z;
  agentId : string;
  agentName : string;
  balance : Q;
  pnl : Q;
  pnlAbsolute : Q;
}.

Inductive response :=
| NoAgentsFound
| Saved (snapshots : nat) (at_time : Z).

Definition DAY_MS : Z := 24 * 60 * 60 * 1000.

(** The document passed to [BalanceSnapshot.create] for one agent. *)
Definition snapshot_of (now : Z) (agent : Agent) : BalanceSnapshot :=
  {| timestamp := now;
     agentId := Doc._id agent;
     agentName := Doc.name agent;
     balance := Num.or_default (Doc.balance agent) 1000;
     pnl := Num.or_zero (Doc.agent_pnl agent);
     pnlAbsolute := Num.or_zero (Doc.agent_pnlAbsolute agent) |}.

(** [deleteMany({ timestamp: { $lt: cutoffTime } })] *)
Definition deleteMany_older (cutoffTime : Z) (store : list BalanceSnapshot)
    : list BalanceSnapshot :=
  List.filter (fun s => negb (timestamp s <? cutoffTime)) store.

(** [POST]: the reply and the snapshot collection afterwards.  [agents] is
    [Agent.find({})], [now] the reading of [Date.now()]; the collections are
    lists and storage failures are outside the model. *)
Definition POST (agents : list Agent) (store : list BalanceSnapshot) (now : Z)
    : response * list BalanceSnapshot :=
  match agents with
  | [] => (NoAgentsFound, store)
  | _ =>
      let snapshots := List.map (snapshot_of now) agents in
      let cutoffTime := now - DAY_MS in
      (Saved (length snapshots) now, deleteMany_older cutoffTime (store ++ snapshots))
  end.

End BalanceSnapshots.

(** ** The specification's own wording of three operations

    These definitions follow the text of the specification, not the source;
    the theorems compare the source with them. *)

Module Spec.
Import Doc.

Local Open Scope Q_scope.

(** Section 4.2, [evaluateExit]: one of none, stop_loss, take_profit,
    oriented by direction (long: stop below, target above; short: inverted). *)
Inductive ExitSignal := ExitNone | ExitStopLoss | ExitTakeProfit.

Definition evaluateExit (position : ActivePosition) (currentPrice : Q) : ExitSignal :=
  match signal position with
  | long =>
      if Num.le currentPrice (stop_loss position) then ExitStopLoss
      else if Num.ge currentPrice (profit_target position) then ExitTakeProfit
      else ExitNone
  | short =>
      if Num.ge currentPrice (stop_loss position) then ExitStopLoss
      else if Num.le currentPrice (profit_target position) then ExitTakeProfit
      else ExitNone
  end.

(** The exit signal a decision of the engine stands for. *)
Definition exit_signal_of (d : TradingEngine.trade_signal_args) : ExitSignal :=
  match d with
  | TradingEngine.Close _ _ TradingEngine.stop_loss_hit => ExitStopLoss
  | TradingEngine.Close _ _ TradingEngine.take_profit_hit => ExitTakeProfit
  | _ => ExitNone
  end.

(** Section 4.2, [closePosition]: the PnL percentage by direction, and the
    absolute PnL as percentage / 100 * notional. *)
Definition pnl_percentage (direction : Signal) (entry exit_price : Q) : Q :=
  match direction with
  | long => (exit_price - entry) / entry * 100
  | short => (entry - exit_price) / entry * 100
  end.

Definition pnl_absolute (percentage notional : Q) : Q := percentage / 100 * notional.

(** Section 4.2, [unrealizedPnL]: the same formula at the current price,
    0 if no price is available for the symbol. *)
Definition unrealizedPnL (position : ActivePosition) (currentPrice : option Q) : Q :=
  match currentPrice with
  | Some x =>
      pnl_absolute (pnl_percentage (signal position) (entry_price position) x)
                   (size_usd position)
  | None => 0
  end.

Definition sum (xs : list Q) : Q := fold_right Qplus 0 xs.



(** Section 4.5, step 7: what the exchange checks.  The parameters of a
    request are its text fields other than the four authentication fields;
    the signature must be the one computed over exactly them. *)
Definition request_params (fields : gmap string Aster.field) : gmap string string :=
  omap (fun f => match f with Aster.Text s => Some s | Aster.Signature _ => None end)
       (delete "signature" (delete "signer" (delete "user" (delete "nonce" fields)))).

Definition signature_over (walletConfig : Aster.AgentWalletConfig) (nonce : Z)
    (params : gmap string string) : Aster.hexdata :=
  Aster.signMessage (Aster.privateKey walletConfig)
    (Aster.keccak256
       (Aster.abi_encode (Aster.signed_json params)
          (Aster.user walletConfig) (Aster.signer walletConfig) nonce)).

Definition authenticated (walletConfig : Aster.AgentWalletConfig)
    (req : Aster.http_request) : Prop :=
  let fields := Aster.req_fields req in
  ∃ nonce : Z,
    fields !! "nonce" = Some (Aster.Text (pretty nonce))
    ∧ fields !! "user" = Some (Aster.Text (Aster.user walletConfig))
    ∧ fields !! "signer" = Some (Aster.Text (Aster.signer walletConfig))
    ∧ fields !! "signature"
      = Some (Aster.Signature (signature_over walletConfig nonce (request_params fields))).

(** The text a string value contributes to the signed JSON: escaped as a
    JSON string, whitespace removed, single quotes turned into double
    quotes. *)
Definition canonical_text (s : string) : string :=
  Js.replace_single_quotes (Js.remove_whitespace (Js.json_escape s)).

(** The canonical text of the value a parameter has, if it has one: none
    for a parameter that is absent, null or undefined, which is dropped. *)
Definition canonical_value (v : option Js.value) : option string :=
  canonical_text <$> (v ≫= Aster.trim_value).

(** Characters that pass through all three steps unchanged: printable, and
    none of whitespace, the two quotes and the backslash. *)
Definition plain_char (c : ascii) : bool :=
  negb (Js.is_js_space c) && negb (Ascii.eqb c Js.squote) && negb (Ascii.eqb c Js.dquote)
  && negb (Ascii.eqb c Js.backslash) && (32 <=? N_of_ascii c)%N.

Fixpoint plain (s : string) : bool :=
  match s with
  | EmptyString => true
  | String c rest => plain_char c && plain rest
  end.

End Spec.

(** ** The names a request can carry *)

(** The names [placeAsterOrder] adds to the order fields. *)
Definition added_keys : list string :=
  ["nonce"; "user"; "signer"; "signature"; "recvWindow"; "timestamp"].

(** ** Price feed: [fetchAllPrices], [getCurrentPrice], [simulateTradeExecution] *)

Module AsterPriceFeed.
Import Doc.

Local Open Scope Q_scope.

(** An element of the array the ticker endpoint answers with: [null], or an
    object whose [symbol] and [price], where present, are strings. *)
Inductive ticker :=
| NullTicker
| Ticker (symbol price : option string).

(** A property holding a string, as a condition: absent and empty are falsy. *)
Definition truthy (s : option string) : bool :=
  match s with
  | Some (String _ _) => true
  | _ => false
  end.

(** The class [[A-Z]]. *)
Definition is_upper (c : ascii) : bool := Ascii.leb "A" c && Ascii.leb c "Z".

(** [symbol.match(/^([A-Z]+)USDT$/)], giving the group: the letters are
    taken greedily, giving back only what the rest of the pattern needs. *)
Fixpoint match_coin (symbol : string) : option string :=
  match symbol with
  | EmptyString => None
  | String c rest =>
      if is_upper c then
        match match_coin rest with
        | Some coin => Some (String c coin)
        | None => if String.eqb rest "USDT" then Some (String c EmptyString) else None
        end
      else None
  end.

Inductive feed_reply :=
| FeedRejects                       (* [fetch] or [response.json()] rejects *)
| FeedNotArray                      (* JSON that is not an array *)
| FeedArray (data : list ticker).

(** The module variable [priceCache]. *)
Record PriceCache := {
  data : gmap string Q;
  cache_timestamp : Z;
}.

Definition initial_cache : PriceCache := {| data := ∅; cache_timestamp := 0 |}.

Definition CACHE_DURATION : Z := 5000.

Inductive feed_log :=
| LogFetchError          (* Error fetching Aster prices *)
| LogUsingCached         (* Using cached prices due to API error *)
| LogPriceError (pair : string).

(** What a call leaves behind: the value returned ([None] when it throws),
    the cache, whether the endpoint was asked, and the console. *)
Record feed_result (A : Type) := {
  returned : option A;
  cache : PriceCache;
  requested : bool;
  logged : list feed_log;
}.
Arguments returned {A}.
Arguments cache {A}.
Arguments requested {A}.
Arguments logged {A}.



Section Feed.

Variable parseFloat : string → Q.

(** The body of the [forEach]. *)
Definition record_ticker (priceMap : gmap string Q) (t : ticker) : gmap string Q :=
  match t with
  | NullTicker => priceMap
  | Ticker symbol price =>
      if truthy symbol && truthy price then
        match match_coin (default EmptyString symbol) with
        | Some coin =>
            if (String.length coin <=? 5)%nat
            then <[coin := parseFloat (default EmptyString price)]> priceMap
            else priceMap
        | None => priceMap
        end
      else priceMap
  end.

Definition price_map (tickers : list ticker) : gmap string Q :=
  fold_left record_ticker tickers ∅.

(** [fetchAllPrices]; [now] is the reading of the clock, [reply] what the
    endpoint would answer. *)
Definition fetchAllPrices (priceCache : PriceCache) (now : Z) (reply : feed_reply)
    : feed_result (gmap string Q) :=
  if ((0 <? cache_timestamp priceCache)
      && (now - cache_timestamp priceCache <? CACHE_DURATION))%Z
  then {| returned := Some (data priceCache); cache := priceCache;
          requested := false; logged := [] |}
  else match reply with
       | FeedArray tickers =>
           let priceMap := price_map tickers in
           {| returned := Some priceMap;
              cache := {| data := priceMap; cache_timestamp := now |};
              requested := true; logged := [] |}
       | FeedRejects | FeedNotArray =>
           if (0 <? length (map_to_list (data priceCache)))%nat
           then {| returned := Some (data priceCache); cache := priceCache;
                   requested := true; logged := [LogFetchError; LogUsingCached] |}
           else {| returned := None; cache := priceCache;
                   requested := true; logged := [LogFetchError] |}
       end.



End Feed.

End AsterPriceFeed.

(** ** Market data of the engine: [getMarketData] *)

Module EngineFeed.

Local Open Scope Q_scope.

(** [getMarketData]: the prices of the feed with their volatility
    estimates; [now] is the clock as [fetchAllPrices] reads it, [later]
    the reading that stamps the result. *)
Definition getMarketData (parseFloat : string → Q)
    (priceCache : AsterPriceFeed.PriceCache) (now : Z)
    (reply : AsterPriceFeed.feed_reply) (later : Z)
    : TradingEngine.MarketData * AsterPriceFeed.PriceCache :=
  let r := AsterPriceFeed.fetchAllPrices parseFloat priceCache now reply in
  match AsterPriceFeed.returned r with
  | Some prices =>
      ({| TradingEngine.md_timestamp := later;
          TradingEngine.prices := prices;
          TradingEngine.volatility := Some ((fun price => price * 0.02) <$> prices) |},
       AsterPriceFeed.cache r)
  | None =>
      ({| TradingEngine.md_timestamp := later;
          TradingEngine.prices := ∅;
          TradingEngine.volatility := Some ∅ |},
       AsterPriceFeed.cache r)
  end.

End EngineFeed.

(** ** [app/api/agents/route.ts]: prices and positions as they are shown *)

Module AgentsView.
Import Doc.

Local Open Scope Q_scope.

(** [getMarketPrices]: an empty map for anything but an array.  The
    console line of the catch block is left out. *)
Definition getMarketPrices (parseFloat : string → Q)
    (reply : AsterPriceFeed.feed_reply) : gmap string Q :=
  match reply with
  | AsterPriceFeed.FeedArray tickers => AsterPriceFeed.price_map parseFloat tickers
  | AsterPriceFeed.FeedRejects | AsterPriceFeed.FeedNotArray => ∅
  end.

(** The properties [enrichPosition] sets on a copy of the position. *)
Record Enriched := {
  position : ActivePosition;
  shown_price : Q;         (* the property [current_price] *)
  price_change : Q;
  shown_pnl : Q;           (* the property [pnl] *)
  shown_pnlAbsolute : Q;   (* the property [pnlAbsolute] *)
}.

Definition enrichPosition (p : ActivePosition) (marketPrices : gmap string Q) : Enriched :=
  let missing := {| position := p; shown_price := entry_price p; price_change := 0;
                    shown_pnl := 0; shown_pnlAbsolute := 0 |} in
  match marketPrices !! coin p with
  | None => missing
  | Some currentPrice =>
      if Num.falsy currentPrice then missing
      else
        let priceChange := ((currentPrice - entry_price p) / entry_price p) * 100 in
        let pnlPercent := match signal p with
                          | long => priceChange
                          | short => - priceChange
                          end in
        let pnlAbsolute := (pnlPercent / 100) * Num.or_zero (size_usd p) in
        {| position := p; shown_price := currentPrice; price_change := priceChange;
           shown_pnl := pnlPercent; shown_pnlAbsolute := pnlAbsolute |}
  end.

End AgentsView.

(** ** Coin names *)

(** A text of capital letters only. *)
Fixpoint all_upper (s : string) : bool :=
  match s with
  | EmptyString => true
  | String c rest => AsterPriceFeed.is_upper c && all_upper rest
  end.

(** A name the price map can hold: one to five capital letters. *)
Definition coin_name (s : string) : Prop :=
  all_upper s = true ∧ (1 <= String.length s <= 5)%nat.

(** ** The fields of the Gemini decision *)



(** ** The PnL of one open position *)

(** What one turn of the loops of [calculateUnrealizedPnL] adds for a
    position: nothing when the coin has no price or a price of zero. *)
Definition position_pnl (currentPrices : gmap string Q) (position : Doc.ActivePosition) : Q :=
  match currentPrices !! Doc.coin position with
  | Some currentPrice =>
      if Num.falsy currentPrice then 0
      else (AsterPrices.calculatePnL (Doc.signal position) (Doc.entry_price position)
              currentPrice / 100)
           * Doc.size_usd position
  | None => 0
  end.

(** ** Decisions of the simulated engine *)

(** The agent holds a position on the coin. *)
Definition holds_coin (agent : Doc.Agent) (c : string) : Prop :=
  ∃ position, position ∈ Doc.activePositions agent ∧ Doc.coin position = c.

(** What a decision filed under [c] looks like: closes and holds are for
    coins held, waits and opens for priced coins not held; an open enters
    at the price of the coin, sized by risk and leverage, with its stop at
    least 0.3 percent and its target at least 0.5 percent away from the
    entry, on the sides its direction asks for. *)
Definition decision_shape (agent : Doc.Agent) (marketData : TradingEngine.MarketData)
    (c : string) (d : TradingEngine.trade_signal_args) : Prop :=
  match d with
  | TradingEngine.Close c' x _ =>
      c' = c ∧ holds_coin agent c ∧ TradingEngine.prices marketData !! c = Some x
  | TradingEngine.Hold c' => c' = c ∧ holds_coin agent c
  | TradingEngine.Wait c' =>
      c' = c ∧ ¬ holds_coin agent c ∧ is_Some (TradingEngine.prices marketData !! c)
  | TradingEngine.Open c' sig quantity entry target stop lev conf risk size _ =>
      c' = c ∧ ¬ holds_coin agent c
      ∧ TradingEngine.prices marketData !! c = Some entry ∧ ¬ (entry == 0)%Q
      ∧ quantity = size ∧ size = (risk * lev)%Q
      ∧ In lev TradingEngine.LEVERAGE_OPTIONS
      ∧ (0.6 < conf)%Q ∧ (conf <= 1)%Q
      ∧ risk = (Doc.balance agent * (5 + conf * 10) / 100)%Q
      ∧ ∃ stopLossPercent takeProfitPercent,
          (0.3 <= stopLossPercent)%Q ∧ (0.5 <= takeProfitPercent)%Q
          ∧ stop = match sig with
                   | Doc.long => (entry * (1 - stopLossPercent / 100))%Q
                   | Doc.short => (entry * (1 + stopLossPercent / 100))%Q
                   end
          ∧ target = match sig with
                     | Doc.long => (entry * (1 + takeProfitPercent / 100))%Q
                     | Doc.short => (entry * (1 - takeProfitPercent / 100))%Q
                     end
  end.

(** ** The snapshot route: [GET /api/balance-snapshots] *)

Module SnapshotHistory.
Import BalanceSnapshots.

Local Open Scope Z_scope.

(** The order of [.sort({ timestamp: 1 })]. *)
Definition earlier (a b : BalanceSnapshot) : Prop := timestamp a <= timestamp b.

#[global] Instance earlier_dec : RelDecision earlier.
Proof. intros a b. unfold earlier. apply _. Defined.

(** A search parameter as a condition, and [p || d] on it: absent and
    empty are falsy. *)
Definition given (p : option string) : bool :=
  match p with
  | Some (String _ _) => true
  | _ => false
  end.

Definition or_text (p : option string) (d : string) : string :=
  if given p then default d p else d.

Section Query.

(** [parseInt], [None] standing for NaN. *)
Variable parseInt : string → option Z.

(** The [query] object, as the test a snapshot has to pass. *)
Definition query (hoursParam allParam agentId : option string) (now : Z)
    (s : BalanceSnapshot) : bool :=
  let isAllTime := bool_decide (hoursParam = Some "all") || bool_decide (allParam = Some "true") in
  let hours := if isAllTime then None else parseInt (or_text hoursParam "1") in
  match hours with
  | Some hours =>
      let cutoffTime := now - hours * 60 * 60 * 1000 in
      negb (timestamp s <? cutoffTime)
  | None => true
  end
  && (if given agentId then bool_decide (Some (BalanceSnapshots.agentId s) = agentId) else true).

(** [GET]: the snapshots of the reply.  [now] is the reading of the clock,
    taken only when there is a cutoff; snapshots of equal timestamp come in
    the order the sort leaves them.  The console line is left out, and
    storage failures (the reply with status 500) are outside the model. *)
Definition GET (hoursParam allParam agentId : option string)
    (store : list BalanceSnapshot) (now : Z) : list BalanceSnapshot :=
  merge_sort earlier (List.filter (query hoursParam allParam agentId now) store).

End Query.

End SnapshotHistory.

(** ** Notions used in the statements and proofs below *)

(** A computation that never writes an agent document. *)
Definition keeps_saved {A} (m : Aster.M A) : Prop :=
  ∀ w, Aster.saved (m w).2 = Aster.saved w.


(** The text before and after one member of the comma-separated list. *)
Definition before_member (xs : list string) : string :=
  fold_right (fun x acc => x +:+ "," +:+ acc) EmptyString xs.

Definition after_member (xs : list string) : string :=
  match xs with
  | [] => EmptyString
  | _ => "," +:+ Js.join_comma xs
  end.

(** The member the signed JSON has for [key], if the object has the key. *)
Definition member_text (obj : gmap string string) (key : string) : option string :=
  (fun s => Js.quote key +:+ ":" +:+ Js.quote s) <$> obj !! key.

(** The length a text has once whitespace is removed. *)
Definition weight (s : string) : nat :=
  String.length (Js.replace_single_quotes (Js.remove_whitespace s)).

(** The names [order_object] can define. *)
Definition order_keys : list string :=
  ["symbol"; "side"; "type"; "positionSide"; "quantity"; "price"; "stopPrice";
   "timeInForce"; "reduceOnly"; "leverage"; "newClientOrderId"; "newOrderRespType"].

(** An object whose properties are order fields holding strings or
    [undefined], but for the numeric leverage. *)
Definition order_like (leverage_too : bool) (m : gmap string Js.value) : Prop :=
  ∀ k v, m !! k = Some v →
    k ∈ order_keys
    ∧ ((leverage_too = false ∧ k = "leverage") ∨ v = Js.Undefined ∨ ∃ s, v = Js.Str s).

(** ** Concrete inputs used by the examples below *)

Module Examples.

Local Open Scope Q_scope.

Definition demo_long : Doc.ActivePosition :=
  {| Doc.coin := "BTC"; Doc.entry_price := 100; Doc.current_price := 100;
     Doc.profit_target := 101; Doc.stop_loss := 99; Doc.leverage := 5;
     Doc.size_usd := 500; Doc.signal := Doc.long; Doc.opened_at := 0%Z;
     Doc.expected_duration := "2h_to_8h" |}.

(** A short entered at 100 with its stop above and its target below. *)
Definition demo_short : Doc.ActivePosition :=
  {| Doc.coin := "ETH"; Doc.entry_price := 100; Doc.current_price := 100;
     Doc.profit_target := 99; Doc.stop_loss := 101; Doc.leverage := 5;
     Doc.size_usd := 500; Doc.signal := Doc.short; Doc.opened_at := 0%Z;
     Doc.expected_duration := "2h_to_8h" |}.

Definition demo_agent (positions : list Doc.ActivePosition) : Doc.Agent :=
  {| Doc._id := "a1"; Doc.name := "GEMINI"; Doc.strategy := "momentum";
     Doc.prompt := EmptyString; Doc.balance := 1000; Doc.agent_pnl := 0;
     Doc.agent_pnlAbsolute := 0; Doc.winRate := 50; Doc.totalTrades := 0%Z;
     Doc.activePositions := positions |}.

Definition old_snapshot : BalanceSnapshots.BalanceSnapshot :=
  {| BalanceSnapshots.timestamp := 0%Z; BalanceSnapshots.agentId := "a1";
     BalanceSnapshots.agentName := "GEMINI"; BalanceSnapshots.balance := 1000;
     BalanceSnapshots.pnl := 0; BalanceSnapshots.pnlAbsolute := 0 |}.

(** Two days, in milliseconds. *)
Definition two_days : Z := 172800000%Z.


Definition demo_wallet : Aster.AgentWalletConfig :=
  {| Aster.user := "0x1111111111111111111111111111111111111111";
     Aster.signer := "0x2222222222222222222222222222222222222222";
     Aster.privateKey := "0x3333" |}.

(** A world whose clock reads 1000, 1001, 1002, ... milliseconds and whose
    exchange answers every request as [answer] says. *)
Definition demo_world (answer : Aster.fetch_result) : Aster.world :=
  {| Aster.now_at := fun n => (1000 + Z.of_nat n)%Z; Aster.reads := 0;
     Aster.exchange := fun _ => answer; Aster.sent := []; Aster.console := [];
     Aster.save_rejects := false; Aster.saved := [] |}.

(** A world whose clock stands still at [t]. *)
Definition world_at (t : Z) (answer : Aster.fetch_result) : Aster.world :=
  {| Aster.now_at := fun _ => t; Aster.reads := 0;
     Aster.exchange := fun _ => answer; Aster.sent := []; Aster.console := [];
     Aster.save_rejects := false; Aster.saved := [] |}.

Definition demo_order : Aster.AsterOrderParams :=
  {| Aster.symbol := "BTCUSDT"; Aster.side := Aster.BUY; Aster.type := Aster.MARKET;
     Aster.positionSide := Some Aster.BOTH; Aster.quantity := Some "0.001";
     Aster.price := None; Aster.stopPrice := None; Aster.timeInForce := None;
     Aster.reduceOnly := None; Aster.leverage := Some 10%Z;
     Aster.newClientOrderId := None; Aster.newOrderRespType := None |}.

Definition demo_params : gmap string Js.value :=
  {[ "symbol" := Js.Str "BTCUSDT"; "side" := Js.Str "BUY" ]}.

Definition live_agent : Aster.agent :=
  {| Aster.name := "GEMINI"; Aster.balance := 1234; Aster.pnl := 23.4;
     Aster.pnlAbsolute := 234 |}.

Definition btc_market : TradingEngine.MarketData :=
  {| TradingEngine.md_timestamp := 0%Z; TradingEngine.prices := {[ "BTC" := 50000 ]};
     TradingEngine.volatility := None |}.

(** The draws 0.5, 0.9, 0.6, 0.5 of [Math.random()], then zeros. *)
Definition demo_random (i : nat) : Q :=
  match i with
  | 0%nat => 0.5
  | 1%nat => 0.9
  | 2%nat => 0.6
  | 3%nat => 0.5
  | _ => 0
  end.



End Examples.
Import Examples.

(** * Properties *)

(** ** Arithmetic helpers *)

Lemma or_zero_eq (x : Q) : (Num.or_zero x == x)%Q.
Proof.
  unfold Num.or_zero, Num.falsy.
  destruct (Qeq_bool x 0) eqn:E; [|reflexivity].
  apply Qeq_bool_iff in E. symmetry. exact E.
Qed.

Lemma fold_left_sum {A} (f : A → Q) (xs : list A) (a : Q) :
  (fold_left (fun acc x => acc + f x) xs a == a + Spec.sum (List.map f xs))%Q.
Proof.
  revert a. induction xs as [|x xs IH]; intros a; simpl.
  - ring.
  - rewrite IH. ring.
Qed.

Lemma sum_ext {A} (f g : A → Q) (xs : list A) :
  (∀ x, f x == g x)%Q → (Spec.sum (List.map f xs) == Spec.sum (List.map g xs))%Q.
Proof.
  intros H. induction xs as [|x xs IH]; simpl; [reflexivity|].
  rewrite IH, H. reflexivity.
Qed.

(** ** PnL formulas *)

Lemma route_pnlPercent_calculatePnL (position : Doc.ActivePosition) (x : Q) :
  (AgentsRoute.pnlPercent position x
   == AsterPrices.calculatePnL (Doc.signal position) (Doc.entry_price position) x)%Q.
Proof.
  unfold AgentsRoute.pnlPercent, AsterPrices.calculatePnL.
  destruct (Doc.signal position); unfold Qdiv; ring.
Qed.



(** ** Paper balance *)

Lemma unrealized_step_spec (currentPrices : gmap string Q) (acc : Q)
    (position : Doc.ActivePosition) :
  (BalanceCalculator.unrealized_step currentPrices acc position
   == acc + position_pnl currentPrices position)%Q.
Proof.
  unfold BalanceCalculator.unrealized_step, position_pnl, Num.falsy.
  destruct (currentPrices !! Doc.coin position) as [p|]; [|ring].
  destruct (Qeq_bool p 0); [ring|].
  unfold AsterPrices.calculatePnL.
  destruct (Doc.signal position); unfold Qdiv; ring.
Qed.

Lemma calculateUnrealizedPnL_sum (activePositions : list Doc.ActivePosition)
    (currentPrices : gmap string Q) :
  (BalanceCalculator.calculateUnrealizedPnL activePositions currentPrices
   == Spec.sum (List.map (position_pnl currentPrices) activePositions))%Q.
Proof.
  unfold BalanceCalculator.calculateUnrealizedPnL.
  assert (H : ∀ acc,
    (fold_left (BalanceCalculator.unrealized_step currentPrices) activePositions acc
     == acc + Spec.sum (List.map (position_pnl currentPrices) activePositions))%Q).
  { induction activePositions as [|p ps IH]; intros acc; simpl.
    - ring.
    - rewrite IH, unrealized_step_spec. ring. }
  rewrite H. ring.
Qed.

Lemma getRealizedPnL_sum (trades : list Doc.Trade) (id : string) :
  (BalanceCalculator.getRealizedPnL trades id
   == Spec.sum (List.map Doc.pnlAbsolute (BalanceCalculator.find_exit_trades trades id)))%Q.
Proof.
  unfold BalanceCalculator.getRealizedPnL.
  rewrite (fold_left_sum (fun t => Num.or_zero (Doc.pnlAbsolute t))).
  rewrite (sum_ext _ Doc.pnlAbsolute) by (intros t; apply or_zero_eq).
  ring.
Qed.






(** ** Exit evaluation *)

(** On a long position the loop of the engine and the oriented evaluation
    of the specification agree at every price. *)
Lemma exit_decision_long (position : Doc.ActivePosition) (currentPrice : Q) :
  Doc.signal position = Doc.long →
  Spec.exit_signal_of (TradingEngine.exit_decision position currentPrice)
  = Spec.evaluateExit position currentPrice.
Proof.
  intros Hl. unfold TradingEngine.exit_decision, Spec.evaluateExit. rewrite Hl.
  destruct (Num.le currentPrice (Doc.stop_loss position)); simpl; [reflexivity|].
  destruct (Num.ge currentPrice (Doc.profit_target position)); reflexivity.
Qed.

(** A short whose price has not risen above its stop is closed, and the
    close names the stop loss. *)
Lemma exit_decision_short_below_stop (position : Doc.ActivePosition) (currentPrice : Q) :
  (currentPrice <= Doc.stop_loss position)%Q →
  TradingEngine.exit_decision position currentPrice
  = TradingEngine.Close (Doc.coin position) currentPrice TradingEngine.stop_loss_hit.
Proof.
  intros Hle. unfold TradingEngine.exit_decision, Num.le.
  apply Qle_bool_iff in Hle. rewrite Hle. reflexivity.
Qed.

(** C3. The exit check of [generateAgentDecision] is not oriented by
    direction.  For the short entered at 100 with stop 101 and target 99,
    at the price 100 the oriented evaluation signals no exit, and the
    engine closes the position naming the stop loss; at the price 102,
    above the stop, the engine names the take profit. *)
Theorem exit_check_ignores_direction :
  Spec.evaluateExit demo_short 100 = Spec.ExitNone
  ∧ TradingEngine.exit_decision demo_short 100
    = TradingEngine.Close "ETH" 100 TradingEngine.stop_loss_hit
  ∧ TradingEngine.generateAgentDecision None (demo_agent [demo_short])
      {| TradingEngine.md_timestamp := 0; TradingEngine.prices := {[ "ETH" := 100%Q ]};
         TradingEngine.volatility := None |} (fun _ => 0%Q) !! "ETH"
    = Some (TradingEngine.Close "ETH" 100 TradingEngine.stop_loss_hit)
  ∧ Spec.evaluateExit demo_short 102 = Spec.ExitStopLoss
  ∧ TradingEngine.exit_decision demo_short 102
    = TradingEngine.Close "ETH" 102 TradingEngine.take_profit_hit.
Proof.
  split; [reflexivity|]. split; [reflexivity|].
  split; [vm_compute; reflexivity|]. split; reflexivity.
Qed.

(** ** Balance snapshots *)

Lemma deleteMany_older_app (cutoff : Z) (xs ys : list BalanceSnapshots.BalanceSnapshot) :
  BalanceSnapshots.deleteMany_older cutoff (xs ++ ys)
  = BalanceSnapshots.deleteMany_older cutoff xs ++ BalanceSnapshots.deleteMany_older cutoff ys.
Proof. unfold BalanceSnapshots.deleteMany_older. apply List.filter_app. Qed.

Lemma deleteMany_older_fresh (now : Z) (agents : list Doc.Agent) :
  BalanceSnapshots.deleteMany_older (now - BalanceSnapshots.DAY_MS)
    (List.map (BalanceSnapshots.snapshot_of now) agents)
  = List.map (BalanceSnapshots.snapshot_of now) agents.
Proof.
  induction agents as [|a agents IH]; [reflexivity|].
  simpl. rewrite IH.
  replace (now <? now - BalanceSnapshots.DAY_MS) with false; [reflexivity|].
  symmetry. apply Z.ltb_ge. unfold BalanceSnapshots.DAY_MS. lia.
Qed.

Lemma deleteMany_older_kept (cutoff : Z) (store : list BalanceSnapshots.BalanceSnapshot) :
  List.Forall (fun s => cutoff <= BalanceSnapshots.timestamp s)
    (BalanceSnapshots.deleteMany_older cutoff store).
Proof.
  apply List.Forall_forall. intros s Hs.
  apply List.filter_In in Hs as [_ Hs].
  apply negb_true_iff, Z.ltb_ge in Hs. exact Hs.
Qed.

(** C10 (counterexample). With no agent the route returns before the
    clean-up: a snapshot two days old is still stored afterwards. *)
Lemma POST_without_agents_keeps_old_snapshots :
  BalanceSnapshots.timestamp old_snapshot < two_days - BalanceSnapshots.DAY_MS
  ∧ BalanceSnapshots.POST [] [old_snapshot] two_days
    = (BalanceSnapshots.NoAgentsFound, [old_snapshot]).
Proof. split; reflexivity. Qed.

(** C10 (amended). Every invocation that finds at least one agent creates
    one snapshot per agent, all with the one capture timestamp, and then
    deletes every stored snapshot older than 24 hours, so the store is the
    pruned old store followed by the new snapshots; with no agent the
    store is left as it is. *)
Theorem POST_appends_then_prunes (agents : list Doc.Agent)
    (store : list BalanceSnapshots.BalanceSnapshot) (now : Z) :
  (agents ≠ [] →
     BalanceSnapshots.POST agents store now
     = (BalanceSnapshots.Saved (length agents) now,
        BalanceSnapshots.deleteMany_older (now - BalanceSnapshots.DAY_MS) store
        ++ List.map (BalanceSnapshots.snapshot_of now) agents)
     ∧ List.Forall (fun s => BalanceSnapshots.timestamp s = now)
         (List.map (BalanceSnapshots.snapshot_of now) agents)
     ∧ List.Forall (fun s => now - BalanceSnapshots.DAY_MS <= BalanceSnapshots.timestamp s)
         (BalanceSnapshots.POST agents store now).2)
  ∧ BalanceSnapshots.POST [] store now = (BalanceSnapshots.NoAgentsFound, store).
Proof.
  split.
  - intros Hne. destruct agents as [|a agents]; [congruence|].
    assert (Hpost : BalanceSnapshots.POST (a :: agents) store now
      = (BalanceSnapshots.Saved (length (a :: agents)) now,
         BalanceSnapshots.deleteMany_older (now - BalanceSnapshots.DAY_MS) store
         ++ List.map (BalanceSnapshots.snapshot_of now) (a :: agents))).
    { unfold BalanceSnapshots.POST.
      rewrite deleteMany_older_app, deleteMany_older_fresh, List.length_map.
      reflexivity. }
    split; [exact Hpost|]. split.
    + apply List.Forall_forall. intros s Hs.
      apply List.in_map_iff in Hs as (b & <- & _). reflexivity.
    + unfold BalanceSnapshots.POST. apply deleteMany_older_kept.
  - reflexivity.
Qed.

Lemma POST_appends_then_prunes_witness :
  BalanceSnapshots.POST [demo_agent []] [old_snapshot] two_days
  = (BalanceSnapshots.Saved 1 two_days,
     [BalanceSnapshots.snapshot_of two_days (demo_agent [])]).
Proof.
  assert (Hne : [demo_agent []] ≠ []) by discriminate.
  exact (proj1 (proj1 (POST_appends_then_prunes [demo_agent []] [old_snapshot] two_days) Hne)).
Defined.

(** ** The cron *)

Lemma run_app (s : TradingCron.state) (t1 t2 : list TradingCron.event) :
  TradingCron.run s (t1 ++ t2) = TradingCron.run (TradingCron.run s t1) t2.
Proof. unfold TradingCron.run. apply fold_left_app. Qed.

Lemma step_installed (s : TradingCron.state) (e : TradingCron.event) :
  TradingCron.installed (TradingCron.step s e) = TradingCron.installed s.
Proof.
  destruct e; simpl; [|reflexivity].
  destruct (TradingCron.installed s) eqn:E; simpl; congruence.
Qed.

Lemma run_started (s : TradingCron.state) (trace : list TradingCron.event) :
  TradingCron.installed s = true →
  TradingCron.started (TradingCron.run s trace)
  = (TradingCron.started s + TradingCron.ticks trace)%nat.
Proof.
  revert s. induction trace as [|e trace IH]; intros s Hs.
  - simpl. unfold TradingCron.ticks. simpl. lia.
  - change (TradingCron.run s (e :: trace))
      with (TradingCron.run (TradingCron.step s e) trace).
    rewrite IH by (rewrite step_installed; exact Hs).
    unfold TradingCron.ticks. destruct e; simpl; [rewrite Hs; simpl; lia | lia].
Qed.

Lemma run_ticks_only (s : TradingCron.state) (n : nat) :
  TradingCron.installed s = true →
  TradingCron.running (TradingCron.run s (repeat TradingCron.IntervalFires n))
  = TradingCron.running s ++ seq (TradingCron.started s) n.
Proof.
  revert s. induction n as [|n IH]; intros s Hs.
  - simpl. rewrite app_nil_r. reflexivity.
  - change (repeat TradingCron.IntervalFires (S n))
      with (TradingCron.IntervalFires :: repeat TradingCron.IntervalFires n).
    change (TradingCron.run s (TradingCron.IntervalFires :: repeat TradingCron.IntervalFires n))
      with (TradingCron.run (TradingCron.step s TradingCron.IntervalFires)
              (repeat TradingCron.IntervalFires n)).
    rewrite IH by (rewrite step_installed; exact Hs).
    simpl. rewrite Hs. simpl. rewrite <- app_assoc. reflexivity.
Qed.

(** C7 (counterexample). Two ticks with the first request still pending
    leave two cycles running at once. *)
Lemma two_ticks_two_cycles :
  TradingCron.running
    (TradingCron.run (TradingCron.startTradingCron true)
       [TradingCron.IntervalFires; TradingCron.IntervalFires])
  = [0%nat; 1%nat].
Proof. reflexivity. Qed.

(** C7 (amended). Once installed, the interval starts a trading cycle at
    every tick whether or not earlier cycles have finished: the number of
    cycles started equals the number of ticks, no tick is skipped, and n
    ticks during which nothing settles leave n more cycles running
    together. *)
Theorem every_tick_starts_a_cycle (s : TradingCron.state)
    (trace : list TradingCron.event) (n : nat) :
  TradingCron.installed s = true →
  TradingCron.started (TradingCron.run s trace)
  = (TradingCron.started s + TradingCron.ticks trace)%nat
  ∧ length (TradingCron.running
              (TradingCron.run s (repeat TradingCron.IntervalFires n)))
    = (length (TradingCron.running s) + n)%nat.
Proof.
  intros Hs. split.
  - apply run_started, Hs.
  - rewrite run_ticks_only by exact Hs.
    rewrite length_app, length_seq. reflexivity.
Qed.

Lemma every_tick_starts_a_cycle_witness :
  TradingCron.started
    (TradingCron.run (TradingCron.startTradingCron true)
       [TradingCron.IntervalFires; TradingCron.CycleSettles 0; TradingCron.IntervalFires])
  = 2%nat
  ∧ length (TradingCron.running
              (TradingCron.run (TradingCron.startTradingCron true)
                 (repeat TradingCron.IntervalFires 3)))
    = 3%nat.
Proof.
  exact (every_tick_starts_a_cycle (TradingCron.startTradingCron true)
           [TradingCron.IntervalFires; TradingCron.CycleSettles 0; TradingCron.IntervalFires]
           3 eq_refl).
Defined.

(** ** Decision adapters *)






(** ** Live balance sync *)

Lemma keeps_saved_ret {A} (a : A) : keeps_saved (mret a : Aster.M A).
Proof. intros w. reflexivity. Qed.

Lemma keeps_saved_throw {A} (e : Aster.error) : keeps_saved (Aster.throw e : Aster.M A).
Proof. intros w. reflexivity. Qed.

Lemma keeps_saved_bind {A B} (m : Aster.M A) (f : A → Aster.M B) :
  keeps_saved m → (∀ a, keeps_saved (f a)) → keeps_saved (m ≫= f).
Proof.
  intros Hm Hf w. unfold mbind, Aster.M_bind.
  specialize (Hm w). destruct (m w) as [[a|e] w']; simpl in *.
  - rewrite Hf. exact Hm.
  - exact Hm.
Qed.

Lemma keeps_saved_try_catch {A} (m : Aster.M A) (h : Aster.error → Aster.M A) :
  keeps_saved m → (∀ e, keeps_saved (h e)) → keeps_saved (Aster.try_catch m h).
Proof.
  intros Hm Hh w. unfold Aster.try_catch.
  specialize (Hm w). destruct (m w) as [[a|e] w']; simpl in *.
  - exact Hm.
  - rewrite Hh. exact Hm.
Qed.

Lemma keeps_saved_Date_now : keeps_saved Aster.Date_now.
Proof. intros w. reflexivity. Qed.

Lemma keeps_saved_fetch (r : Aster.http_request) : keeps_saved (Aster.fetch r).
Proof. intros w. reflexivity. Qed.

Lemma keeps_saved_console_log (e : Aster.log_entry) : keeps_saved (Aster.console_log e).
Proof. intros w. reflexivity. Qed.

Create HintDb frame.
#[local] Hint Resolve keeps_saved_ret keeps_saved_throw keeps_saved_Date_now
  keeps_saved_fetch keeps_saved_console_log : frame.

Ltac frame :=
  repeat first
    [ apply keeps_saved_bind; [|intros ?]
    | apply keeps_saved_try_catch; [|intros ?]
    | solve [auto with frame] ].

Lemma keeps_saved_generateNonce : keeps_saved Aster.generateNonce.
Proof. unfold Aster.generateNonce. frame. Qed.

Lemma keeps_saved_generateAsterSignature params walletConfig nonce :
  keeps_saved (Aster.generateAsterSignature params walletConfig nonce).
Proof. unfold Aster.generateAsterSignature. frame. Qed.

#[local] Hint Resolve keeps_saved_generateNonce keeps_saved_generateAsterSignature : frame.

Lemma keeps_saved_getAsterAccountBalance parseFloat walletConfig :
  keeps_saved (Aster.getAsterAccountBalance parseFloat walletConfig).
Proof.
  unfold Aster.getAsterAccountBalance. frame.
  destruct a2 as [|ok status payload]; frame.
  destruct (negb ok); frame.
  destruct payload; frame.
  destruct (List.find _ _); frame.
Qed.

(** The balance query returns a number only when the exchange answers
    with a successful status and a list holding a USDT entry; in every
    other case it throws. *)
Lemma getAsterAccountBalance_returns (parseFloat : string → Q)
    (walletConfig : Aster.AgentWalletConfig) (w w1 : Aster.world) (q : Q) :
  Aster.getAsterAccountBalance parseFloat walletConfig w = (Aster.Returned q, w1) →
  ∃ req status balances usdtBalance,
    Aster.exchange w req = Aster.Response true status (Aster.Balances balances)
    ∧ List.find (fun b => String.eqb (Aster.asset b) "USDT") balances = Some usdtBalance
    ∧ q = parseFloat (Aster.ab_balance usdtBalance).
Proof.
  unfold Aster.getAsterAccountBalance, Aster.generateNonce, Aster.generateAsterSignature,
    Aster.try_catch, Aster.fetch, Aster.Date_now, Aster.console_log, Aster.throw,
    mbind, mret, Aster.M_bind, Aster.M_ret.
  cbn [fst snd Aster.now_at Aster.reads Aster.exchange Aster.sent Aster.console
       Aster.save_rejects Aster.saved].
  match goal with |- context [Aster.exchange w ?r] => set (req := r) end.
  destruct (Aster.exchange w req) as [|ok status payload] eqn:Hex; [discriminate|].
  destruct ok; [|discriminate].
  destruct payload as [|balances|v]; [discriminate| |discriminate].
  destruct (List.find _ balances) as [b|] eqn:Hfind; [|discriminate].
  cbn. intros H. injection H as <- _.
  exists req, status, balances, b. split; [exact Hex|]. split; [exact Hfind|reflexivity].
Qed.

(** C9. Whenever the balance query [getAsterAccountBalance] fails, with
    whatever error, [syncBalanceFromAster] returns normally, the agent it
    leaves is the agent it was given (balance, pnl and pnlAbsolute
    unchanged), nothing is saved, and the only trace is one more line on
    the console naming the failure. *)
Theorem sync_failure_keeps_last_balance (parseFloat : string → Q) (a : Aster.agent)
    (walletConfig : Aster.AgentWalletConfig) (initialBalance : Q)
    (w w1 : Aster.world) (e : Aster.error) :
  Aster.getAsterAccountBalance parseFloat walletConfig w = (Aster.Thrown e, w1) →
  ∃ w2,
    Aster.syncBalanceFromAster parseFloat a walletConfig initialBalance w
    = (Aster.Returned a, w2)
    ∧ Aster.console w2 = Aster.console w1 ++ [Aster.LogSyncFailed (Aster.name a) e]
    ∧ Aster.saved w2 = Aster.saved w.
Proof.
  intros Hfail.
  pose proof (keeps_saved_getAsterAccountBalance parseFloat walletConfig w) as Hsaved.
  rewrite Hfail in Hsaved. simpl in Hsaved.
  unfold Aster.syncBalanceFromAster, Aster.try_catch at 1.
  unfold mbind at 1, Aster.M_bind at 1. rewrite Hfail.
  eexists. split; [reflexivity|]. split; [reflexivity|].
  simpl. exact Hsaved.
Qed.

Lemma sync_failure_keeps_last_balance_witness :
  ∃ w2,
    Aster.syncBalanceFromAster (fun _ => 0%Q) live_agent demo_wallet 1000
      (demo_world Aster.Rejected)
    = (Aster.Returned live_agent, w2)
    ∧ Aster.console w2
      = [Aster.LogBalanceError Aster.FetchRejected;
         Aster.LogSyncFailed "GEMINI" Aster.FetchRejected]
    ∧ Aster.saved w2 = [].
Proof.
  exact (sync_failure_keeps_last_balance (fun _ => 0%Q) live_agent demo_wallet 1000
           (demo_world Aster.Rejected) _ Aster.FetchRejected eq_refl).
Defined.

(** ** The exposure gate *)






(** ** Strings *)

Lemma string_app_cons (c : ascii) (a b : string) : String c a +:+ b = String c (a +:+ b).
Proof. reflexivity. Qed.

Lemma string_app_nil_l (s : string) : EmptyString +:+ s = s.
Proof. reflexivity. Qed.

Lemma string_app_nil_r (s : string) : s +:+ EmptyString = s.
Proof.
  induction s as [|c s IH]; [reflexivity|].
  rewrite string_app_cons, IH. reflexivity.
Qed.

Lemma string_app_assoc (a b c : string) : (a +:+ b) +:+ c = a +:+ (b +:+ c).
Proof.
  induction a as [|x a IH]; [reflexivity|].
  rewrite !string_app_cons, IH. reflexivity.
Qed.

Lemma string_app_length (a b : string) :
  String.length (a +:+ b) = (String.length a + String.length b)%nat.
Proof.
  induction a as [|x a IH]; [reflexivity|].
  rewrite string_app_cons. simpl. rewrite IH. reflexivity.
Qed.

Lemma string_app_inv_tail (a b c : string) : a +:+ c = b +:+ c → a = b.
Proof.
  revert b. induction a as [|x a IH]; intros [|y b] H;
    rewrite ?string_app_cons, ?string_app_nil_l in H.
  - reflexivity.
  - apply (f_equal String.length) in H. simpl in H.
    rewrite string_app_length in H. lia.
  - apply (f_equal String.length) in H. simpl in H.
    rewrite string_app_length in H. lia.
  - injection H as -> H. f_equal. apply IH, H.
Qed.

Lemma string_app_inv_head (a b c : string) : a +:+ b = a +:+ c → b = c.
Proof.
  induction a as [|x a IH]; intros H; [exact H|].
  rewrite !string_app_cons in H. injection H as H. auto.
Qed.

Lemma remove_whitespace_app (a b : string) :
  Js.remove_whitespace (a +:+ b) = Js.remove_whitespace a +:+ Js.remove_whitespace b.
Proof.
  induction a as [|x a IH]; [reflexivity|].
  rewrite string_app_cons. simpl.
  destruct (Js.is_js_space x); rewrite IH; reflexivity.
Qed.

Lemma replace_single_quotes_app (a b : string) :
  Js.replace_single_quotes (a +:+ b)
  = Js.replace_single_quotes a +:+ Js.replace_single_quotes b.
Proof.
  induction a as [|x a IH]; [reflexivity|].
  rewrite string_app_cons. simpl. rewrite IH. reflexivity.
Qed.

(** Whitespace removal followed by quote replacement, on a concatenation. *)
Lemma squash_app (a b : string) :
  Js.replace_single_quotes (Js.remove_whitespace (a +:+ b))
  = Js.replace_single_quotes (Js.remove_whitespace a)
    +:+ Js.replace_single_quotes (Js.remove_whitespace b).
Proof. rewrite remove_whitespace_app, replace_single_quotes_app. reflexivity. Qed.

Lemma plain_char_escape (c : ascii) :
  Spec.plain_char c = true →
  Js.escape_char c = String c EmptyString
  ∧ Js.is_js_space c = false ∧ Ascii.eqb c Js.squote = false.
Proof.
  destruct c as [[] [] [] [] [] [] [] []]; intros H;
    first [discriminate H | repeat split; reflexivity].
Qed.

Lemma canonical_text_plain (s : string) : Spec.plain s = true → Spec.canonical_text s = s.
Proof.
  unfold Spec.canonical_text.
  induction s as [|c s IH]; [reflexivity|].
  simpl. intros H. apply andb_true_iff in H as [Hc Hs].
  destruct (plain_char_escape c Hc) as (He & Hsp & Hq).
  rewrite He, string_app_cons, string_app_nil_l. simpl.
  rewrite Hsp. simpl. rewrite Hq, IH by exact Hs. reflexivity.
Qed.

(** ** The signed JSON text *)

Lemma join_comma_split (xs : list string) (e : string) (ys : list string) :
  Js.join_comma (xs ++ e :: ys) = before_member xs +:+ e +:+ after_member ys.
Proof.
  induction xs as [|x xs IH].
  - destruct ys; [|reflexivity].
    simpl. rewrite string_app_nil_l, string_app_nil_r. reflexivity.
  - change ((x :: xs) ++ e :: ys) with (x :: (xs ++ e :: ys)).
    assert (Hcons : Js.join_comma (x :: (xs ++ e :: ys))
                    = x +:+ "," +:+ Js.join_comma (xs ++ e :: ys))
      by (destruct xs; reflexivity).
    rewrite Hcons, IH. simpl. rewrite !string_app_assoc. reflexivity.
Qed.

Lemma omap_agree {A B} (f g : A → option B) (l : list A) :
  (∀ x, x ∈ l → f x = g x) → omap f l = omap g l.
Proof.
  induction l as [|x l IH]; intros H; [reflexivity|].
  csimpl. rewrite (H x) by left. rewrite IH; [reflexivity|].
  intros y Hy. apply H. right. exact Hy.
Qed.

Lemma sorted_keys_insert (trimmed : gmap string string) (k v v' : string) :
  trimmed !! k = Some v →
  Js.sorted_keys (<[k := v']> trimmed) = Js.sorted_keys trimmed.
Proof.
  intros Hk. unfold Js.sorted_keys.
  apply (Sorted_unique String.le).
  - apply Sorted_merge_sort. apply _.
  - apply Sorted_merge_sort. apply _.
  - rewrite !merge_sort_Permutation.
    rewrite <- (insert_delete_id trimmed k v Hk) at 2.
    rewrite <- (insert_delete_eq trimmed k v').
    rewrite !map_to_list_insert by apply lookup_delete_eq.
    reflexivity.
Qed.

Lemma sorted_keys_split (trimmed : gmap string string) (k v : string) :
  trimmed !! k = Some v →
  ∃ l1 l2, Js.sorted_keys trimmed = l1 ++ k :: l2 ∧ (k ∉ l1) ∧ (k ∉ l2).
Proof.
  intros Hk.
  assert (Hperm : Js.sorted_keys trimmed ≡ₚ (map_to_list trimmed).*1)
    by apply merge_sort_Permutation.
  assert (Hin : k ∈ Js.sorted_keys trimmed).
  { rewrite Hperm. apply list_elem_of_fmap. exists (k, v). split; [reflexivity|].
    apply elem_of_map_to_list, Hk. }
  assert (Hnd : NoDup (Js.sorted_keys trimmed))
    by (rewrite Hperm; apply NoDup_fst_map_to_list).
  apply list_elem_of_split in Hin as (l1 & l2 & Heq).
  exists l1, l2. split; [exact Heq|].
  rewrite Heq in Hnd. apply NoDup_app in Hnd as (_ & Hdis & Hnd2).
  apply NoDup_cons in Hnd2 as [Hk2 _].
  split; [|exact Hk2].
  intros Hk1. apply (Hdis k Hk1). left.
Qed.

(** The JSON text around the value of one key: nothing but that value's
    escaped text depends on the value. *)
Lemma stringify_with_keys_member (obj : gmap string string) (k : string)
    (l1 l2 : list string) :
  k ∉ l1 → k ∉ l2 →
  ∃ X Y, ∀ v,
    Js.stringify_with_keys (<[k := v]> obj) (l1 ++ k :: l2)
    = X +:+ Js.json_escape v +:+ Y.
Proof.
  intros H1 H2.
  pose (member := fun (m : gmap string string) (key : string) =>
          (fun s => Js.quote key +:+ ":" +:+ Js.quote s) <$> m !! key).
  exists ("{" +:+ before_member (omap (member obj) l1)
          +:+ Js.quote k +:+ ":" +:+ String Js.dquote EmptyString),
         (String Js.dquote EmptyString +:+ after_member (omap (member obj) l2) +:+ "}").
  intros v. unfold Js.stringify_with_keys. fold (member (<[k := v]> obj)).
  rewrite omap_app. csimpl.
  assert (Hk : member (<[k := v]> obj) k = Some (Js.quote k +:+ ":" +:+ Js.quote v))
    by (unfold member; rewrite lookup_insert_eq; reflexivity).
  rewrite Hk.
  rewrite (omap_agree (member (<[k := v]> obj)) (member obj) l1).
  2:{ intros x Hx. unfold member. rewrite lookup_insert_ne; [reflexivity|].
      intros ->. exact (H1 Hx). }
  rewrite (omap_agree (member (<[k := v]> obj)) (member obj) l2).
  2:{ intros x Hx. unfold member. rewrite lookup_insert_ne; [reflexivity|].
      intros ->. exact (H2 Hx). }
  rewrite join_comma_split. unfold Js.quote at 2.
  rewrite !string_app_assoc, !string_app_cons, !string_app_nil_l.
  rewrite !string_app_assoc, !string_app_cons, !string_app_nil_l.
  reflexivity.
Qed.

(** Replacing the value of a key that is present changes the signed text
    exactly when the canonical text of the value changes. *)
Lemma signed_json_insert (trimmed : gmap string string) (k v v' : string) :
  trimmed !! k = Some v →
  Aster.signed_json (<[k := v']> trimmed) = Aster.signed_json trimmed
  ↔ Spec.canonical_text v' = Spec.canonical_text v.
Proof.
  intros Hk.
  destruct (sorted_keys_split trimmed k v Hk) as (l1 & l2 & Hkeys & H1 & H2).
  destruct (stringify_with_keys_member trimmed k l1 l2 H1 H2) as (X & Y & Hshape).
  unfold Aster.signed_json.
  rewrite (sorted_keys_insert trimmed k v v' Hk), Hkeys.
  rewrite <- (insert_id trimmed k v Hk) at 2.
  rewrite !Hshape, !squash_app. unfold Spec.canonical_text.
  split.
  - intros H. apply string_app_inv_head in H. apply string_app_inv_tail in H. exact H.
  - intros ->. reflexivity.
Qed.

Lemma weight_app (a b : string) : weight (a +:+ b) = (weight a + weight b)%nat.
Proof. unfold weight. rewrite squash_app, string_app_length. reflexivity. Qed.

Lemma weight_join (xs : list string) :
  weight (Js.join_comma xs) = (sum_list_with (fun x => weight x + 1)%nat xs - 1)%nat.
Proof.
  induction xs as [|x xs IH]; [reflexivity|].
  destruct xs as [|y xs].
  - simpl. lia.
  - change (Js.join_comma (x :: y :: xs)) with (x +:+ "," +:+ Js.join_comma (y :: xs)).
    rewrite !weight_app, IH. change (weight ",") with 1%nat.
    simpl. lia.
Qed.

Lemma weight_member (k s : string) :
  (1 <= weight (Js.quote k +:+ ":" +:+ Js.quote s))%nat.
Proof. rewrite !weight_app. change (weight ":") with 1%nat. lia. Qed.

Lemma signed_json_length (obj : gmap string string) :
  String.length (Aster.signed_json obj)
  = (2 + (sum_list_with (fun x => weight x + 1)%nat
            (omap (member_text obj) (Js.sorted_keys obj)) - 1))%nat.
Proof.
  unfold Aster.signed_json. fold (weight (Js.stringify_with_keys obj (Js.sorted_keys obj))).
  unfold Js.stringify_with_keys. fold (member_text obj).
  rewrite !weight_app, weight_join.
  change (weight "{") with 1%nat. change (weight "}") with 1%nat. lia.
Qed.

(** A parameter that was not there before makes the signed text longer. *)
Lemma signed_json_insert_fresh (trimmed : gmap string string) (k s : string) :
  trimmed !! k = None →
  Aster.signed_json (<[k := s]> trimmed) ≠ Aster.signed_json trimmed.
Proof.
  intros Hk Heq. apply (f_equal String.length) in Heq.
  rewrite !signed_json_length in Heq.
  assert (Hperm : Js.sorted_keys (<[k := s]> trimmed) ≡ₚ k :: Js.sorted_keys trimmed).
  { unfold Js.sorted_keys. rewrite !merge_sort_Permutation.
    rewrite map_to_list_insert by exact Hk. reflexivity. }
  rewrite Hperm in Heq. csimpl in Heq.
  unfold member_text at 1 in Heq. rewrite lookup_insert_eq in Heq. simpl in Heq.
  rewrite (omap_agree (member_text (<[k := s]> trimmed)) (member_text trimmed)) in Heq.
  2:{ intros x Hx. unfold member_text. rewrite lookup_insert_ne; [reflexivity|].
      intros ->. unfold Js.sorted_keys in Hx. rewrite merge_sort_Permutation in Hx.
      apply list_elem_of_fmap in Hx as ([k' v] & -> & Hin).
      apply elem_of_map_to_list in Hin. simpl in Hk. congruence. }
  pose proof (weight_member k s). lia.
Qed.

(** Setting one key of the trimmed parameters, or dropping it, changes the
    signed text exactly when the canonical text under the key changes. *)
Lemma signed_json_update (trimmed : gmap string string) (k : string) (o' : option string) :
  Aster.signed_json (match o' with
                     | Some s' => <[k := s']> trimmed
                     | None => delete k trimmed
                     end)
  = Aster.signed_json trimmed
  ↔ Spec.canonical_text <$> o' = Spec.canonical_text <$> trimmed !! k.
Proof.
  destruct o' as [s'|], (trimmed !! k) as [s|] eqn:Hk; simpl.
  - rewrite (signed_json_insert trimmed k s s' Hk).
    split; [intros ->; reflexivity | intros H; injection H as H; exact H].
  - split; [intros H; exfalso; exact (signed_json_insert_fresh trimmed k s' Hk H)
           | discriminate].
  - split; [|discriminate].
    intros H. exfalso.
    apply (signed_json_insert_fresh (delete k trimmed) k s (lookup_delete_eq trimmed k)).
    rewrite (insert_delete_id trimmed k s Hk). symmetry. exact H.
  - rewrite (delete_id trimmed k Hk). split; reflexivity.
Qed.

(** ** Signing *)

(** What [generateAsterSignature] returns: the signature over the trimmed
    parameters, stamped with the window and with the reading of the clock
    taken inside the routine. *)
Lemma generateAsterSignature_value (params : gmap string Js.value)
    (walletConfig : Aster.AgentWalletConfig) (nonce : Z) (w : Aster.world) :
  (Aster.generateAsterSignature params walletConfig nonce w).1
  = Aster.Returned
      (Spec.signature_over walletConfig nonce
         (Aster.trimAndSortParams
            (<["timestamp" := Js.Num (Aster.now_at w (Aster.reads w))]>
               (<["recvWindow" := Js.Num Aster.recvWindow]> params)))).
Proof. reflexivity. Qed.

Lemma returned_signature_inj (walletConfig : Aster.AgentWalletConfig) (nonce : Z)
    (p p' : gmap string string) :
  Aster.Returned (Spec.signature_over walletConfig nonce p)
  = Aster.Returned (Spec.signature_over walletConfig nonce p')
  ↔ Aster.signed_json p = Aster.signed_json p'.
Proof.
  unfold Spec.signature_over.
  generalize (Aster.signed_json p), (Aster.signed_json p'). intros a b. split.
  - intros H. injection H as H. exact H.
  - intros ->. reflexivity.
Qed.

Lemma trimmed_insert (params : gmap string Js.value) (now : Z) (k : string)
    (x : Js.value) :
  k ≠ "recvWindow" → k ≠ "timestamp" →
  Aster.trimAndSortParams
    (<["timestamp" := Js.Num now]>
       (<["recvWindow" := Js.Num Aster.recvWindow]> (<[k := x]> params)))
  = match Aster.trim_value x with
    | Some s =>
        <[k := s]> (Aster.trimAndSortParams
                      (<["timestamp" := Js.Num now]>
                         (<["recvWindow" := Js.Num Aster.recvWindow]> params)))
    | None =>
        delete k (Aster.trimAndSortParams
                    (<["timestamp" := Js.Num now]>
                       (<["recvWindow" := Js.Num Aster.recvWindow]> params)))
    end.
Proof.
  intros Hrw Hts. unfold Aster.trimAndSortParams.
  rewrite (insert_insert_ne _ "recvWindow" k) by congruence.
  rewrite (insert_insert_ne _ "timestamp" k) by congruence.
  rewrite omap_insert. destruct (Aster.trim_value x); reflexivity.
Qed.

Lemma trimmed_lookup (params : gmap string Js.value) (now : Z) (k : string) :
  k ≠ "recvWindow" → k ≠ "timestamp" →
  Aster.trimAndSortParams
    (<["timestamp" := Js.Num now]>
       (<["recvWindow" := Js.Num Aster.recvWindow]> params)) !! k
  = params !! k ≫= Aster.trim_value.
Proof.
  intros Hrw Hts. unfold Aster.trimAndSortParams.
  rewrite lookup_omap, !lookup_insert_ne by congruence. reflexivity.
Qed.

(** C1 (counterexample). With the same parameters, wallet and nonce, the
    signature made when the clock reads 1000 differs from the one made
    when it reads 1001; changing the value of the parameter recvWindow
    from 1 to 2 leaves the signature as it is, and so does changing the
    symbol from BTC USDT, with a space, to BTCUSDT. *)
Lemma signature_follows_clock_not_every_parameter :
  (Aster.generateAsterSignature demo_params demo_wallet 7 (world_at 1000 Aster.Rejected)).1
  ≠ (Aster.generateAsterSignature demo_params demo_wallet 7 (world_at 1001 Aster.Rejected)).1
  ∧ (Aster.generateAsterSignature (<["recvWindow" := Js.Num 1]> demo_params) demo_wallet 7
       (world_at 1000 Aster.Rejected)).1
    = (Aster.generateAsterSignature (<["recvWindow" := Js.Num 2]> demo_params) demo_wallet 7
         (world_at 1000 Aster.Rejected)).1
  ∧ (Aster.generateAsterSignature (<["symbol" := Js.Str "BTC USDT"]> demo_params)
       demo_wallet 7 (world_at 1000 Aster.Rejected)).1
    = (Aster.generateAsterSignature (<["symbol" := Js.Str "BTCUSDT"]> demo_params)
         demo_wallet 7 (world_at 1000 Aster.Rejected)).1.
Proof.
  split; [|split].
  - vm_compute. intros H. discriminate H.
  - vm_compute. reflexivity.
  - vm_compute. reflexivity.
Qed.

(** C1 (amended). The signature is a function of the parameters, the
    wallet, the nonce and the millisecond the routine reads from the clock:
    two invocations with identical arguments that read the same timestamp
    yield the identical signature.  Setting a single parameter other than
    recvWindow and timestamp to a new value changes the signature exactly
    when the canonical text of its value changes, that text being the
    string form of the value after JSON escaping, removal of whitespace
    and replacement of single quotes by double quotes, and an absent, null
    or undefined value having none; in particular the signature changes
    whenever one string is replaced by a different one and both consist of
    printable characters other than whitespace, quotes and the backslash. *)
Theorem signature_deterministic_given_clock (params : gmap string Js.value)
    (walletConfig : Aster.AgentWalletConfig) (nonce : Z) (w : Aster.world) :
  (∀ w' : Aster.world,
     Aster.now_at w' (Aster.reads w') = Aster.now_at w (Aster.reads w) →
     (Aster.generateAsterSignature params walletConfig nonce w').1
     = (Aster.generateAsterSignature params walletConfig nonce w).1)
  ∧ (∀ (k : string) (x' : Js.value),
       k ≠ "recvWindow" → k ≠ "timestamp" →
       ((Aster.generateAsterSignature (<[k := x']> params) walletConfig nonce w).1
        = (Aster.generateAsterSignature params walletConfig nonce w).1
        ↔ Spec.canonical_value (Some x') = Spec.canonical_value (params !! k)))
  ∧ (∀ k v v' : string,
       k ≠ "recvWindow" → k ≠ "timestamp" → params !! k = Some (Js.Str v) →
       Spec.plain v = true → Spec.plain v' = true → v' ≠ v →
       (Aster.generateAsterSignature (<[k := Js.Str v']> params) walletConfig nonce w).1
       ≠ (Aster.generateAsterSignature params walletConfig nonce w).1).
Proof.
  assert (Hiff : ∀ (k : string) (x' : Js.value),
    k ≠ "recvWindow" → k ≠ "timestamp" →
    ((Aster.generateAsterSignature (<[k := x']> params) walletConfig nonce w).1
     = (Aster.generateAsterSignature params walletConfig nonce w).1
     ↔ Spec.canonical_value (Some x') = Spec.canonical_value (params !! k))).
  { intros k x' Hrw Hts.
    rewrite !generateAsterSignature_value, returned_signature_inj.
    rewrite (trimmed_insert params _ k x' Hrw Hts), signed_json_update.
    rewrite (trimmed_lookup params _ k Hrw Hts). reflexivity. }
  split; [|split].
  - intros w' Hclock. rewrite !generateAsterSignature_value, Hclock. reflexivity.
  - exact Hiff.
  - intros k v v' Hrw Hts Hk Hv Hv' Hne Heq.
    apply (Hiff k (Js.Str v') Hrw Hts) in Heq.
    rewrite Hk in Heq. unfold Spec.canonical_value in Heq. simpl in Heq.
    rewrite !canonical_text_plain in Heq by assumption. congruence.
Qed.

Lemma signature_deterministic_given_clock_witness :
  (Aster.generateAsterSignature demo_params demo_wallet 7 (demo_world Aster.Rejected)).1
  = (Aster.generateAsterSignature demo_params demo_wallet 7 (world_at 1000 Aster.Rejected)).1
  ∧ (Aster.generateAsterSignature (<["symbol" := Js.Str "ETHUSDT"]> demo_params)
       demo_wallet 7 (world_at 1000 Aster.Rejected)).1
    ≠ (Aster.generateAsterSignature demo_params demo_wallet 7
         (world_at 1000 Aster.Rejected)).1
  ∧ (Aster.generateAsterSignature (<["price" := Js.Null]> demo_params)
       demo_wallet 7 (world_at 1000 Aster.Rejected)).1
    = (Aster.generateAsterSignature demo_params demo_wallet 7
         (world_at 1000 Aster.Rejected)).1.
Proof.
  destruct (signature_deterministic_given_clock demo_params demo_wallet 7
              (world_at 1000 Aster.Rejected)) as (Hclock & Hvalue & Hplain).
  split; [|split].
  - apply Hclock. reflexivity.
  - apply (Hplain "symbol" "BTCUSDT" "ETHUSDT"); [discriminate | discriminate | | | |].
    + vm_compute. reflexivity.
    + reflexivity.
    + reflexivity.
    + discriminate.
  - apply (Hvalue "price" Js.Null); [discriminate | discriminate |].
    vm_compute. reflexivity.
Defined.

(** ** The request sent with an order *)

Lemma signature_field_inj (walletConfig : Aster.AgentWalletConfig) (n n' : Z)
    (p p' : gmap string string) :
  Some (Aster.Signature (Spec.signature_over walletConfig n p))
  = Some (Aster.Signature (Spec.signature_over walletConfig n' p')) →
  Aster.signed_json p = Aster.signed_json p' ∧ n = n'.
Proof.
  unfold Spec.signature_over.
  generalize (Aster.signed_json p), (Aster.signed_json p'). intros a b H.
  injection H as Hjson Hn. split; assumption.
Qed.

Ltac in_order_keys :=
  unfold order_keys; repeat first [apply list_elem_of_here | apply list_elem_of_further].

Lemma order_like_empty b : order_like b ∅.
Proof. intros k v H. rewrite lookup_empty in H. discriminate. Qed.

Lemma order_like_insert b (m : gmap string Js.value) (k0 : string) (x : Js.value) :
  k0 ∈ order_keys →
  (b = false ∧ k0 = "leverage") ∨ x = Js.Undefined ∨ (∃ s, x = Js.Str s) →
  order_like b m → order_like b (<[k0 := x]> m).
Proof.
  intros Hk0 Hx Hm k v H.
  destruct (decide (k0 = k)) as [<-|Hne].
  - rewrite lookup_insert_eq in H. injection H as <-. split; assumption.
  - rewrite lookup_insert_ne in H by exact Hne. apply Hm, H.
Qed.

Lemma order_like_set_opt {A} b (m : gmap string Js.value) (k0 : string)
    (f : A → Js.value) (o : option A) :
  k0 ∈ order_keys →
  (∀ a, (b = false ∧ k0 = "leverage") ∨ f a = Js.Undefined ∨ (∃ s, f a = Js.Str s)) →
  order_like b m → order_like b (Aster.set_opt k0 f o m).
Proof.
  intros Hk0 Hf Hm. destruct o as [a|]; simpl; [|exact Hm].
  apply order_like_insert; auto.
Qed.

Lemma order_like_weaken (m : gmap string Js.value) (x : Js.value) :
  x = Js.Undefined ∨ (∃ s, x = Js.Str s) →
  order_like false m → order_like true (<["leverage" := x]> m).
Proof.
  intros Hx Hm k v H.
  destruct (decide ("leverage" = k)) as [<-|Hne].
  - rewrite lookup_insert_eq in H. injection H as <-.
    split; [in_order_keys|]. right. exact Hx.
  - rewrite lookup_insert_ne in H by exact Hne.
    destruct (Hm k v H) as [Hk [[_ ->]|Hv]]; [congruence|].
    split; [exact Hk|]. right. exact Hv.
Qed.

Lemma order_object_like (o : Aster.AsterOrderParams) :
  order_like false (Aster.order_object o).
Proof.
  unfold Aster.order_object.
  repeat first
    [ apply order_like_set_opt;
      [ in_order_keys
      | intros ?; first [ left; split; reflexivity | right; right; eexists; reflexivity ]
      | ]
    | apply order_like_insert;
      [ in_order_keys
      | right; right; eexists; reflexivity
      | ]
    | apply order_like_empty ].
Qed.

Lemma paramsForSign_like (o : Aster.AsterOrderParams) :
  order_like true (Aster.paramsForSign o).
Proof.
  unfold Aster.paramsForSign. apply order_like_weaken; [|apply order_object_like].
  destruct (Aster.leverage o) as [l|]; [|left; reflexivity].
  destruct (l =? 0); [left; reflexivity | right; eexists; reflexivity].
Qed.

(** Only order fields are in [order_keys]: none of the names the request
    adds. *)
Lemma order_keys_not_added (k : string) :
  k ∈ order_keys →
  k ≠ "nonce" ∧ k ≠ "user" ∧ k ≠ "signer" ∧ k ≠ "signature"
  ∧ k ≠ "recvWindow" ∧ k ≠ "timestamp".
Proof.
  unfold order_keys. intros H.
  repeat (apply elem_of_cons in H as [->|H]; [repeat split; discriminate|]).
  apply elem_of_nil in H. contradiction.
Qed.

Lemma body_lookup (m : gmap string Aster.body_value) (k : string) :
  (Aster.body_text <$> filter (fun kv => Aster.is_undefined kv.2 = false) m) !! k
  = match m !! k with
    | Some b => if Aster.is_undefined b then None else Some (Aster.body_text b)
    | None => None
    end.
Proof.
  rewrite lookup_fmap, map_lookup_filter.
  destruct (m !! k) as [b|]; [|reflexivity].
  simpl. destruct (Aster.is_undefined b); reflexivity.
Qed.

(** The parameters of the request are the trimmed parameters the signature
    routine would compute for the body's own timestamp. *)
Lemma request_params_requestBody (o : Aster.AsterOrderParams)
    (walletConfig : Aster.AgentWalletConfig) (nonce : Z) (sig : Aster.hexdata) (now : Z) :
  Spec.request_params (Aster.requestBody o walletConfig nonce sig now)
  = Aster.trimAndSortParams
      (<["timestamp" := Js.Num now]>
         (<["recvWindow" := Js.Num Aster.recvWindow]> (Aster.paramsForSign o))).
Proof.
  apply map_eq. intros k.
  unfold Spec.request_params, Aster.trimAndSortParams, Aster.requestBody.
  rewrite !lookup_omap.
  pose proof (paramsForSign_like o k) as Hlike.
  destruct (decide (k = "signature")) as [->|Hsig].
  { rewrite lookup_delete_eq, !lookup_insert_ne by discriminate.
    destruct (Aster.paramsForSign o !! "signature") as [v|]; [|reflexivity].
    destruct (Hlike v eq_refl) as [Hin _].
    apply order_keys_not_added in Hin. exfalso. tauto. }
  rewrite lookup_delete_ne by congruence.
  destruct (decide (k = "signer")) as [->|Hsigner].
  { rewrite lookup_delete_eq, !lookup_insert_ne by discriminate.
    destruct (Aster.paramsForSign o !! "signer") as [v|]; [|reflexivity].
    destruct (Hlike v eq_refl) as [Hin _].
    apply order_keys_not_added in Hin. exfalso. tauto. }
  rewrite lookup_delete_ne by congruence.
  destruct (decide (k = "user")) as [->|Huser].
  { rewrite lookup_delete_eq, !lookup_insert_ne by discriminate.
    destruct (Aster.paramsForSign o !! "user") as [v|]; [|reflexivity].
    destruct (Hlike v eq_refl) as [Hin _].
    apply order_keys_not_added in Hin. exfalso. tauto. }
  rewrite lookup_delete_ne by congruence.
  destruct (decide (k = "nonce")) as [->|Hnonce].
  { rewrite lookup_delete_eq, !lookup_insert_ne by discriminate.
    destruct (Aster.paramsForSign o !! "nonce") as [v|]; [|reflexivity].
    destruct (Hlike v eq_refl) as [Hin _].
    apply order_keys_not_added in Hin. exfalso. tauto. }
  rewrite lookup_delete_ne by congruence.
  rewrite body_lookup.
  destruct (decide (k = "timestamp")) as [->|Hts].
  { rewrite !lookup_insert_eq. reflexivity. }
  rewrite !(lookup_insert_ne _ "timestamp") by congruence.
  destruct (decide (k = "recvWindow")) as [->|Hrw].
  { rewrite !lookup_insert_eq. reflexivity. }
  rewrite !lookup_insert_ne by congruence.
  rewrite lookup_fmap.
  destruct (Aster.paramsForSign o !! k) as [v|]; [|reflexivity].
  destruct (Hlike v eq_refl) as [_ [[Hb _]|[->|[s ->]]]];
    [discriminate Hb | reflexivity | reflexivity].
Qed.

(** What [placeAsterOrder] sends: one POST whose signature was made at the
    second reading of the clock and whose body is stamped at the third. *)
Lemma placeAsterOrder_sent (o : Aster.AsterOrderParams)
    (walletConfig : Aster.AgentWalletConfig) (w : Aster.world) :
  let nonce := Aster.now_at w (Aster.reads w) * 1000 in
  let t_sign := Aster.now_at w (S (Aster.reads w)) in
  let t_body := Aster.now_at w (S (S (Aster.reads w))) in
  Aster.sent (Aster.placeAsterOrder o walletConfig w).2
  = Aster.sent w
    ++ [{| Aster.req_method := Aster.POST; Aster.req_path := "/fapi/v3/order";
           Aster.req_fields :=
             Aster.requestBody o walletConfig nonce
               (Spec.signature_over walletConfig nonce
                  (Aster.trimAndSortParams
                     (<["timestamp" := Js.Num t_sign]>
                        (<["recvWindow" := Js.Num Aster.recvWindow]>
                           (Aster.paramsForSign o)))))
               t_body |}].
Proof.
  intros nonce t_sign t_body.
  unfold Aster.placeAsterOrder, Aster.generateNonce, Aster.generateAsterSignature,
    Aster.try_catch, Aster.fetch, Aster.Date_now, Aster.console_log, Aster.throw,
    mbind, mret, Aster.M_bind, Aster.M_ret.
  cbn [fst snd Aster.now_at Aster.reads Aster.exchange Aster.sent Aster.console
       Aster.save_rejects Aster.saved].
  destruct (Aster.exchange w _) as [|ok status payload]; [reflexivity|].
  destruct ok; [|reflexivity].
  destruct payload; reflexivity.
Qed.

Lemma plain_pretty_N_go (x : N) (s : string) :
  Spec.plain s = true → Spec.plain (pretty_N_go x s) = true.
Proof.
  revert s. induction (N.lt_wf_0 x) as [x _ IH]; intros s Hs.
  assert (Hx : (x = 0 ∨ 0 < x)%N) by lia.
  destruct Hx as [->|Hpos].
  - rewrite pretty_N_go_0. exact Hs.
  - rewrite pretty_N_go_step by exact Hpos.
    apply IH; [apply N.div_lt; [exact Hpos|reflexivity]|].
    simpl. rewrite Hs, andb_true_r.
    unfold pretty_N_char. repeat case_match; reflexivity.
Qed.

Lemma plain_pretty_Z (z : Z) : Spec.plain (pretty z) = true.
Proof.
  assert (HN : ∀ p, Spec.plain (pretty (Npos p)) = true).
  { intros p. unfold pretty, pretty_N. case_decide; [reflexivity|].
    apply plain_pretty_N_go. reflexivity. }
  destruct z as [|p|p]; [reflexivity | apply HN |].
  change (pretty (Z.neg p)) with ("-" +:+ pretty (Npos p)).
  rewrite string_app_cons, string_app_nil_l. simpl. apply HN.
Qed.

(** The trimmed parameters for two stamps differ in the timestamp only. *)
Lemma trimmed_timestamp (m : gmap string Js.value) (t : Z) :
  Aster.trimAndSortParams (<["timestamp" := Js.Num t]> m)
  = <["timestamp" := pretty t]> (Aster.trimAndSortParams m).
Proof. unfold Aster.trimAndSortParams. apply omap_insert_Some. reflexivity. Qed.

(** Two stamps give the same signed text only if they are equal. *)
Lemma signed_json_timestamp (m : gmap string Js.value) (t t' : Z) :
  Aster.signed_json (Aster.trimAndSortParams (<["timestamp" := Js.Num t']> m))
  = Aster.signed_json (Aster.trimAndSortParams (<["timestamp" := Js.Num t]> m))
  ↔ t' = t.
Proof.
  rewrite !trimmed_timestamp.
  set (T := <["timestamp" := pretty t]> (Aster.trimAndSortParams m)).
  assert (E : <["timestamp" := pretty t']> (Aster.trimAndSortParams m)
              = <["timestamp" := pretty t']> T)
    by (unfold T; rewrite insert_insert_eq; reflexivity).
  rewrite E.
  rewrite (signed_json_insert T "timestamp" (pretty t) (pretty t'))
    by apply lookup_insert_eq.
  rewrite !canonical_text_plain by apply plain_pretty_Z.
  split; [apply pretty_Z_inj | intros ->; reflexivity].
Qed.

Lemma requestBody_auth_fields (o : Aster.AsterOrderParams)
    (walletConfig : Aster.AgentWalletConfig) (nonce : Z) (sig : Aster.hexdata) (now : Z) :
  let body := Aster.requestBody o walletConfig nonce sig now in
  body !! "nonce" = Some (Aster.Text (pretty nonce))
  ∧ body !! "user" = Some (Aster.Text (Aster.user walletConfig))
  ∧ body !! "signer" = Some (Aster.Text (Aster.signer walletConfig))
  ∧ body !! "signature" = Some (Aster.Signature sig).
Proof.
  unfold Aster.requestBody. rewrite !body_lookup.
  repeat split;
    repeat first [ rewrite lookup_insert_eq; reflexivity
                 | rewrite lookup_insert_ne by discriminate ].
Qed.

(** For every order, the request that is sent carries a signature over
    its own parameters exactly when the clock reads the same millisecond
    the two times it is consulted for the timestamp. *)
Lemma order_request_authenticated_iff (o : Aster.AsterOrderParams)
    (walletConfig : Aster.AgentWalletConfig) (w : Aster.world) :
  ∃ req,
    Aster.sent (Aster.placeAsterOrder o walletConfig w).2 = Aster.sent w ++ [req]
    ∧ (Spec.authenticated walletConfig req
       ↔ Aster.now_at w (S (S (Aster.reads w))) = Aster.now_at w (S (Aster.reads w))).
Proof.
  eexists. split; [apply placeAsterOrder_sent|].
  unfold Spec.authenticated. cbn [Aster.req_fields].
  set (nonce := Aster.now_at w (Aster.reads w) * 1000).
  set (t_sign := Aster.now_at w (S (Aster.reads w))).
  set (t_body := Aster.now_at w (S (S (Aster.reads w)))).
  set (sig := Spec.signature_over walletConfig nonce _).
  destruct (requestBody_auth_fields o walletConfig nonce sig t_body)
    as (Hnonce & Huser & Hsigner & Hsig).
  rewrite request_params_requestBody. split.
  - intros (n & _ & _ & _ & Hn). rewrite Hsig in Hn. unfold sig in Hn.
    apply signature_field_inj in Hn as [Hjson _].
    symmetry in Hjson. apply signed_json_timestamp in Hjson. exact Hjson.
  - intros Heq. exists nonce.
    split; [exact Hnonce|]. split; [exact Huser|]. split; [exact Hsigner|].
    rewrite Hsig. unfold sig. rewrite Heq. reflexivity.
Qed.

(** C5. [placeAsterOrder] reads the clock again when it builds the request
    body, after the signature was computed.  With a clock that reads 1000,
    1001 and 1002 at the three readings, the request carries the timestamp
    1002 while its signature was computed over the timestamp 1001, so the
    signature is not the one over the parameters that are sent. *)
Theorem order_request_resamples_clock :
  ∃ req,
    Aster.sent (Aster.placeAsterOrder demo_order demo_wallet (demo_world Aster.Rejected)).2
    = [req]
    ∧ Aster.req_fields req !! "timestamp" = Some (Aster.Text "1002")
    ∧ Aster.req_fields req !! "signature"
      = Some (Aster.Signature
                (Spec.signature_over demo_wallet 1000000
                   (<["timestamp" := "1001"]> (Spec.request_params (Aster.req_fields req)))))
    ∧ ¬ Spec.authenticated demo_wallet req.
Proof.
  destruct (order_request_authenticated_iff demo_order demo_wallet
              (demo_world Aster.Rejected)) as (req & Hsent & Hiff).
  exists req.
  assert (Hreq : [req]
    = Aster.sent (Aster.placeAsterOrder demo_order demo_wallet
                    (demo_world Aster.Rejected)).2) by (symmetry; exact Hsent).
  vm_compute in Hreq. injection Hreq as ->.
  split; [exact Hsent|].
  split; [vm_compute; reflexivity|].
  split; [vm_compute; reflexivity|].
  intros Hauth. apply Hiff in Hauth. vm_compute in Hauth. discriminate Hauth.
Qed.

(** * Further properties of the modelled code *)

(** ** Trimming and ordering of the signed parameters *)





(** X2. The keys under which the signed JSON lists the parameters are exactly
    the keys kept by the trimming, each once, in ascending order of their
    code units. *)
Theorem sorted_keys_sorted_complete (trimmed : gmap string string) :
  Sorted String.le (Js.sorted_keys trimmed)
  ∧ NoDup (Js.sorted_keys trimmed)
  ∧ ∀ k, k ∈ Js.sorted_keys trimmed ↔ is_Some (trimmed !! k).
Proof.
  assert (Hperm : Js.sorted_keys trimmed ≡ₚ (map_to_list trimmed).*1)
    by apply merge_sort_Permutation.
  split; [|split].
  - apply Sorted_merge_sort. apply _.
  - rewrite Hperm. apply NoDup_fst_map_to_list.
  - intros k. rewrite Hperm, list_elem_of_fmap. split.
    + intros ([k' v] & -> & Hin). apply elem_of_map_to_list in Hin. eauto.
    + intros [v Hv]. exists (k, v). split; [reflexivity|].
      apply elem_of_map_to_list, Hv.
Qed.

Lemma sorted_keys_sorted_complete_witness :
  "symbol" ∈ Js.sorted_keys {[ "symbol" := "BTCUSDT"; "side" := "BUY" ]}.
Proof.
  destruct (sorted_keys_sorted_complete {[ "symbol" := "BTCUSDT"; "side" := "BUY" ]})
    as (_ & _ & Hmem).
  apply Hmem. rewrite lookup_insert_eq. eauto.
Defined.

(** ** What the signing routine stamps *)

(** X3. Whatever the caller passes as recvWindow or timestamp is overwritten:
    the signed parameters always hold the window 50000 and the reading of
    the clock, so the signature does not depend on the caller's values for
    these two; the routine takes one reading of the clock and has no other
    effect. *)
Theorem generateAsterSignature_overrides_meta (params : gmap string Js.value)
    (walletConfig : Aster.AgentWalletConfig) (nonce : Z) (w : Aster.world) (x : Js.value) :
  let now := Aster.now_at w (Aster.reads w) in
  let trimmed := Aster.trimAndSortParams
                   (<["timestamp" := Js.Num now]>
                      (<["recvWindow" := Js.Num Aster.recvWindow]> params)) in
  trimmed !! "recvWindow" = Some "50000"
  ∧ trimmed !! "timestamp" = Some (pretty now)
  ∧ (Aster.generateAsterSignature (<["timestamp" := x]> params) walletConfig nonce w).1
    = (Aster.generateAsterSignature params walletConfig nonce w).1
  ∧ (Aster.generateAsterSignature (<["recvWindow" := x]> params) walletConfig nonce w).1
    = (Aster.generateAsterSignature params walletConfig nonce w).1
  ∧ Aster.reads (Aster.generateAsterSignature params walletConfig nonce w).2
    = S (Aster.reads w)
  ∧ Aster.sent (Aster.generateAsterSignature params walletConfig nonce w).2 = Aster.sent w
  ∧ Aster.console (Aster.generateAsterSignature params walletConfig nonce w).2
    = Aster.console w.
Proof.
  intros now trimmed.
  split; [|split; [|split; [|split; [|split; [|split]]]]]; try reflexivity.
  - unfold trimmed, Aster.trimAndSortParams.
    rewrite lookup_omap, lookup_insert_ne, lookup_insert_eq by discriminate. reflexivity.
  - unfold trimmed, Aster.trimAndSortParams.
    rewrite lookup_omap, lookup_insert_eq. reflexivity.
  - rewrite !generateAsterSignature_value.
    rewrite (insert_insert_ne _ "recvWindow" "timestamp") by discriminate.
    rewrite insert_insert_eq. reflexivity.
  - rewrite !generateAsterSignature_value. rewrite insert_insert_eq. reflexivity.
Qed.

(** ** Placing an order: one request, one outcome *)




(** ** The fields of an order request *)

Lemma lookup_set_opt_ne {A} (k k' : string) (f : A → Js.value) (o : option A)
    (m : gmap string Js.value) :
  k ≠ k' → Aster.set_opt k f o m !! k' = m !! k'.
Proof. intros H. destruct o; simpl; [apply lookup_insert_ne, H | reflexivity]. Qed.

Lemma lookup_set_opt_eq {A} (k : string) (f : A → Js.value) (o : option A)
    (m : gmap string Js.value) :
  Aster.set_opt k f o m !! k = match o with Some a => Some (f a) | None => m !! k end.
Proof. destruct o; simpl; [apply lookup_insert_eq | reflexivity]. Qed.

Ltac order_lookup :=
  unfold Aster.requestBody, Aster.paramsForSign, Aster.order_object;
  rewrite ?body_lookup;
  repeat first
    [ rewrite lookup_insert_ne by discriminate
    | rewrite lookup_set_opt_ne by discriminate
    | rewrite lookup_fmap
    | rewrite lookup_insert_eq
    | rewrite lookup_set_opt_eq
    | rewrite lookup_empty ].

(** X5. The request of an order carries the symbol, the side and the type, each
    optional field of the order that is present (and none that is absent)
    as its text, the leverage as decimal text unless the order has none or
    a zero one, the window 50000, the timestamp read last, and the four
    authentication fields; it carries nothing else. *)
Theorem requestBody_fields (o : Aster.AsterOrderParams)
    (walletConfig : Aster.AgentWalletConfig) (nonce : Z) (sig : Aster.hexdata) (now : Z) :
  let body := Aster.requestBody o walletConfig nonce sig now in
  body !! "symbol" = Some (Aster.Text (Aster.symbol o))
  ∧ body !! "side" = Some (Aster.Text (Aster.Side_str (Aster.side o)))
  ∧ body !! "type" = Some (Aster.Text (Aster.OrderType_str (Aster.type o)))
  ∧ body !! "quantity" = Aster.Text <$> Aster.quantity o
  ∧ body !! "price" = Aster.Text <$> Aster.price o
  ∧ body !! "stopPrice" = Aster.Text <$> Aster.stopPrice o
  ∧ body !! "reduceOnly" = Aster.Text <$> Aster.reduceOnly o
  ∧ body !! "newClientOrderId" = Aster.Text <$> Aster.newClientOrderId o
  ∧ body !! "positionSide"
    = (fun p => Aster.Text (Aster.PositionSide_str p)) <$> Aster.positionSide o
  ∧ body !! "timeInForce"
    = (fun t => Aster.Text (Aster.TimeInForce_str t)) <$> Aster.timeInForce o
  ∧ body !! "newOrderRespType"
    = (fun r => Aster.Text (Aster.RespType_str r)) <$> Aster.newOrderRespType o
  ∧ body !! "leverage"
    = match Aster.leverage o with
      | Some l => if l =? 0 then None else Some (Aster.Text (pretty l))
      | None => None
      end
  ∧ body !! "recvWindow" = Some (Aster.Text "50000")
  ∧ body !! "timestamp" = Some (Aster.Text (pretty now))
  ∧ body !! "nonce" = Some (Aster.Text (pretty nonce))
  ∧ body !! "signature" = Some (Aster.Signature sig)
  ∧ ∀ k, is_Some (body !! k) → k ∈ order_keys ++ added_keys.
Proof.
  intros body. unfold body.
  repeat match goal with |- _ ∧ _ => split end.
  1-3: order_lookup; reflexivity.
  - destruct o as [? ? ? ? [q|] ? ? ? ? ? ? ?]; order_lookup; reflexivity.
  - destruct o as [? ? ? ? ? [q|] ? ? ? ? ? ?]; order_lookup; reflexivity.
  - destruct o as [? ? ? ? ? ? [q|] ? ? ? ? ?]; order_lookup; reflexivity.
  - destruct o as [? ? ? ? ? ? ? ? [q|] ? ? ?]; order_lookup; reflexivity.
  - destruct o as [? ? ? ? ? ? ? ? ? ? [q|] ?]; order_lookup; reflexivity.
  - destruct o as [? ? ? [q|] ? ? ? ? ? ? ? ?]; order_lookup; reflexivity.
  - destruct o as [? ? ? ? ? ? ? [q|] ? ? ? ?]; order_lookup; reflexivity.
  - destruct o as [? ? ? ? ? ? ? ? ? ? ? [q|]]; order_lookup; reflexivity.
  - destruct o as [? ? ? ? ? ? ? ? ? [l|] ? ?]; order_lookup; simpl;
      [destruct (l =? 0); reflexivity | reflexivity].
  - order_lookup. reflexivity.
  - order_lookup. reflexivity.
  - order_lookup. reflexivity.
  - order_lookup. reflexivity.
  - intros k [f Hf]. unfold Aster.requestBody in Hf. rewrite body_lookup in Hf.
    apply elem_of_app.
    destruct (decide (k ∈ added_keys)) as [Hin|Hout]; [right; exact Hin|left].
    assert (Hne : k ≠ "nonce" ∧ k ≠ "user" ∧ k ≠ "signer" ∧ k ≠ "signature"
                  ∧ k ≠ "recvWindow" ∧ k ≠ "timestamp").
    { unfold added_keys in Hout.
      repeat split; intros ->; apply Hout;
        repeat first [apply list_elem_of_here | apply list_elem_of_further]. }
    destruct Hne as (H1 & H2 & H3 & H4 & H5 & H6).
    rewrite !lookup_insert_ne, lookup_fmap in Hf by congruence.
    destruct (Aster.paramsForSign o !! k) as [v|] eqn:Hk; [|discriminate Hf].
    exact (proj1 (paramsForSign_like o k v Hk)).
Qed.

Lemma requestBody_fields_witness :
  "price" ∈ order_keys ++ added_keys.
Proof.
  destruct (requestBody_fields
              {| Aster.symbol := "BTCUSDT"; Aster.side := Aster.BUY; Aster.type := Aster.MARKET;
                 Aster.positionSide := None; Aster.quantity := None;
                 Aster.price := Some "50000"; Aster.stopPrice := None;
                 Aster.timeInForce := None; Aster.reduceOnly := None;
                 Aster.leverage := None; Aster.newClientOrderId := None;
                 Aster.newOrderRespType := None |}
              demo_wallet 1 (Aster.signMessage "k" (Aster.keccak256 (Aster.abi_encode "j" "u" "s" 1))) 2)
    as (_ & _ & _ & _ & Hprice & _ & _ & _ & _ & _ & _ & _ & _ & _ & _ & _ & Honly).
  apply Honly. rewrite Hprice. simpl. eauto.
Defined.

(** ** Closing a position *)

(** X6. [closeAsterPosition] sends one market order for the given symbol, side
    and quantity with reduceOnly set to true, and with no price, stop price,
    leverage or position side. *)
Theorem closeAsterPosition_request (sym : string) (sd : Aster.Side) (qty : string)
    (walletConfig : Aster.AgentWalletConfig) (w : Aster.world) :
  ∃ req,
    Aster.sent (Aster.closeAsterPosition sym sd qty walletConfig w).2 = Aster.sent w ++ [req]
    ∧ Aster.req_fields req !! "symbol" = Some (Aster.Text sym)
    ∧ Aster.req_fields req !! "side" = Some (Aster.Text (Aster.Side_str sd))
    ∧ Aster.req_fields req !! "type" = Some (Aster.Text "MARKET")
    ∧ Aster.req_fields req !! "quantity" = Some (Aster.Text qty)
    ∧ Aster.req_fields req !! "reduceOnly" = Some (Aster.Text "true")
    ∧ Aster.req_fields req !! "price" = None
    ∧ Aster.req_fields req !! "stopPrice" = None
    ∧ Aster.req_fields req !! "leverage" = None
    ∧ Aster.req_fields req !! "positionSide" = None.
Proof.
  unfold Aster.closeAsterPosition.
  eexists. split; [apply placeAsterOrder_sent|].
  cbn [Aster.req_fields].
  repeat split; order_lookup; reflexivity.
Qed.

(** ** The balance query *)

(** What [getAsterAccountBalance] sends: one GET whose timestamp is the
    second reading of the clock and whose signature was made at the third. *)
Lemma getAsterAccountBalance_sent (parseFloat : string → Q)
    (walletConfig : Aster.AgentWalletConfig) (w : Aster.world) :
  let nonce := Aster.now_at w (Aster.reads w) * 1000 in
  let t_sent := Aster.now_at w (S (Aster.reads w)) in
  let t_sign := Aster.now_at w (S (S (Aster.reads w))) in
  Aster.sent (Aster.getAsterAccountBalance parseFloat walletConfig w).2
  = Aster.sent w
    ++ [{| Aster.req_method := Aster.GET; Aster.req_path := "/fapi/v3/balance";
           Aster.req_fields :=
             <["signature" :=
                 Aster.Signature
                   (Spec.signature_over walletConfig nonce
                      (Aster.trimAndSortParams
                         (<["timestamp" := Js.Num t_sign]>
                            (<["recvWindow" := Js.Num Aster.recvWindow]> ∅))))]>
             (<["signer" := Aster.Text (Aster.signer walletConfig)]>
             (<["user" := Aster.Text (Aster.user walletConfig)]>
             (<["nonce" := Aster.Text (pretty nonce)]>
             (<["timestamp" := Aster.Text (pretty t_sent)]>
             (<["recvWindow" := Aster.Text (pretty Aster.recvWindow)]> ∅))))) |}].
Proof.
  intros nonce t_sent t_sign.
  unfold Aster.getAsterAccountBalance, Aster.generateNonce, Aster.generateAsterSignature,
    Aster.try_catch, Aster.fetch, Aster.Date_now, Aster.console_log, Aster.throw,
    mbind, mret, Aster.M_bind, Aster.M_ret.
  cbn [fst snd Aster.now_at Aster.reads Aster.exchange Aster.sent Aster.console
       Aster.save_rejects Aster.saved].
  rewrite (insert_insert_ne _ "recvWindow" "timestamp") by discriminate.
  rewrite !insert_insert_eq.
  unfold Spec.signature_over.
  destruct (Aster.exchange w _) as [|ok status payload]; [reflexivity|].
  destruct ok; [|reflexivity].
  destruct payload as [|bs|v]; [reflexivity| |reflexivity].
  destruct (List.find _ bs); reflexivity.
Qed.

(** X7. The balance query carries the timestamp its caller read, while the
    signing routine signs its own later reading: the signature of the
    query is the one over the parameters sent exactly when the clock reads
    the same millisecond both times. *)
Theorem balance_query_authenticated_iff (parseFloat : string → Q)
    (walletConfig : Aster.AgentWalletConfig) (w : Aster.world) :
  ∃ req,
    Aster.sent (Aster.getAsterAccountBalance parseFloat walletConfig w).2
    = Aster.sent w ++ [req]
    ∧ Aster.req_method req = Aster.GET
    ∧ Aster.req_fields req !! "timestamp"
      = Some (Aster.Text (pretty (Aster.now_at w (S (Aster.reads w)))))
    ∧ (Spec.authenticated walletConfig req
       ↔ Aster.now_at w (S (S (Aster.reads w))) = Aster.now_at w (S (Aster.reads w))).
Proof.
  eexists. split; [apply getAsterAccountBalance_sent|].
  split; [reflexivity|]. cbn [Aster.req_fields].
  set (nonce := Aster.now_at w (Aster.reads w) * 1000).
  set (t_sent := Aster.now_at w (S (Aster.reads w))).
  set (t_sign := Aster.now_at w (S (S (Aster.reads w)))).
  split; [rewrite !lookup_insert_ne by discriminate; apply lookup_insert_eq|].
  assert (Hparams : ∀ sig,
    Spec.request_params
      (<["signature" := Aster.Signature sig]>
      (<["signer" := Aster.Text (Aster.signer walletConfig)]>
      (<["user" := Aster.Text (Aster.user walletConfig)]>
      (<["nonce" := Aster.Text (pretty nonce)]>
      (<["timestamp" := Aster.Text (pretty t_sent)]>
      (<["recvWindow" := Aster.Text (pretty Aster.recvWindow)]> ∅))))))
    = Aster.trimAndSortParams
        (<["timestamp" := Js.Num t_sent]>
           (<["recvWindow" := Js.Num Aster.recvWindow]> ∅))).
  { intros sig. apply map_eq. intros k.
    unfold Spec.request_params, Aster.trimAndSortParams. rewrite !lookup_omap.
    destruct (decide (k = "signature")) as [->|H1];
      [rewrite lookup_delete_eq, !lookup_insert_ne by discriminate; reflexivity|].
    rewrite lookup_delete_ne by congruence.
    destruct (decide (k = "signer")) as [->|H2];
      [rewrite lookup_delete_eq, !lookup_insert_ne by discriminate; reflexivity|].
    rewrite lookup_delete_ne by congruence.
    destruct (decide (k = "user")) as [->|H3];
      [rewrite lookup_delete_eq, !lookup_insert_ne by discriminate; reflexivity|].
    rewrite lookup_delete_ne by congruence.
    destruct (decide (k = "nonce")) as [->|H4];
      [rewrite lookup_delete_eq, !lookup_insert_ne by discriminate; reflexivity|].
    rewrite lookup_delete_ne by congruence.
    rewrite !(lookup_insert_ne _ "signature"), !(lookup_insert_ne _ "signer"),
      !(lookup_insert_ne _ "user"), !(lookup_insert_ne _ "nonce") by congruence.
    destruct (decide (k = "timestamp")) as [->|H5];
      [rewrite !lookup_insert_eq; reflexivity|].
    rewrite !(lookup_insert_ne _ "timestamp") by congruence.
    destruct (decide (k = "recvWindow")) as [->|H6];
      [rewrite !lookup_insert_eq; reflexivity|].
    rewrite !lookup_insert_ne by congruence. reflexivity. }
  unfold Spec.authenticated. cbn [Aster.req_fields]. rewrite Hparams.
  split.
  - intros (n & _ & _ & _ & Hn). rewrite lookup_insert_eq in Hn.
    apply signature_field_inj in Hn as [Hjson _].
    apply signed_json_timestamp in Hjson. exact Hjson.
  - intros Heq. exists nonce.
    split; [rewrite !lookup_insert_ne by discriminate; apply lookup_insert_eq|].
    split; [rewrite !lookup_insert_ne by discriminate; apply lookup_insert_eq|].
    split; [rewrite !lookup_insert_ne by discriminate; apply lookup_insert_eq|].
    rewrite lookup_insert_eq, Heq. reflexivity.
Qed.

Lemma balance_query_authenticated_iff_witness :
  ∃ req,
    Aster.sent (Aster.getAsterAccountBalance (fun _ => 0%Q) demo_wallet
                  (world_at 1000 Aster.Rejected)).2 = [req]
    ∧ Spec.authenticated demo_wallet req.
Proof.
  destruct (balance_query_authenticated_iff (fun _ => 0%Q) demo_wallet
              (world_at 1000 Aster.Rejected)) as (req & Hsent & _ & _ & Hiff).
  exists req. split; [exact Hsent|]. apply Hiff. reflexivity.
Defined.

Lemma getAsterAccountBalance_run (parseFloat : string → Q)
    (walletConfig : Aster.AgentWalletConfig) (w : Aster.world) :
  ∃ req,
    Aster.sent (Aster.getAsterAccountBalance parseFloat walletConfig w).2
    = Aster.sent w ++ [req]
    ∧ Aster.reads (Aster.getAsterAccountBalance parseFloat walletConfig w).2
      = (3 + Aster.reads w)%nat
    ∧ Aster.save_rejects (Aster.getAsterAccountBalance parseFloat walletConfig w).2
      = Aster.save_rejects w
    ∧ ((∃ status balances usdtBalance,
          Aster.exchange w req = Aster.Response true status (Aster.Balances balances)
          ∧ List.find (fun b => String.eqb (Aster.asset b) "USDT") balances
            = Some usdtBalance
          ∧ (Aster.getAsterAccountBalance parseFloat walletConfig w).1
            = Aster.Returned (parseFloat (Aster.ab_balance usdtBalance))
          ∧ Aster.console (Aster.getAsterAccountBalance parseFloat walletConfig w).2
            = Aster.console w)
       ∨ (∃ e,
            (Aster.getAsterAccountBalance parseFloat walletConfig w).1 = Aster.Thrown e
            ∧ Aster.console (Aster.getAsterAccountBalance parseFloat walletConfig w).2
              = Aster.console w ++ [Aster.LogBalanceError e]
            ∧ ((e = Aster.FetchRejected ∧ Aster.exchange w req = Aster.Rejected)
               ∨ (∃ status payload,
                    e = Aster.FetchBalanceError status
                    ∧ Aster.exchange w req = Aster.Response false status payload)
               ∨ (∃ status,
                    e = Aster.JsonRejected
                    ∧ Aster.exchange w req = Aster.Response true status Aster.NotJson)
               ∨ (∃ status v,
                    e = Aster.TypeError
                    ∧ Aster.exchange w req = Aster.Response true status (Aster.OtherJson v))
               ∨ (∃ status balances,
                    e = Aster.UsdtNotFound
                    ∧ Aster.exchange w req
                      = Aster.Response true status (Aster.Balances balances)
                    ∧ List.find (fun b => String.eqb (Aster.asset b) "USDT") balances
                      = None)))).
Proof.
  unfold Aster.getAsterAccountBalance, Aster.generateNonce, Aster.generateAsterSignature,
    Aster.try_catch, Aster.fetch, Aster.Date_now, Aster.console_log, Aster.throw,
    mbind, mret, Aster.M_bind, Aster.M_ret.
  cbn [fst snd Aster.now_at Aster.reads Aster.exchange Aster.sent Aster.console
       Aster.save_rejects Aster.saved].
  match goal with |- context [Aster.exchange w ?r] => set (req := r) end.
  exists req.
  destruct (Aster.exchange w req) as [|ok status payload] eqn:Hex.
  { cbn. repeat (split; [reflexivity|]). right. exists Aster.FetchRejected.
    split; [reflexivity|]. split; [reflexivity|]. left. split; reflexivity. }
  destruct ok.
  - destruct payload as [|bs|v].
    + cbn. repeat (split; [reflexivity|]). right. exists Aster.JsonRejected.
      split; [reflexivity|]. split; [reflexivity|].
      right. right. left. exists status. split; reflexivity.
    + destruct (List.find _ bs) as [b|] eqn:Hfind; cbn;
        repeat (split; [reflexivity|]).
      * left. exists status, bs, b. repeat split; assumption || reflexivity.
      * right. exists Aster.UsdtNotFound. split; [reflexivity|]. split; [reflexivity|].
        right. right. right. right. exists status, bs. repeat split; assumption.
    + cbn. repeat (split; [reflexivity|]). right. exists Aster.TypeError.
      split; [reflexivity|]. split; [reflexivity|].
      right. right. right. left. exists status, v. split; reflexivity.
  - cbn. repeat (split; [reflexivity|]). right. exists (Aster.FetchBalanceError status).
    split; [reflexivity|]. split; [reflexivity|].
    right. left. exists status, payload. split; reflexivity.
Qed.

(** X8. [getAsterAccountBalance] sends exactly one request.  When the exchange
    answers with a successful status and a list of balances, it returns the
    number read from the first entry whose asset is USDT, logging nothing;
    an answer without such an entry, an answer that is not a list, a body
    that is not JSON, a refused request and a transport failure each make
    it throw, after logging exactly that error; it never returns zero or
    another default in their place. *)
Theorem balance_query_outcome (parseFloat : string → Q)
    (walletConfig : Aster.AgentWalletConfig) (w : Aster.world) :
  let r := Aster.getAsterAccountBalance parseFloat walletConfig w in
  length (Aster.sent r.2) = S (length (Aster.sent w))
  ∧ (∀ q, r.1 = Aster.Returned q →
       Aster.console r.2 = Aster.console w
       ∧ ∃ req status balances usdtBalance,
           last (Aster.sent r.2) = Some req
           ∧ Aster.exchange w req = Aster.Response true status (Aster.Balances balances)
           ∧ List.find (fun b => String.eqb (Aster.asset b) "USDT") balances
             = Some usdtBalance
           ∧ q = parseFloat (Aster.ab_balance usdtBalance))
  ∧ (∀ e, r.1 = Aster.Thrown e →
       Aster.console r.2 = Aster.console w ++ [Aster.LogBalanceError e])
  ∧ (∀ status balances usdtBalance,
       (∀ req, Aster.exchange w req = Aster.Response true status (Aster.Balances balances)) →
       List.find (fun b => String.eqb (Aster.asset b) "USDT") balances = Some usdtBalance →
       r.1 = Aster.Returned (parseFloat (Aster.ab_balance usdtBalance))).
Proof.
  intros r. unfold r.
  destruct (getAsterAccountBalance_run parseFloat walletConfig w)
    as (req & Hsent & _ & _ & Hcases).
  split; [rewrite Hsent, length_app; simpl; lia|].
  destruct Hcases as [(status & bs & b & Hex & Hfind & Hres & Hcon)|(e & Hres & Hcon & He)].
  - split; [|split].
    + intros q Hq. rewrite Hres in Hq. injection Hq as <-.
      split; [exact Hcon|]. exists req, status, bs, b.
      split; [rewrite Hsent; apply last_snoc|]. repeat split; assumption.
    + intros e He. rewrite Hres in He. discriminate He.
    + intros st bs' b' Hall Hfind'. rewrite Hall in Hex. injection Hex as <- <-.
      rewrite Hfind in Hfind'. injection Hfind' as <-. exact Hres.
  - split; [|split].
    + intros q Hq. rewrite Hres in Hq. discriminate Hq.
    + intros e' He'. rewrite Hres in He'. injection He' as <-. exact Hcon.
    + intros st bs' b' Hall Hfind'. exfalso. rewrite Hall in He.
      destruct He as [[_ H]|[(? & ? & _ & H)|[(? & _ & H)|[(? & ? & _ & H)
                     |(? & bs'' & _ & H & Hnone)]]]]; try discriminate H.
      injection H as <- <-. rewrite Hfind' in Hnone. discriminate Hnone.
Qed.

Lemma balance_query_outcome_witness :
  (Aster.getAsterAccountBalance (fun _ => 42%Q) demo_wallet
     (demo_world (Aster.Response true 200
                    (Aster.Balances [ {| Aster.asset := "BNB"; Aster.ab_balance := "1" |};
                                      {| Aster.asset := "USDT"; Aster.ab_balance := "42" |} ])))).1
  = Aster.Returned 42%Q.
Proof.
  destruct (balance_query_outcome (fun _ => 42%Q) demo_wallet
     (demo_world (Aster.Response true 200
                    (Aster.Balances [ {| Aster.asset := "BNB"; Aster.ab_balance := "1" |};
                                      {| Aster.asset := "USDT"; Aster.ab_balance := "42" |} ]))))
    as (_ & _ & _ & Hfirst).
  apply (Hfirst 200
           [ {| Aster.asset := "BNB"; Aster.ab_balance := "1" |};
             {| Aster.asset := "USDT"; Aster.ab_balance := "42" |} ]
           {| Aster.asset := "USDT"; Aster.ab_balance := "42" |}).
  - intros req. reflexivity.
  - reflexivity.
Defined.

(** ** The live balance sync as a whole *)

(** X9. [syncBalanceFromAster] never throws.  When the query returns a balance
    it overwrites the agent's balance with it outright, whatever the balance
    was, and sets pnlAbsolute and pnl from the initial balance; the new
    document is saved once, and if saving fails the object keeps the new
    values although nothing was stored.  Otherwise the agent is left as it
    was. *)
Theorem syncBalanceFromAster_total (parseFloat : string → Q) (a : Aster.agent)
    (walletConfig : Aster.AgentWalletConfig) (initialBalance : Q) (w : Aster.world) :
  ∃ a' w',
    Aster.syncBalanceFromAster parseFloat a walletConfig initialBalance w
    = (Aster.Returned a', w')
    ∧ Aster.name a' = Aster.name a
    ∧ ((∃ q w1,
          Aster.getAsterAccountBalance parseFloat walletConfig w = (Aster.Returned q, w1)
          ∧ Aster.balance a' = q
          ∧ Aster.pnlAbsolute a' = (q - initialBalance)%Q
          ∧ Aster.pnl a' = ((q - initialBalance) / initialBalance * 100)%Q
          ∧ Aster.saved w'
            = if Aster.save_rejects w then Aster.saved w else Aster.saved w ++ [a'])
       ∨ (∃ e w1,
            Aster.getAsterAccountBalance parseFloat walletConfig w = (Aster.Thrown e, w1)
            ∧ a' = a ∧ Aster.saved w' = Aster.saved w)).
Proof.
  pose proof (keeps_saved_getAsterAccountBalance parseFloat walletConfig w) as Hsaved.
  destruct (getAsterAccountBalance_run parseFloat walletConfig w)
    as (_ & _ & _ & Hrej & _).
  unfold Aster.syncBalanceFromAster, Aster.try_catch at 1.
  unfold mbind at 1, Aster.M_bind at 1.
  destruct (Aster.getAsterAccountBalance parseFloat walletConfig w) as [[q|e] w1] eqn:Hq;
    simpl in Hsaved, Hrej.
  - unfold Aster.try_catch, Aster.save, mbind, mret, Aster.M_bind, Aster.M_ret,
      Aster.console_log.
    rewrite Hrej.
    destruct (Aster.save_rejects w) eqn:Hsr; cbn;
      (eexists; eexists; split; [reflexivity|]; split; [reflexivity|]; left;
       exists q, w1; repeat split; cbn; try reflexivity; rewrite ?Hsaved; reflexivity).
  - cbn. eexists; eexists. split; [reflexivity|]. split; [reflexivity|]. right.
    exists e, w1. repeat split. exact Hsaved.
Qed.


(** ** The price feed *)

Lemma match_coin_USDT : AsterPriceFeed.match_coin "USDT" = None.
Proof. reflexivity. Qed.

Lemma match_coin_sound (symbol coin : string) :
  AsterPriceFeed.match_coin symbol = Some coin →
  symbol = coin +:+ "USDT" ∧ all_upper coin = true ∧ coin ≠ EmptyString.
Proof.
  revert coin. induction symbol as [|c rest IH]; intros coin H; simpl in H.
  - discriminate H.
  - destruct (AsterPriceFeed.is_upper c) eqn:Hc; [|discriminate H].
    destruct (AsterPriceFeed.match_coin rest) as [coin'|].
    + injection H as <-. destruct (IH coin' eq_refl) as (-> & Hup & _).
      rewrite string_app_cons. simpl. rewrite Hc, Hup. repeat split. discriminate.
    + destruct (String.eqb rest "USDT") eqn:Hr; [|discriminate H].
      injection H as <-. apply String.eqb_eq in Hr. subst rest.
      simpl. rewrite Hc. repeat split. discriminate.
Qed.

Lemma match_coin_complete (coin : string) :
  all_upper coin = true → coin ≠ EmptyString →
  AsterPriceFeed.match_coin (coin +:+ "USDT") = Some coin.
Proof.
  induction coin as [|c coin IH]; intros Hup Hne; [congruence|].
  simpl in Hup. apply andb_true_iff in Hup as [Hc Hup].
  rewrite string_app_cons. simpl. rewrite Hc.
  destruct coin as [|c' coin].
  - rewrite string_app_nil_l. reflexivity.
  - rewrite IH by (exact Hup || discriminate). reflexivity.
Qed.

(** X10. The pattern of the feed accepts exactly the symbols made of one or
    more capital letters followed by USDT, and yields those letters: the
    whole symbol must match, so lower-case names, names with digits and
    pairs quoted in another currency yield nothing. *)
Theorem match_coin_spec (symbol coin : string) :
  AsterPriceFeed.match_coin symbol = Some coin
  ↔ symbol = coin +:+ "USDT" ∧ all_upper coin = true ∧ coin ≠ EmptyString.
Proof.
  split.
  - apply match_coin_sound.
  - intros (-> & Hup & Hne). apply match_coin_complete; assumption.
Qed.

Lemma match_coin_spec_witness :
  AsterPriceFeed.match_coin ("ETH" +:+ "USDT") = Some "ETH".
Proof.
  apply (match_coin_spec ("ETH" +:+ "USDT") "ETH").
  split; [reflexivity|]. split; [reflexivity|discriminate].
Defined.


Lemma truthy_some (s : option string) :
  AsterPriceFeed.truthy s = true →
  ∃ t, s = Some t ∧ t ≠ EmptyString.
Proof.
  destruct s as [[|c t]|]; simpl; intros H; try discriminate H.
  eexists. split; [reflexivity|discriminate].
Qed.

Lemma record_ticker_cases (parseFloat : string → Q) (priceMap : gmap string Q)
    (t : AsterPriceFeed.ticker) :
  AsterPriceFeed.record_ticker parseFloat priceMap t = priceMap
  ∨ ∃ coin price,
      t = AsterPriceFeed.Ticker (Some (coin +:+ "USDT")) (Some price)
      ∧ coin_name coin ∧ price ≠ EmptyString
      ∧ AsterPriceFeed.record_ticker parseFloat priceMap t
        = <[coin := parseFloat price]> priceMap.
Proof.
  destruct t as [|symbol price]; simpl; [left; reflexivity|].
  destruct (AsterPriceFeed.truthy symbol) eqn:Hs; [|left; reflexivity].
  destruct (AsterPriceFeed.truthy price) eqn:Hp; [|left; reflexivity].
  apply truthy_some in Hs as (s & -> & Hs). apply truthy_some in Hp as (p & -> & Hp).
  simpl.
  destruct (AsterPriceFeed.match_coin s) as [coin|] eqn:Hm; [|left; reflexivity].
  destruct (String.length coin <=? 5)%nat eqn:Hlen; [|left; reflexivity].
  apply match_coin_sound in Hm as (-> & Hup & Hne). apply Nat.leb_le in Hlen.
  right. exists coin, p. repeat split; try assumption.
  destruct coin; [congruence|simpl; lia].
Qed.

Lemma price_map_sound_aux (parseFloat : string → Q)
    (tickers : list AsterPriceFeed.ticker) (coin : string) (p : Q) :
  AsterPriceFeed.price_map parseFloat tickers !! coin = Some p →
  coin_name coin.
Proof.
  unfold AsterPriceFeed.price_map.
  assert (H : ∀ ts (acc : gmap string Q),
    (is_Some (acc !! coin) → coin_name coin) →
    is_Some (fold_left (AsterPriceFeed.record_ticker parseFloat) ts acc !! coin) →
    coin_name coin).
  { induction ts as [|t ts IH]; intros acc Hacc Hq; simpl in Hq.
    - apply Hacc, Hq.
    - eapply IH; [|exact Hq].
      intros Hq'.
      destruct (record_ticker_cases parseFloat acc t)
        as [E|(c & price & -> & Hname & Hprice & E)]; rewrite E in Hq'.
      + apply Hacc, Hq'.
      + destruct (decide (c = coin)) as [->|Hne]; [exact Hname|].
        rewrite lookup_insert_ne in Hq' by exact Hne. apply Hacc, Hq'. }
  intros Hp. apply (H tickers ∅); [|rewrite Hp; eauto].
  rewrite lookup_empty. intros [? Hx]. discriminate Hx.
Qed.

(** X11. Every price of the map built from the tickers is filed under a name of
    one to five capital letters, and is the number read from the price of a
    ticker whose symbol is that name followed by USDT and whose price text
    is not empty. *)
Theorem price_map_sound (parseFloat : string → Q)
    (tickers : list AsterPriceFeed.ticker) (coin : string) (p : Q) :
  AsterPriceFeed.price_map parseFloat tickers !! coin = Some p →
  coin_name coin
  ∧ ∃ price,
      AsterPriceFeed.Ticker (Some (coin +:+ "USDT")) (Some price) ∈ tickers
      ∧ price ≠ EmptyString ∧ p = parseFloat price.
Proof.
  unfold AsterPriceFeed.price_map.
  assert (H : ∀ ts (acc : gmap string Q),
    (∀ p, acc !! coin = Some p →
       coin_name coin
       ∧ ∃ price,
           AsterPriceFeed.Ticker (Some (coin +:+ "USDT")) (Some price) ∈ tickers
           ∧ price ≠ EmptyString ∧ p = parseFloat price) →
    (∀ t, t ∈ ts → t ∈ tickers) →
    ∀ p, fold_left (AsterPriceFeed.record_ticker parseFloat) ts acc !! coin = Some p →
       coin_name coin
       ∧ ∃ price,
           AsterPriceFeed.Ticker (Some (coin +:+ "USDT")) (Some price) ∈ tickers
           ∧ price ≠ EmptyString ∧ p = parseFloat price).
  { induction ts as [|t ts IH]; intros acc Hacc Hsub q Hq; simpl in Hq.
    - apply Hacc, Hq.
    - eapply IH; [| |exact Hq].
      + intros q' Hq'.
        destruct (record_ticker_cases parseFloat acc t)
          as [E|(c & price & -> & Hname & Hprice & E)]; rewrite E in Hq'.
        * apply Hacc, Hq'.
        * destruct (decide (c = coin)) as [->|Hne].
          -- rewrite lookup_insert_eq in Hq'. injection Hq' as <-.
             split; [exact Hname|]. exists price.
             split; [apply Hsub; left|]. split; [exact Hprice|reflexivity].
          -- rewrite lookup_insert_ne in Hq' by exact Hne. apply Hacc, Hq'.
      + intros t' Ht'. apply Hsub. right. exact Ht'. }
  intros Hp. eapply (H tickers ∅); [| |exact Hp].
  - intros q Hq. rewrite lookup_empty in Hq. discriminate Hq.
  - auto.
Qed.

Lemma price_map_sound_witness :
  coin_name "BTC"
  ∧ ∃ price,
      AsterPriceFeed.Ticker (Some ("BTC" +:+ "USDT")) (Some price)
        ∈ [AsterPriceFeed.Ticker (Some "BTCUSDT") (Some "50000")]
      ∧ price ≠ EmptyString ∧ 50000%Q = (fun _ => 50000%Q) price.
Proof.
  apply (price_map_sound (fun _ => 50000%Q)
           [AsterPriceFeed.Ticker (Some "BTCUSDT") (Some "50000")] "BTC" 50000%Q).
  reflexivity.
Defined.

(** X12. A later ticker replaces an earlier one of the same symbol: after a
    ticker with a well-formed symbol and a price text that is not empty,
    the map holds the number read from that text under the coin, and the
    prices of all other coins are what they were before it. *)
Theorem price_map_latest (parseFloat : string → Q)
    (tickers : list AsterPriceFeed.ticker) (coin price : string) :
  coin_name coin → price ≠ EmptyString →
  AsterPriceFeed.price_map parseFloat
    (tickers ++ [AsterPriceFeed.Ticker (Some (coin +:+ "USDT")) (Some price)]) !! coin
  = Some (parseFloat price)
  ∧ ∀ other, other ≠ coin →
      AsterPriceFeed.price_map parseFloat
        (tickers ++ [AsterPriceFeed.Ticker (Some (coin +:+ "USDT")) (Some price)]) !! other
      = AsterPriceFeed.price_map parseFloat tickers !! other.
Proof.
  intros [Hup Hlen] Hprice.
  unfold AsterPriceFeed.price_map. rewrite fold_left_app.
  cbn [fold_left]. unfold AsterPriceFeed.record_ticker at 1 3.
  assert (Hs : AsterPriceFeed.truthy (Some (coin +:+ "USDT")) = true).
  { destruct coin; [simpl in Hlen; lia|reflexivity]. }
  assert (Hp : AsterPriceFeed.truthy (Some price) = true).
  { destruct price; [congruence|reflexivity]. }
  rewrite Hs, Hp. cbn [andb default from_option id].
  rewrite match_coin_complete by (exact Hup || (destruct coin; [simpl in Hlen; lia|discriminate])).
  destruct (Nat.leb_spec (String.length coin) 5) as [_|Hgt]; [|lia].
  split.
  - apply lookup_insert_eq.
  - intros other Hne. apply lookup_insert_ne. congruence.
Qed.

Lemma price_map_latest_witness :
  AsterPriceFeed.price_map (fun s => if String.eqb s "2" then 2%Q else 1%Q)
    ([AsterPriceFeed.Ticker (Some "ETHUSDT") (Some "1")]
     ++ [AsterPriceFeed.Ticker (Some ("ETH" +:+ "USDT")) (Some "2")]) !! "ETH"
  = Some 2%Q.
Proof.
  apply (price_map_latest (fun s => if String.eqb s "2" then 2%Q else 1%Q)
           [AsterPriceFeed.Ticker (Some "ETHUSDT") (Some "1")] "ETH" "2").
  - split; [reflexivity|simpl; lia].
  - discriminate.
Defined.


(** X13. [fetchAllPrices] returns what the cache holds once it is done.  While
    the cache is younger than five seconds it is returned as it is, without
    asking the endpoint; the call throws only when the endpoint gives no
    array and the cache holds no price at all, so prices of any age are
    served once some have been cached. *)
Theorem fetchAllPrices_cache (parseFloat : string → Q)
    (priceCache : AsterPriceFeed.PriceCache) (now : Z)
    (reply : AsterPriceFeed.feed_reply) :
  let r := AsterPriceFeed.fetchAllPrices parseFloat priceCache now reply in
  (∀ prices, AsterPriceFeed.returned r = Some prices →
     AsterPriceFeed.data (AsterPriceFeed.cache r) = prices)
  ∧ ((0 < AsterPriceFeed.cache_timestamp priceCache)%Z →
     (now - AsterPriceFeed.cache_timestamp priceCache < 5000)%Z →
     AsterPriceFeed.returned r = Some (AsterPriceFeed.data priceCache)
     ∧ AsterPriceFeed.cache r = priceCache
     ∧ AsterPriceFeed.requested r = false
     ∧ AsterPriceFeed.logged r = [])
  ∧ (AsterPriceFeed.returned r = None →
     AsterPriceFeed.data priceCache = ∅
     ∧ (∀ tickers, reply ≠ AsterPriceFeed.FeedArray tickers)
     ∧ AsterPriceFeed.cache r = priceCache
     ∧ AsterPriceFeed.logged r = [AsterPriceFeed.LogFetchError])
  ∧ (AsterPriceFeed.requested r = true →
     ∀ tickers, reply = AsterPriceFeed.FeedArray tickers →
       AsterPriceFeed.cache r
       = {| AsterPriceFeed.data := AsterPriceFeed.price_map parseFloat tickers;
            AsterPriceFeed.cache_timestamp := now |}).
Proof.
  intros r. unfold r, AsterPriceFeed.fetchAllPrices, AsterPriceFeed.CACHE_DURATION.
  destruct (0 <? AsterPriceFeed.cache_timestamp priceCache)%Z eqn:Hpos;
    [destruct (now - AsterPriceFeed.cache_timestamp priceCache <? 5000)%Z eqn:Hyoung|];
    cbn [andb].
  - cbn. split; [intros ? [= <-]; reflexivity|].
    split; [intros _ _; repeat split|]. split; intros H; discriminate H.
  - apply Z.ltb_ge in Hyoung.
    destruct reply as [| |tickers];
      [destruct (0 <? length (map_to_list (AsterPriceFeed.data priceCache)))%nat eqn:Hn ..|];
      cbn.
    all: split; [intros ? [= <-]; reflexivity || (intros ? H; discriminate H)|].
    all: split; [intros _ Hlt; lia|].
    all: split; [try (intros H; discriminate H)|].
    all: try (intros _ tickers' H; first [discriminate H | injection H as <-; reflexivity]).
    all: intros _; apply Nat.ltb_ge in Hn;
      (split; [apply map_to_list_empty_iff;
               destruct (map_to_list (AsterPriceFeed.data priceCache)); [reflexivity|simpl in Hn; lia]|]);
      (split; [intros tickers; discriminate|split; reflexivity]).
  - apply Z.ltb_ge in Hpos.
    destruct reply as [| |tickers];
      [destruct (0 <? length (map_to_list (AsterPriceFeed.data priceCache)))%nat eqn:Hn ..|];
      cbn.
    all: split; [intros ? [= <-]; reflexivity || (intros ? H; discriminate H)|].
    all: split; [intros Hlt _; lia|].
    all: split; [try (intros H; discriminate H)|].
    all: try (intros _ tickers' H; first [discriminate H | injection H as <-; reflexivity]).
    all: intros _; apply Nat.ltb_ge in Hn;
      (split; [apply map_to_list_empty_iff;
               destruct (map_to_list (AsterPriceFeed.data priceCache)); [reflexivity|simpl in Hn; lia]|]);
      (split; [intros tickers; discriminate|split; reflexivity]).
Qed.

Lemma fetchAllPrices_cache_witness :
  AsterPriceFeed.returned
    (AsterPriceFeed.fetchAllPrices (fun _ => 1%Q)
       {| AsterPriceFeed.data := {[ "BTC" := 50000%Q ]};
          AsterPriceFeed.cache_timestamp := 1000 |}
       5999 AsterPriceFeed.FeedRejects)
  = Some {[ "BTC" := 50000%Q ]}.
Proof.
  destruct (fetchAllPrices_cache (fun _ => 1%Q)
              {| AsterPriceFeed.data := {[ "BTC" := 50000%Q ]};
                 AsterPriceFeed.cache_timestamp := 1000 |}
              5999 AsterPriceFeed.FeedRejects) as (_ & Hhit & _).
  apply Hhit; simpl; lia.
Defined.

(** X14. Two calls in a row: when a call at a time after the epoch fetched the
    tickers, a call less than five seconds later returns the same prices
    without asking the endpoint, whatever the endpoint would answer by
    then. *)
Theorem fetchAllPrices_then_cached (parseFloat : string → Q)
    (priceCache : AsterPriceFeed.PriceCache) (now later : Z)
    (tickers : list AsterPriceFeed.ticker) (reply : AsterPriceFeed.feed_reply) :
  AsterPriceFeed.requested
    (AsterPriceFeed.fetchAllPrices parseFloat priceCache now
       (AsterPriceFeed.FeedArray tickers)) = true →
  (0 < now)%Z → (later - now < 5000)%Z →
  let first := AsterPriceFeed.fetchAllPrices parseFloat priceCache now
                 (AsterPriceFeed.FeedArray tickers) in
  let second := AsterPriceFeed.fetchAllPrices parseFloat (AsterPriceFeed.cache first)
                  later reply in
  AsterPriceFeed.returned first = Some (AsterPriceFeed.price_map parseFloat tickers)
  ∧ AsterPriceFeed.returned second = Some (AsterPriceFeed.price_map parseFloat tickers)
  ∧ AsterPriceFeed.requested second = false
  ∧ AsterPriceFeed.cache second = AsterPriceFeed.cache first.
Proof.
  intros Hreq Hnow Hlater first second. unfold second, first in *.
  clear first second.
  assert (Hfirst : AsterPriceFeed.fetchAllPrices parseFloat priceCache now
                     (AsterPriceFeed.FeedArray tickers)
                   = {| AsterPriceFeed.returned := Some (AsterPriceFeed.price_map parseFloat tickers);
                        AsterPriceFeed.cache :=
                          {| AsterPriceFeed.data := AsterPriceFeed.price_map parseFloat tickers;
                             AsterPriceFeed.cache_timestamp := now |};
                        AsterPriceFeed.requested := true;
                        AsterPriceFeed.logged := [] |}).
  { unfold AsterPriceFeed.fetchAllPrices in *.
    destruct (_ && _)%bool; [discriminate Hreq|reflexivity]. }
  rewrite Hfirst. cbn [AsterPriceFeed.returned AsterPriceFeed.cache].
  split; [reflexivity|].
  unfold AsterPriceFeed.fetchAllPrices, AsterPriceFeed.CACHE_DURATION.
  cbn [AsterPriceFeed.cache_timestamp AsterPriceFeed.data].
  destruct (Z.ltb_spec 0 now) as [_|]; [|lia].
  destruct (Z.ltb_spec (later - now) 5000) as [_|]; [|lia].
  repeat split.
Qed.

Lemma fetchAllPrices_then_cached_witness :
  AsterPriceFeed.requested
    (AsterPriceFeed.fetchAllPrices (fun _ => 50000%Q)
       (AsterPriceFeed.cache
          (AsterPriceFeed.fetchAllPrices (fun _ => 50000%Q) AsterPriceFeed.initial_cache 1000
             (AsterPriceFeed.FeedArray [AsterPriceFeed.Ticker (Some "BTCUSDT") (Some "50000")])))
       4000 AsterPriceFeed.FeedRejects)
  = false.
Proof.
  apply (fetchAllPrices_then_cached (fun _ => 50000%Q) AsterPriceFeed.initial_cache 1000 4000
           [AsterPriceFeed.Ticker (Some "BTCUSDT") (Some "50000")] AsterPriceFeed.FeedRejects).
  - reflexivity.
  - lia.
  - lia.
Defined.






(** ** Positions as the agents route shows them *)

Lemma enrichPosition_pnlAbsolute (p : Doc.ActivePosition) (marketPrices : gmap string Q) :
  (AgentsView.shown_pnlAbsolute (AgentsView.enrichPosition p marketPrices)
   == position_pnl marketPrices p)%Q.
Proof.
  unfold AgentsView.enrichPosition, position_pnl, Num.falsy.
  destruct (marketPrices !! Doc.coin p) as [x|]; [|reflexivity].
  destruct (Qeq_bool x 0); [reflexivity|].
  cbn [AgentsView.shown_pnlAbsolute]. rewrite or_zero_eq.
  unfold AsterPrices.calculatePnL. destruct (Doc.signal p); unfold Qdiv; ring.
Qed.

Lemma route_calculateUnrealizedPnL_sum (activePositions : list Doc.ActivePosition)
    (marketPrices : gmap string Q) :
  (AgentsRoute.calculateUnrealizedPnL activePositions marketPrices
   == Spec.sum (List.map (position_pnl marketPrices) activePositions))%Q.
Proof.
  unfold AgentsRoute.calculateUnrealizedPnL.
  set (step := fun (totalUnrealizedPnL : Q) (position : Doc.ActivePosition) => _).
  assert (H : ∀ acc,
    (fold_left step activePositions acc
     == acc + Spec.sum (List.map (position_pnl marketPrices) activePositions))%Q).
  { induction activePositions as [|p ps IH]; intros acc; simpl.
    - ring.
    - rewrite IH. unfold step, position_pnl, Num.falsy.
      destruct (marketPrices !! Doc.coin p) as [x|]; [|ring].
      destruct (Qeq_bool x 0); [ring|].
      unfold AgentsRoute.pnlAbsolute. rewrite route_pnlPercent_calculatePnL, or_zero_eq.
      ring. }
  rewrite H. ring.
Qed.

(** X16. The unrealized PnL the agents route computes is the sum of the
    absolute PnL it shows on the positions one by one, and it is the number
    the balance calculator computes from the same positions and prices. *)
Theorem unrealized_pnl_is_sum_of_shown (activePositions : list Doc.ActivePosition)
    (marketPrices : gmap string Q) :
  (AgentsRoute.calculateUnrealizedPnL activePositions marketPrices
   == Spec.sum (List.map (fun p => AgentsView.shown_pnlAbsolute
                                     (AgentsView.enrichPosition p marketPrices))
                         activePositions))%Q
  ∧ (BalanceCalculator.calculateUnrealizedPnL activePositions marketPrices
     == AgentsRoute.calculateUnrealizedPnL activePositions marketPrices)%Q.
Proof.
  split.
  - rewrite route_calculateUnrealizedPnL_sum.
    apply sum_ext. intros p. symmetry. apply enrichPosition_pnlAbsolute.
  - rewrite calculateUnrealizedPnL_sum, route_calculateUnrealizedPnL_sum. reflexivity.
Qed.

(** X17. A position whose coin is not a name of one to five capital letters is
    never priced, whatever the endpoint answers, and so is a position of any
    coin when the endpoint gives no array: the route shows it at its entry
    price with a PnL of zero, and it adds nothing to the unrealized PnL. *)
Theorem unpriced_position_shows_no_pnl (parseFloat : string → Q)
    (reply : AsterPriceFeed.feed_reply) (p : Doc.ActivePosition) :
  ¬ coin_name (Doc.coin p) ∨ (∀ tickers, reply ≠ AsterPriceFeed.FeedArray tickers) →
  AgentsView.enrichPosition p (AgentsView.getMarketPrices parseFloat reply)
  = {| AgentsView.position := p; AgentsView.shown_price := Doc.entry_price p;
       AgentsView.price_change := 0; AgentsView.shown_pnl := 0;
       AgentsView.shown_pnlAbsolute := 0 |}
  ∧ (AgentsRoute.calculateUnrealizedPnL [p] (AgentsView.getMarketPrices parseFloat reply)
     == 0)%Q.
Proof.
  intros H.
  assert (Hnone : AgentsView.getMarketPrices parseFloat reply !! Doc.coin p = None).
  { destruct reply as [| |tickers]; try apply lookup_empty.
    destruct H as [H|H]; [|exfalso; eapply H; reflexivity].
    simpl. destruct (AsterPriceFeed.price_map parseFloat tickers !! Doc.coin p) eqn:E;
      [|reflexivity].
    exfalso. apply H. eapply price_map_sound_aux, E. }
  unfold AgentsView.enrichPosition, AgentsRoute.calculateUnrealizedPnL.
  simpl. rewrite Hnone. split; reflexivity.
Qed.

Lemma unpriced_position_shows_no_pnl_witness :
  AgentsView.shown_price
    (AgentsView.enrichPosition demo_long
       (AgentsView.getMarketPrices (fun _ => 1%Q) AsterPriceFeed.FeedNotArray))
  = Doc.entry_price demo_long.
Proof.
  destruct (unpriced_position_shows_no_pnl (fun _ => 1%Q) AsterPriceFeed.FeedNotArray
              demo_long) as [E _].
  - right. intros tickers. discriminate.
  - rewrite E. reflexivity.
Defined.


(** ** The paper balance as trades arrive *)

Lemma find_exit_trades_app (trades more : list Doc.Trade) (id : string) :
  BalanceCalculator.find_exit_trades (trades ++ more) id
  = BalanceCalculator.find_exit_trades trades id
    ++ BalanceCalculator.find_exit_trades more id.
Proof. apply List.filter_app. Qed.

Lemma sum_app (xs ys : list Q) :
  (Spec.sum (xs ++ ys) == Spec.sum xs + Spec.sum ys)%Q.
Proof.
  induction xs as [|x xs IH]; simpl; [ring|]. rewrite IH. ring.
Qed.

(** X18. Recording one more trade moves the paper balance by the trade's
    absolute PnL when it is an exit trade of the agent, and leaves it where
    it was otherwise: entry trades and the trades of other agents do not
    count. *)
Theorem balance_after_trade (trades : list Doc.Trade) (t : Doc.Trade)
    (agent : Doc.Agent) (currentPrices : gmap string Q) :
  (BalanceCalculator.calculateAgentBalance (trades ++ [t]) agent currentPrices
   == BalanceCalculator.calculateAgentBalance trades agent currentPrices
      + (if String.eqb (Doc.agentId t) (Doc._id agent)
            && bool_decide (Doc.tradeType t = Doc.exit)
         then Doc.pnlAbsolute t else 0))%Q.
Proof.
  unfold BalanceCalculator.calculateAgentBalance.
  rewrite !getRealizedPnL_sum, find_exit_trades_app, List.map_app, sum_app.
  unfold BalanceCalculator.find_exit_trades at 2. simpl.
  destruct (_ && _); simpl; ring.
Qed.

Lemma ratio_bounds (w n : Z) :
  (0 <= w <= n)%Z → (0 < n)%Z →
  (0 <= inject_Z w / inject_Z n * 100)%Q ∧ (inject_Z w / inject_Z n * 100 <= 100)%Q.
Proof.
  intros [Hw Hwn] Hn.
  assert (Hn' : (0 < inject_Z n)%Q) by (rewrite Zlt_Qlt in Hn; exact Hn).
  assert (H0 : (0 <= inject_Z w / inject_Z n)%Q).
  { apply Qle_shift_div_l; [exact Hn'|]. rewrite Qmult_0_l.
    rewrite Zle_Qle in Hw; exact Hw. }
  assert (H1 : (inject_Z w / inject_Z n <= 1)%Q).
  { apply Qle_shift_div_r; [exact Hn'|]. rewrite Qmult_1_l.
    rewrite Zle_Qle in Hwn; exact Hwn. }
  split; lra.
Qed.

(** X19. [updateAgentBalance] keeps the stored numbers consistent: the balance
    is 1000 plus pnlAbsolute and pnl is pnlAbsolute as a percentage of 1000,
    and the open positions are not touched.  With at least one exit trade
    the win rate is the share of exit trades with positive pnl, between 0
    and 100, and totalTrades counts the exit trades only; with none, win
    rate and totalTrades stay as they were. *)
Theorem updateAgentBalance_stats (trades : list Doc.Trade) (agent : Doc.Agent)
    (currentPrices : gmap string Q) :
  let updated := BalanceCalculator.updateAgentBalance trades agent currentPrices in
  let exitTrades := BalanceCalculator.find_exit_trades trades (Doc._id agent) in
  (Doc.balance updated == 1000 + Doc.agent_pnlAbsolute updated)%Q
  ∧ (Doc.agent_pnl updated == Doc.agent_pnlAbsolute updated / 10)%Q
  ∧ Doc.activePositions updated = Doc.activePositions agent
  ∧ (exitTrades = [] →
     Doc.winRate updated = Doc.winRate agent
     ∧ Doc.totalTrades updated = Doc.totalTrades agent)
  ∧ (exitTrades ≠ [] →
     (0 <= Doc.winRate updated)%Q ∧ (Doc.winRate updated <= 100)%Q
     ∧ Doc.totalTrades updated = Z.of_nat (length exitTrades)
     ∧ ((∀ t, t ∈ exitTrades → (Doc.pnl t <= 0)%Q) → (Doc.winRate updated == 0)%Q)).
Proof.
  intros updated exitTrades. unfold updated, BalanceCalculator.updateAgentBalance.
  fold exitTrades. cbn [Doc.balance Doc.agent_pnlAbsolute Doc.agent_pnl
                        Doc.activePositions Doc.winRate Doc.totalTrades].
  unfold BalanceCalculator.INITIAL_BALANCE.
  split; [ring|]. split; [field|]. split; [reflexivity|].
  split.
  - intros ->. split; reflexivity.
  - intros Hne.
    destruct exitTrades as [|t ts] eqn:E; [congruence|].
    rewrite <- E. assert (Hlen : (0 < length exitTrades)%nat) by (rewrite E; simpl; lia).
    destruct (Nat.eqb_spec (length exitTrades) 0) as [H0|_]; [lia|]. cbn [negb].
    pose proof (List.filter_length_le (fun t => Num.gt (Doc.pnl t) 0) exitTrades) as Hle.
    destruct (ratio_bounds
                (Z.of_nat (length (List.filter (fun t => Num.gt (Doc.pnl t) 0) exitTrades)))
                (Z.of_nat (length exitTrades))) as [Hlo Hhi]; [lia|lia|].
    split; [exact Hlo|]. split; [exact Hhi|]. split; [reflexivity|].
    intros Hall.
    assert (Hnil : List.filter (fun t => Num.gt (Doc.pnl t) 0) exitTrades = []).
    { clear -Hall. induction exitTrades as [|x xs IH]; [reflexivity|].
      simpl. unfold Num.gt at 1.
      destruct (Qle_bool (Doc.pnl x) 0) eqn:Hx.
      - simpl. apply IH. intros t' Ht'. apply Hall. right. exact Ht'.
      - exfalso. assert (Hx' : Qle_bool (Doc.pnl x) 0 = true)
          by (apply Qle_bool_iff, Hall; left).
        congruence. }
    rewrite Hnil. simpl. unfold Qdiv. ring.
Qed.

Lemma updateAgentBalance_stats_witness :
  Doc.winRate (BalanceCalculator.updateAgentBalance [] (demo_agent []) ∅)
  = Doc.winRate (demo_agent []).
Proof.
  destruct (updateAgentBalance_stats [] (demo_agent []) ∅) as (_ & _ & _ & Hnone & _).
  apply Hnone. reflexivity.
Defined.


(** ** The simulated engine *)

Lemma check_exits_shape (activePositions : list Doc.ActivePosition)
    (prices : gmap string Q) (c : string) (d : TradingEngine.trade_signal_args) :
  TradingEngine.check_exits activePositions prices !! c = Some d →
  ∃ position x,
    position ∈ activePositions ∧ Doc.coin position = c
    ∧ prices !! c = Some x ∧ d = TradingEngine.exit_decision position x.
Proof.
  unfold TradingEngine.check_exits.
  set (step := fun (decisions : gmap string TradingEngine.trade_signal_args)
                   (position : Doc.ActivePosition) => _).
  assert (H : ∀ ps (acc : gmap string TradingEngine.trade_signal_args),
    (∀ d, acc !! c = Some d →
       ∃ position x, position ∈ activePositions ∧ Doc.coin position = c
                     ∧ prices !! c = Some x ∧ d = TradingEngine.exit_decision position x) →
    (∀ p, p ∈ ps → p ∈ activePositions) →
    ∀ d, fold_left step ps acc !! c = Some d →
       ∃ position x, position ∈ activePositions ∧ Doc.coin position = c
                     ∧ prices !! c = Some x ∧ d = TradingEngine.exit_decision position x).
  { induction ps as [|p ps IH]; intros acc Hacc Hsub d' Hd'; simpl in Hd'.
    - apply Hacc, Hd'.
    - eapply IH; [| |exact Hd'].
      + intros d'' Hd''. unfold step in Hd''.
        destruct (prices !! Doc.coin p) as [x|] eqn:Hx; [|apply Hacc, Hd''].
        destruct (Num.falsy x); [apply Hacc, Hd''|].
        destruct (decide (Doc.coin p = c)) as [E|Hne].
        * rewrite E, lookup_insert_eq in Hd''. injection Hd'' as <-.
          exists p, x. split; [apply Hsub; left|]. rewrite <- E. auto.
        * rewrite lookup_insert_ne in Hd'' by exact Hne. apply Hacc, Hd''.
      + intros q Hq. apply Hsub. right. exact Hq. }
  intros Hd. eapply (H activePositions ∅); [| |exact Hd]; [|auto].
  intros d' Hd'. rewrite lookup_empty in Hd'. discriminate Hd'.
Qed.

Lemma existsb_holds_coin (agent : Doc.Agent) (c : string) :
  existsb (fun p => String.eqb (Doc.coin p) c) (Doc.activePositions agent) = false →
  ¬ holds_coin agent c.
Proof.
  intros H (p & Hin & Hc).
  assert (Ht : existsb (fun p => String.eqb (Doc.coin p) c) (Doc.activePositions agent) = true).
  { apply existsb_exists. exists p. split.
    - apply list_elem_of_In. exact Hin.
    - apply String.eqb_eq. exact Hc. }
  congruence.
Qed.

Lemma max_ge_l (a b : Q) : (a <= Num.max a b)%Q.
Proof.
  unfold Num.max. destruct (Qle_bool a b) eqn:E.
  - apply Qle_bool_iff. exact E.
  - apply Qle_refl.
Qed.

Lemma below_price (p s : Q) : (0 < p)%Q → (0 < s)%Q → (p * (1 - s / 100) < p)%Q.
Proof.
  intros Hp Hs. pose proof (Qmult_lt_0_compat _ _ Hp Hs) as H.
  setoid_replace (p * (1 - s / 100))%Q with (p - (p * s) * (1 # 100))%Q using relation Qeq by field.
  set (ps := (p * s)%Q) in *. lra.
Qed.

Lemma above_price (p s : Q) : (0 < p)%Q → (0 < s)%Q → (p < p * (1 + s / 100))%Q.
Proof.
  intros Hp Hs. pose proof (Qmult_lt_0_compat _ _ Hp Hs) as H.
  setoid_replace (p * (1 + s / 100))%Q with (p + (p * s) * (1 # 100))%Q using relation Qeq by field.
  set (ps := (p * s)%Q) in *. lra.
Qed.

Lemma leverage_drawn (r : Q) :
  (0 <= r)%Q → (r < 1)%Q →
  In (nth (Z.to_nat (Qfloor (r * 6))) TradingEngine.LEVERAGE_OPTIONS 0%Q)
     TradingEngine.LEVERAGE_OPTIONS.
Proof.
  intros H0 H1.
  assert (Hlo : (0 <= Qfloor (r * 6))%Z).
  { apply (Qfloor_resp_le 0 (r * 6)). lra. }
  assert (Hhi : (Qfloor (r * 6) < 6)%Z).
  { rewrite Zlt_Qlt. eapply Qle_lt_trans; [apply Qfloor_le|]. change (inject_Z 6) with 6%Q. lra. }
  apply nth_In. change (length TradingEngine.LEVERAGE_OPTIONS) with 6%nat. lia.
Qed.


Lemma gt_true (x y : Q) : Num.gt x y = true → (y < x)%Q.
Proof.
  unfold Num.gt. intros H. apply Qnot_le_lt. intros Hle.
  apply Qle_bool_iff in Hle. rewrite Hle in H. discriminate H.
Qed.

Lemma falsy_false (x : Q) : Num.falsy x = false → ¬ (x == 0)%Q.
Proof.
  unfold Num.falsy. intros H H0. apply Qeq_bool_iff in H0. congruence.
Qed.

Lemma exit_decision_shape (agent : Doc.Agent) (marketData : TradingEngine.MarketData)
    (position : Doc.ActivePosition) (x : Q) :
  position ∈ Doc.activePositions agent →
  TradingEngine.prices marketData !! Doc.coin position = Some x →
  decision_shape agent marketData (Doc.coin position)
    (TradingEngine.exit_decision position x).
Proof.
  intros Hin Hx. unfold TradingEngine.exit_decision.
  assert (Hh : holds_coin agent (Doc.coin position)) by (exists position; auto).
  destruct (_ || _); simpl; auto.
Qed.

Lemma entry_step_shape (agent : Doc.Agent) (marketData : TradingEngine.MarketData)
    (random : nat → Q) (st : TradingEngine.entry_state) (c : string) :
  (∀ i, (0 <= random i)%Q ∧ (random i < 1)%Q) →
  (∀ k d, st.1 !! k = Some d → decision_shape agent marketData k d) →
  ∀ k d, (TradingEngine.entry_step agent marketData random st c).1 !! k = Some d →
         decision_shape agent marketData k d.
Proof.
  intros Hrandom Hinv k d Hk. destruct st as [decisions i].
  unfold TradingEngine.entry_step in Hk. cbn [fst] in Hinv.
  destruct (existsb _ _) eqn:Hex; [apply Hinv, Hk|].
  apply existsb_holds_coin in Hex.
  destruct (TradingEngine.prices marketData !! c) as [p|] eqn:Hp; [|apply Hinv, Hk].
  destruct (Num.falsy p) eqn:Hf; [apply Hinv, Hk|].
  apply falsy_false in Hf.
  assert (Hwait : <[c := TradingEngine.Wait c]> decisions !! k = Some d →
                  decision_shape agent marketData k d).
  { intros Hj.
    destruct (decide (c = k)) as [<-|Hne].
    - rewrite lookup_insert_eq in Hj. injection Hj as <-. simpl.
      split; [reflexivity|]. split; [exact Hex|]. rewrite Hp. eauto.
    - rewrite lookup_insert_ne in Hj by exact Hne. apply Hinv, Hj. }
  destruct (Num.gt (random i * 0.4 + 0.6) 0.6) eqn:Hconf;
    [destruct (Num.gt (random (S i)) 0.7) eqn:Hshould|];
    cbv beta iota zeta delta [fst negb] in Hk; try (apply Hwait, Hk).
  destruct (decide (c = k)) as [<-|Hne];
    [|rewrite lookup_insert_ne in Hk by exact Hne; apply Hinv, Hk].
  clear Hwait. rewrite lookup_insert_eq in Hk.
  apply (inj Some) in Hk. rewrite <- Hk. clear Hk d. unfold decision_shape.
  apply gt_true in Hconf.
  destruct (Hrandom i) as [_ Hi1].
  destruct (Hrandom (S (S (S i)))) as [Hl0 Hl1].
  split; [reflexivity|]. split; [exact Hex|]. split; [exact Hp|].
  split; [exact Hf|]. split; [reflexivity|]. split; [reflexivity|].
  split; [apply leverage_drawn; assumption|].
  split; [exact Hconf|]. split; [lra|]. split; [reflexivity|].
  eexists _, _. split; [apply max_ge_l|]. split; [apply max_ge_l|].
  destruct (Num.gt (random (S (S i))) 0.5); split; reflexivity.
Qed.

Lemma simulated_decisions_invariant (agent : Doc.Agent)
    (marketData : TradingEngine.MarketData) (random : nat → Q)
    (P : string → TradingEngine.trade_signal_args → Prop) :
  (∀ position x,
     position ∈ Doc.activePositions agent →
     TradingEngine.prices marketData !! Doc.coin position = Some x →
     P (Doc.coin position) (TradingEngine.exit_decision position x)) →
  (∀ (st : TradingEngine.entry_state) c,
     (∀ k d, st.1 !! k = Some d → P k d) →
     ∀ k d, (TradingEngine.entry_step agent marketData random st c).1 !! k = Some d → P k d) →
  ∀ c d,
    TradingEngine.generateAgentDecision None agent marketData random !! c = Some d →
    P c d.
Proof.
  intros Hexit Hstep c d Hd. unfold TradingEngine.generateAgentDecision in Hd.
  assert (Hexits : ∀ k d',
    TradingEngine.check_exits (Doc.activePositions agent)
      (TradingEngine.prices marketData) !! k = Some d' → P k d').
  { intros k d' Hk. apply check_exits_shape in Hk as (p & x & Hin & <- & Hx & ->).
    apply Hexit; assumption. }
  destruct (Num.ge _ 70); [apply Hexits, Hd|].
  revert Hd. generalize ((map_to_list (TradingEngine.prices marketData)).*1).
  intros coins.
  assert (H : ∀ st : TradingEngine.entry_state,
    (∀ k d', st.1 !! k = Some d' → P k d') →
    (fold_left (TradingEngine.entry_step agent marketData random) coins st).1 !! c = Some d →
    P c d).
  { induction coins as [|coin coins IH]; intros st Hst Hd; simpl in Hd.
    - apply Hst, Hd.
    - eapply IH; [|exact Hd]. apply Hstep. exact Hst. }
  apply H. exact Hexits.
Qed.

(** X20. Every decision of the simulated engine is filed under its own coin.
    A coin the agent holds only ever gets a close or a hold, so no position
    is added to one that is open; a wait or an open is for a priced coin
    not held.  With draws in [0, 1) an open enters at the price of the
    coin, its leverage is one of the six options, its confidence is above
    0.6 and at most 1, its risk is 5 + 10 * confidence percent of the
    balance, its size risk times leverage; its stop is the entry moved by
    at least 0.3 percent against its direction and its target the entry
    moved by at least 0.5 percent with it. *)
Theorem simulated_decisions_shape (agent : Doc.Agent)
    (marketData : TradingEngine.MarketData) (random : nat → Q)
    (c : string) (d : TradingEngine.trade_signal_args) :
  (∀ i, (0 <= random i)%Q ∧ (random i < 1)%Q) →
  TradingEngine.generateAgentDecision None agent marketData random !! c = Some d →
  decision_shape agent marketData c d.
Proof.
  intros Hrandom.
  apply (simulated_decisions_invariant agent marketData random
           (decision_shape agent marketData)).
  - intros position x Hin Hx. apply exit_decision_shape; assumption.
  - intros st coin Hst. apply entry_step_shape; assumption.
Qed.

Lemma simulated_decisions_shape_witness :
  ∃ d,
    TradingEngine.generateAgentDecision None (demo_agent []) btc_market demo_random
      !! "BTC" = Some d
    ∧ decision_shape (demo_agent []) btc_market "BTC" d.
Proof.
  eexists. split; [vm_compute; reflexivity|].
  apply (simulated_decisions_shape (demo_agent []) btc_market demo_random).
  - intros i. do 4 (destruct i as [|i]; [split; [unfold Qle; simpl; lia|reflexivity]|]).
    split; [unfold Qle; simpl; lia|reflexivity].
  - vm_compute. reflexivity.
Defined.


(** X21. From one cycle to the next: the position [executeTrade] makes of an
    open of the simulated engine at a positive price.  A long is held
    exactly while the price is strictly between its stop and its target.
    A short has its target below its stop, and the exit test, which does
    not look at the direction, closes it at whatever price the next cycle
    sees. *)
Theorem opened_position_next_check (agent : Doc.Agent)
    (marketData : TradingEngine.MarketData) (random : nat → Q) (c c' : string)
    (sig : Doc.Signal) (quantity entry target stop lev conf risk size : Q)
    (duration : string) (marketPrice : Q) (now : Z) :
  (∀ i, (0 <= random i)%Q ∧ (random i < 1)%Q) →
  TradingEngine.generateAgentDecision None agent marketData random !! c
  = Some (TradingEngine.Open c' sig quantity entry target stop lev conf risk size duration) →
  (0 < entry)%Q →
  ∃ position,
    TradingEngine.newPosition
      (TradingEngine.executeTrade agent
         (TradingEngine.Open c' sig quantity entry target stop lev conf risk size duration)
         marketPrice now) = Some position
    ∧ Doc.coin position = c ∧ Doc.signal position = sig
    ∧ match sig with
      | Doc.long =>
          ∀ x, TradingEngine.exit_decision position x = TradingEngine.Hold c
               ↔ (stop < x)%Q ∧ (x < target)%Q
      | Doc.short =>
          ∀ x, ∃ why, TradingEngine.exit_decision position x = TradingEngine.Close c x why
      end.
Proof.
  intros Hrandom Hd Hpos.
  apply (simulated_decisions_invariant agent marketData random
           (decision_shape agent marketData)) in Hd;
    [|intros position x Hin Hx; apply exit_decision_shape; assumption
     |intros st coin Hst; apply entry_step_shape; assumption].
  destruct Hd as (-> & _ & _ & _ & _ & _ & _ & _ & _ & _
                  & stopLossPercent & takeProfitPercent & Hsl & Htp & Hstop & Htarget).
  eexists. split; [reflexivity|]. split; [reflexivity|]. split; [reflexivity|].
  unfold TradingEngine.exit_decision, Num.le, Num.ge.
  cbn [Doc.stop_loss Doc.profit_target Doc.coin].
  destruct sig.
  - intros x. destruct (Qle_bool x stop) eqn:Hs; cbn [orb].
    + apply Qle_bool_iff in Hs. split; [intros H; discriminate H|]. intros [H _]. lra.
    + assert (Hs' : (stop < x)%Q).
      { apply Qnot_le_lt. intros H. apply Qle_bool_iff in H. congruence. }
      destruct (Qle_bool target x) eqn:Ht.
      * apply Qle_bool_iff in Ht. split; [intros H; discriminate H|]. intros [_ H]. lra.
      * split; [|reflexivity]. intros _. split; [exact Hs'|].
        apply Qnot_le_lt. intros H. apply Qle_bool_iff in H. congruence.
  - intros x.
    assert (Ht : (target < entry)%Q) by (rewrite Htarget; apply below_price; lra).
    assert (Hs : (entry < stop)%Q) by (rewrite Hstop; apply above_price; lra).
    destruct (Qle_bool x stop) eqn:Hx; cbn [orb]; [eexists; reflexivity|].
    assert (Hx' : (stop < x)%Q).
    { apply Qnot_le_lt. intros H. apply Qle_bool_iff in H. congruence. }
    assert (Hge : Qle_bool target x = true) by (apply Qle_bool_iff; lra).
    rewrite Hge. eexists; reflexivity.
Qed.

Lemma opened_position_next_check_witness :
  ∃ d position,
    TradingEngine.generateAgentDecision None (demo_agent []) btc_market demo_random
      !! "BTC" = Some d
    ∧ TradingEngine.newPosition (TradingEngine.executeTrade (demo_agent []) d 50000 0)
      = Some position
    ∧ Doc.coin position = "BTC".
Proof.
  assert (Hrandom : ∀ i, (0 <= demo_random i)%Q ∧ (demo_random i < 1)%Q).
  { intros i. do 4 (destruct i as [|i]; [split; [unfold Qle; simpl; lia|reflexivity]|]).
    split; [unfold Qle; simpl; lia|reflexivity]. }
  assert (Hpos : (0 < 50000)%Q) by reflexivity.
  destruct (opened_position_next_check (demo_agent []) btc_market demo_random "BTC" "BTC"
              Doc.long _ _ _ _ _ _ _ _ _ 50000 0 Hrandom eq_refl Hpos)
    as (position & Hnew & Hcoin & _).
  eexists _, position. split; [|split; [exact Hnew|exact Hcoin]]. reflexivity.
Defined.


(** ** Market data *)

Lemma check_exits_no_prices (activePositions : list Doc.ActivePosition) :
  TradingEngine.check_exits activePositions ∅ = ∅.
Proof.
  unfold TradingEngine.check_exits.
  generalize (∅ : gmap string TradingEngine.trade_signal_args).
  induction activePositions as [|p ps IH]; intros acc; simpl; [reflexivity|].
  rewrite lookup_empty. apply IH.
Qed.

(** X22. [getMarketData] never fails.  The volatility it reports has an entry
    for exactly the coins that are priced, two percent of the price each.
    When the feed throws, the market data is empty, and the simulated
    engine then decides nothing at all for the cycle: no entry, and no
    exit of the positions held either. *)
Theorem getMarketData_volatility (parseFloat : string → Q)
    (priceCache : AsterPriceFeed.PriceCache) (now : Z)
    (reply : AsterPriceFeed.feed_reply) (later : Z) :
  let feed := AsterPriceFeed.fetchAllPrices parseFloat priceCache now reply in
  let marketData := (EngineFeed.getMarketData parseFloat priceCache now reply later).1 in
  TradingEngine.md_timestamp marketData = later
  ∧ (∃ v, TradingEngine.volatility marketData = Some v
          ∧ ∀ c, v !! c = (fun price => price * 0.02)%Q <$> TradingEngine.prices marketData !! c)
  ∧ (∀ prices, AsterPriceFeed.returned feed = Some prices →
       TradingEngine.prices marketData = prices)
  ∧ (AsterPriceFeed.returned feed = None →
       TradingEngine.prices marketData = ∅
       ∧ ∀ agent random,
           TradingEngine.generateAgentDecision None agent marketData random = ∅)
  ∧ (EngineFeed.getMarketData parseFloat priceCache now reply later).2
    = AsterPriceFeed.cache feed.
Proof.
  intros feed marketData. unfold marketData, EngineFeed.getMarketData. fold feed.
  destruct (AsterPriceFeed.returned feed) as [prices|]; cbn [fst snd].
  - split; [reflexivity|]. split.
    { eexists. split; [reflexivity|]. intros c. apply lookup_fmap. }
    split; [intros ? [= <-]; reflexivity|].
    split; [intros H; discriminate H|reflexivity].
  - split; [reflexivity|]. split.
    { exists ∅. split; [reflexivity|]. intros c. cbn. rewrite !lookup_empty. reflexivity. }
    split; [intros ? H; discriminate H|].
    split; [|reflexivity]. intros _. split; [reflexivity|].
    intros agent random. unfold TradingEngine.generateAgentDecision.
    cbn [TradingEngine.prices]. rewrite check_exits_no_prices, map_to_list_empty.
    destruct (Num.ge _ 70); reflexivity.
Qed.

Lemma getMarketData_volatility_witness :
  TradingEngine.generateAgentDecision None (demo_agent [demo_long])
    (EngineFeed.getMarketData (fun _ => 1%Q) AsterPriceFeed.initial_cache 1000
       AsterPriceFeed.FeedRejects 1001).1 demo_random
  = ∅.
Proof.
  destruct (getMarketData_volatility (fun _ => 1%Q) AsterPriceFeed.initial_cache 1000
              AsterPriceFeed.FeedRejects 1001) as (_ & _ & _ & Hnone & _).
  apply Hnone. reflexivity.
Defined.


(** ** The snapshot history *)

#[local] Instance earlier_total : Total SnapshotHistory.earlier.
Proof. intros a b. unfold SnapshotHistory.earlier. lia. Qed.

#[local] Instance earlier_trans : Transitive SnapshotHistory.earlier.
Proof. intros a b c. unfold SnapshotHistory.earlier. lia. Qed.




(** X24. Without a usable cutoff the whole store is returned: for hours=all or
    all=true, and also when the hours parameter is not a number.  After a
    save of the snapshot route that found agents, such a history holds the
    snapshot of every agent, and nothing in it is older than 24 hours
    before that save. *)
Theorem GET_all_time_after_POST (parseInt : string → option Z)
    (hoursParam allParam : option string) (agents : list Doc.Agent)
    (store : list BalanceSnapshots.BalanceSnapshot) (saved_at now : Z) :
  hoursParam = Some "all" ∨ allParam = Some "true"
  ∨ parseInt (SnapshotHistory.or_text hoursParam "1") = None →
  agents ≠ [] →
  let history := SnapshotHistory.GET parseInt hoursParam allParam None
                   (BalanceSnapshots.POST agents store saved_at).2 now in
  history ≡ₚ (BalanceSnapshots.POST agents store saved_at).2
  ∧ (∀ agent, agent ∈ agents → BalanceSnapshots.snapshot_of saved_at agent ∈ history)
  ∧ (∀ s, s ∈ history →
       (saved_at - BalanceSnapshots.DAY_MS <= BalanceSnapshots.timestamp s)%Z).
Proof.
  intros Hall Hagents history.
  assert (Hquery : ∀ s, SnapshotHistory.query parseInt hoursParam allParam None now s = true).
  { intros s. unfold SnapshotHistory.query. cbn [SnapshotHistory.given].
    rewrite andb_true_r.
    destruct Hall as [->|[->|Hnan]].
    - reflexivity.
    - rewrite orb_true_r. reflexivity.
    - destruct (_ || _); [reflexivity|]. rewrite Hnan. reflexivity. }
  assert (Hperm : history ≡ₚ (BalanceSnapshots.POST agents store saved_at).2).
  { unfold history, SnapshotHistory.GET. rewrite merge_sort_Permutation.
    generalize ((BalanceSnapshots.POST agents store saved_at).2). intros l.
    induction l as [|x l IH]; [reflexivity|]. simpl. rewrite Hquery, IH. reflexivity. }
  split; [exact Hperm|].
  assert (Hstore : (BalanceSnapshots.POST agents store saved_at).2
                   = BalanceSnapshots.deleteMany_older (saved_at - BalanceSnapshots.DAY_MS)
                       (store ++ List.map (BalanceSnapshots.snapshot_of saved_at) agents)).
  { destruct agents; [congruence|reflexivity]. }
  split.
  - intros agent Hin. rewrite Hperm, Hstore.
    unfold BalanceSnapshots.deleteMany_older.
    rewrite list_elem_of_In. apply List.filter_In. split.
    + apply List.in_or_app. right. apply List.in_map. apply list_elem_of_In. exact Hin.
    + apply negb_true_iff, Z.ltb_ge. unfold BalanceSnapshots.DAY_MS. simpl. lia.
  - intros s Hs. rewrite Hperm, Hstore in Hs.
    unfold BalanceSnapshots.deleteMany_older in Hs.
    rewrite list_elem_of_In in Hs. apply List.filter_In in Hs as [_ Hs].
    apply negb_true_iff, Z.ltb_ge in Hs. exact Hs.
Qed.

Lemma GET_all_time_after_POST_witness :
  BalanceSnapshots.snapshot_of two_days (demo_agent [])
  ∈ SnapshotHistory.GET (fun _ => None) (Some "all") None None
      (BalanceSnapshots.POST [demo_agent []] [old_snapshot] two_days).2 0.
Proof.
  destruct (GET_all_time_after_POST (fun _ => None) (Some "all") None [demo_agent []]
              [old_snapshot] two_days 0) as (_ & Hin & _).
  - left. reflexivity.
  - discriminate.
  - apply Hin. left.
Defined.


(** ** Defaults of the Gemini adapter *)

Lemma or_else_truthy (v : option Decision.json) (d : Decision.json) :
  Decision.truthy (Some d) = true →
  Decision.truthy (Some (Decision.or_else v d)) = true.
Proof.
  intros Hd. unfold Decision.or_else.
  destruct (Decision.truthy v) eqn:Hv; [|exact Hd].
  destruct v as [x|]; [exact Hv|discriminate Hv].
Qed.

(** X25. Whatever the collaborator replies, the decision returned has an
    action, an order type and a reason that are not empty.  A confidence
    that is zero or missing in the reply is replaced by 0.5, so the
    decision carries confidence 0 only when it is the fallback of a failed
    reply.  The flag simulate is taken from the reply whenever the reply
    has the property, whatever it holds, and is true otherwise. *)
Theorem gemini_decision_defaults (r : Decision.reply) (now : string) :
  let d := Decision.generateGeminiTradingDecision r now in
  Decision.truthy (Some (Decision.action d)) = true
  ∧ Decision.truthy (Some (Decision.orderType d)) = true
  ∧ Decision.truthy (Some (Decision.reason d)) = true
  ∧ (Decision.truthy (Some (Decision.confidence d)) = false ↔ d = Decision.gemini_fallback now)
  ∧ (∀ decision, r = Decision.Parsed decision → decision ≠ Decision.JNull →
       (∀ v, Decision.get decision "simulate" = Some v → Decision.simulate d = v)
       ∧ (Decision.get decision "simulate" = None → Decision.simulate d = Decision.JBool true)
       ∧ (∀ q, Decision.get decision "confidence" = Some (Decision.JNum q) → (q == 0)%Q →
            Decision.confidence d = Decision.JNum 0.5)).
Proof.
  intros d. unfold d, Decision.generateGeminiTradingDecision.
  assert (Hfallback :
    Decision.truthy (Some (Decision.action (Decision.gemini_fallback now))) = true
    ∧ Decision.truthy (Some (Decision.orderType (Decision.gemini_fallback now))) = true
    ∧ Decision.truthy (Some (Decision.reason (Decision.gemini_fallback now))) = true
    ∧ (Decision.truthy (Some (Decision.confidence (Decision.gemini_fallback now))) = false
       ↔ Decision.gemini_fallback now = Decision.gemini_fallback now))
    by (repeat split; reflexivity).
  destruct r as [| | |decision].
  1-3: destruct Hfallback as (? & ? & ? & ?);
       repeat (split; [assumption|]); intros ? Hr; discriminate Hr.
  destruct (Decision.gemini_normalise decision now) as [n|] eqn:Hn.
  - assert (Hobj : decision ≠ Decision.JNull)
      by (intros ->; discriminate Hn).
    assert (En : n = {| Decision.action := Decision.or_else (Decision.get decision "action") (Decision.JStr "none");
              Decision.orderType := Decision.or_else (Decision.get decision "orderType") (Decision.JStr "market");
              Decision.symbol := Decision.or_else (Decision.get decision "symbol") Decision.JNull;
              Decision.side := Decision.or_else (Decision.get decision "side") Decision.JNull;
              Decision.size := Decision.or_else (Decision.get decision "size") Decision.JNull;
              Decision.sizePct := Decision.or_else (Decision.get decision "sizePct") Decision.JNull;
              Decision.price := Decision.or_else (Decision.get decision "price") Decision.JNull;
              Decision.leverage := Decision.or_else (Decision.get decision "leverage") Decision.JNull;
              Decision.takeProfit := Decision.or_else (Decision.get decision "takeProfit") Decision.JNull;
              Decision.stopLoss := Decision.or_else (Decision.get decision "stopLoss") Decision.JNull;
              Decision.clientOrderId := Decision.or_else (Decision.get decision "clientOrderId") Decision.JNull;
              Decision.reduceOnly := Decision.defined_or (Decision.get decision "reduceOnly") (Decision.JBool false);
              Decision.postOnly := Decision.defined_or (Decision.get decision "postOnly") (Decision.JBool false);
              Decision.timeInForce := Decision.or_else (Decision.get decision "timeInForce") Decision.JNull;
              Decision.simulate := Decision.defined_or (Decision.get decision "simulate") (Decision.JBool true);
              Decision.confidence := Decision.or_else (Decision.get decision "confidence") (Decision.JNum 0.5);
              Decision.reason := Decision.or_else (Decision.get decision "reason") (Decision.JStr "AI decision error");
              Decision.timestamp := Decision.or_else (Decision.get decision "timestamp") (Decision.JStr now) |}).
    { destruct decision; try congruence; injection Hn as <-; reflexivity. }
    assert (Hconf : Decision.truthy (Some (Decision.confidence n)) = true)
      by (rewrite En; apply or_else_truthy; reflexivity).
    split; [rewrite En; apply or_else_truthy; reflexivity|].
    split; [rewrite En; apply or_else_truthy; reflexivity|].
    split; [rewrite En; apply or_else_truthy; reflexivity|].
    split.
    { split; [intros Hc; congruence|]. intros ->. discriminate Hconf. }
    intros decision' [= <-] _. rewrite En. cbn [Decision.simulate Decision.confidence].
    split; [intros v ->; reflexivity|]. split; [intros ->; reflexivity|].
    intros q -> Hq. unfold Decision.or_else. cbn [Decision.truthy].
    apply Qeq_bool_iff in Hq. rewrite Hq. reflexivity.
  - destruct Hfallback as (? & ? & ? & ?). repeat (split; [assumption|]).
    intros decision' [= <-] Hne. destruct decision; try discriminate Hn. congruence.
Qed.

Lemma gemini_decision_defaults_witness :
  Decision.confidence
    (Decision.generateGeminiTradingDecision
       (Decision.Parsed (Decision.JObj [("confidence", Decision.JNum 0)])) "now")
  = Decision.JNum 0.5.
Proof.
  destruct (gemini_decision_defaults
              (Decision.Parsed (Decision.JObj [("confidence", Decision.JNum 0)])) "now")
    as (_ & _ & _ & _ & Hparsed).
  destruct (Hparsed (Decision.JObj [("confidence", Decision.JNum 0)]) eq_refl) as (_ & _ & Hzero).
  - discriminate.
  - apply (Hzero 0%Q); reflexivity.
Defined.

(** ** The cron over any trace *)

Lemma cron_step_invariant (s : TradingCron.state) (e : TradingCron.event) :
  NoDup (TradingCron.running s) →
  (∀ id, id ∈ TradingCron.running s → (id < TradingCron.started s)%nat) →
  NoDup (TradingCron.running (TradingCron.step s e))
  ∧ (∀ id, id ∈ TradingCron.running (TradingCron.step s e) →
           (id < TradingCron.started (TradingCron.step s e))%nat).
Proof.
  intros Hnd Hlt. destruct e as [|id]; simpl.
  - destruct (TradingCron.installed s); [|auto]. simpl. split.
    + apply NoDup_app. split; [exact Hnd|]. split; [|apply NoDup_singleton].
      intros x Hx Hx'. apply list_elem_of_singleton in Hx'. subst x.
      apply Hlt in Hx. lia.
    + intros x Hx. apply elem_of_app in Hx as [Hx|Hx].
      * apply Hlt in Hx. lia.
      * apply list_elem_of_singleton in Hx. lia.
  - split.
    + apply NoDup_ListNoDup, List.NoDup_filter, NoDup_ListNoDup, Hnd.
    + intros x Hx. apply Hlt. rewrite list_elem_of_In in Hx.
      apply List.filter_In in Hx as [Hx _]. apply list_elem_of_In. exact Hx.
Qed.

(** X26. Over any sequence of timer and settle events: in the browser nothing
    is installed and no cycle ever starts; on the server the cycles in
    flight are distinct cycles that were started, a cycle that settled is
    no longer in flight, and nothing stops the interval once installed. *)
Theorem cron_invariant (server_side : bool) (trace : list TradingCron.event) :
  let s := TradingCron.run (TradingCron.startTradingCron server_side) trace in
  TradingCron.installed s = server_side
  ∧ (server_side = false → TradingCron.started s = 0%nat ∧ TradingCron.running s = [])
  ∧ NoDup (TradingCron.running s)
  ∧ (∀ id, id ∈ TradingCron.running s → (id < TradingCron.started s)%nat)
  ∧ (∀ id, id ∉ TradingCron.running
                  (TradingCron.step s (TradingCron.CycleSettles id))).
Proof.
  intros s. unfold s. clear s.
  assert (H : ∀ s0,
    NoDup (TradingCron.running s0) →
    (∀ id, id ∈ TradingCron.running s0 → (id < TradingCron.started s0)%nat) →
    (TradingCron.installed s0 = false → TradingCron.started s0 = 0%nat
                                        ∧ TradingCron.running s0 = []) →
    TradingCron.installed (TradingCron.run s0 trace) = TradingCron.installed s0
    ∧ (TradingCron.installed s0 = false →
       TradingCron.started (TradingCron.run s0 trace) = 0%nat
       ∧ TradingCron.running (TradingCron.run s0 trace) = [])
    ∧ NoDup (TradingCron.running (TradingCron.run s0 trace))
    ∧ (∀ id, id ∈ TradingCron.running (TradingCron.run s0 trace) →
             (id < TradingCron.started (TradingCron.run s0 trace))%nat)).
  { unfold TradingCron.run. induction trace as [|e trace IH]; intros s0 Hnd Hlt Hoff; simpl.
    - auto.
    - destruct (cron_step_invariant s0 e Hnd Hlt) as [Hnd' Hlt'].
      assert (Hinst : TradingCron.installed (TradingCron.step s0 e) = TradingCron.installed s0).
      { destruct e; simpl; [destruct (TradingCron.installed s0) eqn:E; simpl; auto|reflexivity]. }
      assert (Hoff' : TradingCron.installed (TradingCron.step s0 e) = false →
                      TradingCron.started (TradingCron.step s0 e) = 0%nat
                      ∧ TradingCron.running (TradingCron.step s0 e) = []).
      { rewrite Hinst. intros Hf. destruct (Hoff Hf) as [H0 Hr].
        destruct e; simpl; [rewrite Hf; auto|]. rewrite Hr. auto. }
      destruct (IH _ Hnd' Hlt' Hoff') as (H1 & H2 & H3 & H4).
      rewrite Hinst in H1, H2. auto. }
  destruct (H (TradingCron.startTradingCron server_side)) as (H1 & H2 & H3 & H4).
  - apply NoDup_nil_2.
  - intros id Hid. simpl in Hid. inversion Hid.
  - auto.
  - simpl in H1, H2. split; [exact H1|]. split; [exact H2|]. split; [exact H3|].
    split; [exact H4|].
    intros id Hin. simpl in Hin. rewrite list_elem_of_In in Hin.
    apply List.filter_In in Hin as [_ Hin]. rewrite Nat.eqb_refl in Hin. discriminate Hin.
Qed.

Lemma cron_invariant_witness :
  TradingCron.started
    (TradingCron.run (TradingCron.startTradingCron false)
       [TradingCron.IntervalFires; TradingCron.IntervalFires]) = 0%nat.
Proof.
  destruct (cron_invariant false [TradingCron.IntervalFires; TradingCron.IntervalFires])
    as (_ & Hoff & _).
  apply Hoff. reflexivity.
Defined.
